(** * api-monitor: device API discovery and credential lifecycle

    A shallow embedding of [app/discovery.py] (class [ApiDiscovery]):
    the structural analyzer of JSON payloads, the deep-nesting check,
    sampling-driven and specification-driven discovery, and the
    OpenID-Connect token flow with its persisted token store. *)

From Stdlib Require Import Floats List String Ascii Bool Arith ZArith Lia.
Import ListNotations.
Open Scope nat_scope.
Open Scope string_scope.
Open Scope list_scope.

(** ** Python values as the program sees them

    Everything the program inspects at run time is the result of a JSON
    parse ([response.json()], [json.load]): a Python [None], [bool],
    [int], [float], [str], [list] or [dict].  A [dict] keeps its keys in
    insertion order, which is the order the analyzer walks them in, so an
    object is a list of members.  A [str] is modelled as a [string], one
    [ascii] per character.  A [float] is a binary64 value, infinities and
    NaN included, which [json.load] accepts and [json.dump] writes; an
    [int] has any size. *)

Module Json.

Unset Elimination Schemes.
Inductive json : Type :=
| JNull
| JBool (b : bool)
| JInt (z : Z)
| JFloat (f : float)
| JStr (s : string)
| JArr (items : list json)
| JObj (members : list (string * json)).
Set Elimination Schemes.

Definition obj := list (string * json).

(** Induction over a JSON value with the hypotheses for the elements of an
    array and for the member values of an object. *)
Section Induction.
Variable P : json -> Prop.
Hypothesis Hnull : P JNull.
Hypothesis Hbool : forall b, P (JBool b).
Hypothesis Hint : forall z, P (JInt z).
Hypothesis Hfloat : forall f, P (JFloat f).
Hypothesis Hstr : forall s, P (JStr s).
Hypothesis Harr : forall items, Forall P items -> P (JArr items).
Hypothesis Hobj :
  forall members, Forall (fun kv => P (snd kv)) members -> P (JObj members).

Fixpoint json_nested_ind (j : json) : P j :=
  match j with
  | JNull => Hnull
  | JBool b => Hbool b
  | JInt z => Hint z
  | JFloat f => Hfloat f
  | JStr s => Hstr s
  | JArr items =>
      Harr items
        (list_ind (Forall P) (Forall_nil P)
           (fun x _ IH => Forall_cons x (json_nested_ind x) IH) items)
  | JObj members =>
      Hobj members
        (list_ind (Forall (fun kv => P (snd kv)))
           (Forall_nil _)
           (fun kv _ IH =>
              Forall_cons kv (json_nested_ind (snd kv)) IH) members)
  end.
End Induction.

(** [d.get(key)]: the value bound to [key], if any. *)
Fixpoint lookup (key : string) (d : obj) : option json :=
  match d with
  | [] => None
  | (k, v) :: rest => if String.eqb k key then Some v else lookup key rest
  end.

(** [d.get(key, default)]. *)
Definition get_default (key : string) (default : json) (d : obj) : json :=
  match lookup key d with
  | Some v => v
  | None => default
  end.

(** [key in d]. *)
Definition has_key (key : string) (d : obj) : bool :=
  match lookup key d with
  | Some _ => true
  | None => false
  end.

(** [d[key] = v]: an existing key keeps its position, a new key is
    appended. *)
Fixpoint set_item (key : string) (v : json) (d : obj) : obj :=
  match d with
  | [] => [(key, v)]
  | (k, w) :: rest =>
      if String.eqb k key then (k, v) :: rest
      else (k, w) :: set_item key v rest
  end.

(** Python truthiness, as tested by [if not x]. *)
Definition truthy (j : json) : bool :=
  match j with
  | JNull => false
  | JBool b => b
  | JInt z => negb (Z.eqb z 0)
  | JFloat f => negb (PrimFloat.eqb f 0%float)
  | JStr s => negb (String.eqb s "")
  | JArr items => match items with [] => false | _ => true end
  | JObj members => match members with [] => false | _ => true end
  end.

(** A Python number: an [int] or a [float]. *)
Inductive number : Type :=
| NInt (z : Z)
| NFloat (f : float).

(** The number a value is.  [bool] is a subclass of [int]: [True] counts
    as 1 and [False] as 0.  Every other value is no number, and arithmetic
    or ordering against a float raises [TypeError]. *)
Definition as_number (j : json) : option number :=
  match j with
  | JInt z => Some (NInt z)
  | JFloat f => Some (NFloat f)
  | JBool b => Some (NInt (if b then 1 else 0))
  | _ => None
  end.

(** [float(z)], the conversion an [int] operand undergoes next to a
    [float]: the nearest binary64 value, a tie going to the even one;
    [None] stands for the [OverflowError] of an [int] too large to
    convert. *)
Definition float_of_int (z : Z) : option float :=
  let f := SF2Prim (binary_normalize prec emax z 0 false) in
  if PrimFloat.is_infinity f then None else Some f.

(** [x + y] for a float [x]: binary64 addition, after the conversion of
    an [int] operand. *)
Definition float_plus (x : float) (y : number) : option float :=
  match y with
  | NFloat f => Some (x + f)%float
  | NInt z =>
      match float_of_int z with
      | Some f => Some (x + f)%float
      | None => None
      end
  end.

(** [z > f] for an [int] and a [float]: Python compares the exact values,
    without converting the [int]. *)
Definition int_gt_float (z : Z) (f : float) : bool :=
  match Prim2SF f with
  | S754_nan => false
  | S754_infinity negative => negative
  | S754_zero _ => (0 <? z)%Z
  | S754_finite negative m e =>
      let v := if negative then Z.neg m else Z.pos m in
      if (0 <=? e)%Z then (v * 2 ^ e <? z)%Z else (v <? z * 2 ^ (- e))%Z
  end.

(** [x > y] for a float [y]: the binary64 comparison between floats,
    false whenever one of them is NaN. *)
Definition gt_float (x : number) (y : float) : bool :=
  match x with
  | NFloat f => (y <? f)%float
  | NInt z => int_gt_float z y
  end.

End Json.
Export Json.

(** ** String operations of the Python code *)

Module Str.

(** [s.replace(".", "_")] *)
Fixpoint replace_dots (s : string) : string :=
  match s with
  | EmptyString => EmptyString
  | String c rest =>
      String (if Ascii.eqb c "."%char then "_"%char else c) (replace_dots rest)
  end.

(** [s.lstrip("/")] *)
Fixpoint lstrip_slash (s : string) : string :=
  match s with
  | String c rest => if Ascii.eqb c "/"%char then lstrip_slash rest else s
  | EmptyString => EmptyString
  end.

(** [s.rstrip("/")] *)
Fixpoint rstrip_slash (s : string) : string :=
  match s with
  | EmptyString => EmptyString
  | String c rest =>
      match rstrip_slash rest with
      | EmptyString => if Ascii.eqb c "/"%char then EmptyString else String c EmptyString
      | kept => String c kept
      end
  end.

(** [f"{base.rstrip('/')}/{path.lstrip('/')}"] *)
Definition join_url (base path : string) : string :=
  rstrip_slash base ++ "/" ++ lstrip_slash path.

(** [s.startswith(p)] *)
Definition startswith (p s : string) : bool := String.prefix p s.

(** [s.endswith(p)] *)
Fixpoint endswith (p s : string) : bool :=
  if String.eqb p s then true
  else match s with
       | EmptyString => false
       | String _ rest => endswith p rest
       end.

(** [p in s] for two strings: [p] occurs in [s]. *)
Fixpoint contains (p s : string) : bool :=
  if String.prefix p s then true
  else match s with
       | EmptyString => false
       | String _ rest => contains p rest
       end.

Definition lower_char (c : ascii) : ascii :=
  let n := nat_of_ascii c in
  if ((65 <=? n) && (n <=? 90))%nat then ascii_of_nat (n + 32) else c.

Definition upper_char (c : ascii) : ascii :=
  let n := nat_of_ascii c in
  if ((97 <=? n) && (n <=? 122))%nat then ascii_of_nat (n - 32) else c.

Fixpoint map_chars (f : ascii -> ascii) (s : string) : string :=
  match s with
  | EmptyString => EmptyString
  | String c rest => String (f c) (map_chars f rest)
  end.

(** [s.lower()] and [s.upper()].  The code applies them to the method
    names of a specification and compares the lowered name with ["get"]
    and ["post"], for which only the ASCII letters matter. *)
Definition lower := map_chars lower_char.
Definition upper := map_chars upper_char.

(** [s[2:-1]] *)
Definition slice_2_m1 (s : string) : string :=
  String.substring 2 (String.length s - 3) s.

End Str.

(** ** Structural analyzer *)

Record metric := Metric {
  metric_path : string;
  metric_name : string;
  metric_type : string
}.

Record tag := Tag {
  tag_path : string;
  tag_name : string
}.

(** The state of the analyzer's two result lists. *)
Definition analysis : Type := list metric * list tag.

(** [f"{prefix}.{key}" if prefix else key] *)
Definition member_path (prefix key : string) : string :=
  if String.eqb prefix "" then key else prefix ++ "." ++ key.

(** [_analyze_json_structure(data, prefix)].  The loop over [data.items()]
    threads the two result lists; [isinstance(value, (int, float))] holds
    for a [bool] as well, since [bool] is a subclass of [int]. *)
Fixpoint _analyze_json_structure (data : json) (prefix : string) : analysis :=
  match data with
  | JObj members =>
      fold_left
        (fun (acc : analysis) (item : string * json) =>
           let (metrics, tags) := acc in
           let (key, value) := item in
           let path := member_path prefix key in
           match value with
           | JBool _ | JInt _ =>
               (metrics ++ [Metric path (Str.replace_dots path) "int"], tags)
           | JFloat _ =>
               (metrics ++ [Metric path (Str.replace_dots path) "float"], tags)
           | JStr s =>
               if (String.length s <? 80)%nat
               then (metrics, tags ++ [Tag path (Str.replace_dots path)])
               else (metrics, tags)
           | JObj _ | JArr _ =>
               let (child_metrics, child_tags) :=
                 _analyze_json_structure value path in
               (metrics ++ child_metrics, tags ++ child_tags)
           | JNull => (metrics, tags)
           end)
        members ([], [])
  | JArr (sample :: _) =>
      let (array_metrics, array_tags) :=
        _analyze_json_structure sample (prefix ++ "[*]") in
      ([] ++ array_metrics, [] ++ array_tags)
  | _ => ([], [])
  end.

(** [check_depth(obj, current_depth)] inside [_is_deeply_nested]. *)
Fixpoint check_depth (max_depth : nat) (obj : json) (current_depth : nat) : bool :=
  if (max_depth <=? current_depth)%nat then true
  else
    match obj with
    | JObj members =>
        existsb (fun item => check_depth max_depth (snd item) (S current_depth))
          members
    | JArr (first :: _) => check_depth max_depth first (S current_depth)
    | _ => false
    end.

(** [_is_deeply_nested(data, max_depth)]; the program always calls it with
    the default [max_depth = 5]. *)
Definition _is_deeply_nested (data : json) (max_depth : nat) : bool :=
  match data with
  | JObj [] => false
  | JArr [] => false
  | JObj _ | JArr _ => check_depth max_depth data 0
  | _ => false
  end.

Definition default_max_depth : nat := 5.

(** ** Exceptions, the device and its environment *)

Inductive exn : Type :=
| KeyError (key : string)
| TypeError
| AttributeError
| UnboundLocalError
| RecursionError
| OverflowError
| JSONDecodeError
| RequestException (detail : string).

(** [except requests.RequestException] *)
Definition is_request_exception (e : exn) : bool :=
  match e with
  | RequestException _ => true
  | _ => false
  end.

(** [except json.JSONDecodeError] *)
Definition is_json_decode_error (e : exn) : bool :=
  match e with
  | JSONDecodeError => true
  | _ => false
  end.

(** One entry of [device_config["api"]["endpoints"]]. *)
Record endpoint_config := EndpointConfig {
  ep_path : string;
  ep_method : string
}.

(** [device_config["api"]]: the keys the modelled code reads.  A key the
    code reads with [.get] or tests with [in] may be absent. *)
Record api_config := ApiConfig {
  base_url : string;
  auth_type : option string;
  username : option string;
  password : option string;
  auth_endpoint : option string;
  auth_type_extension : option string;
  openid_client_id : option string;
  openid_scope : option string;
  swagger_url : option string;
  endpoints : option (list endpoint_config)
}.

Record config := Config {
  name : string;
  api : api_config
}.

Inductive payload : Type :=
| NoBody
| Form (data : obj)
| JsonBody (body : json).

(** An HTTP request as handed to [requests]: the verb, the URL (a value
    read from the token store need not be a string), what is sent along
    and the session's [Authorization] bearer value when the request goes
    through [self.session]. *)
Record request := Request {
  rq_method : string;
  rq_url : json;
  rq_payload : payload;
  rq_bearer : option json
}.

(** An HTTP response: [json_body] is [None] when the body does not parse
    as JSON. *)
Record response := Response {
  status_code : Z;
  json_body : option json;
  content_type : option string
}.

Inductive http_result : Type :=
| Failed (detail : string)
| Answered (r : response).

(** The token store file on disk. *)
Inductive file : Type :=
| Missing
| Unreadable
| Holds (table : obj).

(** What surrounds one [ApiDiscovery] object: its configuration, the
    network (a reply may depend on the requests sent before), the clock
    read by [time.time()], the process environment and whether the token
    store file can be written. *)
Record env := Env {
  device_config : config;
  transport : list request -> request -> http_result;
  clock : nat -> float;
  environ : string -> option string;
  store_writable : bool
}.

(** The fields of the object together with the observable history of the
    world: the requests sent so far, the number of clock reads and the
    token store file. *)
Record state := State {
  auth_token : option json;
  session_bearer : option json;
  token_store : obj;
  auth_failed : bool;
  auth_error : option string;
  sent : list request;
  clock_reads : nat;
  token_file : file
}.

(** [self.auth_type = device_config["api"].get("auth_type", "none")] *)
Definition self_auth_type (E : env) : string :=
  match auth_type (api (device_config E)) with
  | Some t => t
  | None => "none"
  end.

(** ** Statements with effects and exceptions *)

Inductive outcome (A : Type) : Type :=
| Returned (a : A)
| Raised (e : exn).
Arguments Returned {A} a.
Arguments Raised {A} e.

(** A statement run on a state of type [S]: it returns or raises, and in
    both cases leaves a state behind. *)
Definition MS (S A : Type) : Type := S -> outcome A * S.

Definition ret {S A} (a : A) : MS S A := fun s => (Returned a, s).

Definition raise {S A} (e : exn) : MS S A := fun s => (Raised e, s).

Definition bind {S A B} (c : MS S A) (k : A -> MS S B) : MS S B :=
  fun s =>
    match c s with
    | (Returned a, s') => k a s'
    | (Raised e, s') => (Raised e, s')
    end.

(** [try: c  except Exception as e: handler(e)].  The effects of [c] up to
    the exception stay. *)
Definition try_except {S A} (c : MS S A) (handler : exn -> MS S A) : MS S A :=
  fun s =>
    match c s with
    | (Returned a, s') => (Returned a, s')
    | (Raised e, s') => handler e s'
    end.

(** [try: c  except <class> as e: handler(e)] for one class of exceptions. *)
Definition try_except_only {S A} (caught : exn -> bool) (c : MS S A)
    (handler : exn -> MS S A) : MS S A :=
  try_except c (fun e => if caught e then handler e else raise e).

Definition get_state {S} : MS S S := fun s => (Returned s, s).

Definition modify {S} (f : S -> S) : MS S unit := fun s => (Returned tt, f s).

(** The methods of the object run on its [state]. *)
Definition M (A : Type) : Type := MS state A.

Declare Scope py_scope.
Delimit Scope py_scope with py.
Notation "x <- c ;; k" := (bind c (fun x => k))
  (at level 100, c at next level, right associativity) : py_scope.
Notation "c ;;; k" := (bind c (fun _ => k))
  (at level 100, right associativity) : py_scope.
Open Scope py_scope.

(** [d[key]] *)
Definition getitem {S} (key : string) (d : obj) : MS S json :=
  match lookup key d with
  | Some v => ret v
  | None => raise (KeyError key)
  end.

(** A value whose [.get] or [.items] is called must be a [dict]. *)
Definition as_dict {S} (j : json) : MS S obj :=
  match j with
  | JObj members => ret members
  | _ => raise AttributeError
  end.

(** A configuration key read with [api_config[key]]. *)
Definition required {S} (key : string) (v : option string) : MS S string :=
  match v with
  | Some x => ret x
  | None => raise (KeyError key)
  end.

Definition with_default (default : string) (v : option string) : string :=
  match v with
  | Some x => x
  | None => default
  end.

(** [time.time()] *)
Definition time_time (E : env) : M float :=
  fun s =>
    (Returned (clock E (clock_reads s)),
     State (auth_token s) (session_bearer s) (token_store s) (auth_failed s)
       (auth_error s) (sent s) (S (clock_reads s)) (token_file s)).

(** A clock that starts at [start] seconds and advances by one second
    with every reading. *)
Definition ticking (start : Z) (n : nat) : float :=
  SF2Prim (binary_normalize prec emax (start + Z.of_nat n) 0 false).

(** Sending a request: it is recorded, and a transport failure raises a
    [RequestException]. *)
Definition send (E : env) (r : request) : M response :=
  fun s =>
    let s' :=
      State (auth_token s) (session_bearer s) (token_store s) (auth_failed s)
        (auth_error s) (sent s ++ [r]) (clock_reads s) (token_file s) in
    match transport E (sent s) r with
    | Failed detail => (Raised (RequestException detail), s')
    | Answered resp => (Returned resp, s')
    end.

(** [response.raise_for_status()]: an HTTPError, which is a
    [RequestException], for a 4xx or 5xx status. *)
Definition raise_for_status (r : response) : M unit :=
  if ((400 <=? status_code r) && (status_code r <? 600))%Z
  then raise (RequestException "HTTPError")
  else ret tt.

(** [response.json()] *)
Definition response_json (r : response) : M json :=
  match json_body r with
  | Some j => ret j
  | None => raise JSONDecodeError
  end.

(** [self.auth_token = token] followed by
    [self.session.headers.update({"Authorization": f"Bearer {token}"})] *)
Definition set_bearer (token : json) : M unit :=
  modify (fun s =>
    State (Some token) (Some token) (token_store s) (auth_failed s)
      (auth_error s) (sent s) (clock_reads s) (token_file s)).

(** [self.token_store[device_name] = record] *)
Definition store_record (device_name : string) (record : json) : M unit :=
  modify (fun s =>
    State (auth_token s) (session_bearer s)
      (set_item device_name record (token_store s)) (auth_failed s)
      (auth_error s) (sent s) (clock_reads s) (token_file s)).

(** [_load_token_store]: an absent file leaves [self.token_store] alone;
    so does a file that cannot be read or parsed, which is only logged. *)
Definition _load_token_store : M unit :=
  modify (fun s =>
    match token_file s with
    | Holds table =>
        State (auth_token s) (session_bearer s) table (auth_failed s)
          (auth_error s) (sent s) (clock_reads s) (token_file s)
    | Missing | Unreadable => s
    end).

(** [_save_token_store]: the whole table replaces the file; a failure to
    create or open the file is only logged. *)
Definition _save_token_store (E : env) : M unit :=
  modify (fun s =>
    if store_writable E
    then State (auth_token s) (session_bearer s) (token_store s)
           (auth_failed s) (auth_error s) (sent s) (clock_reads s)
           (Holds (token_store s))
    else s).

(** ** OpenID-Connect token flow *)

(** After a token response has been read: keep the token for the session,
    write the record and save the table.  [time.time() + expires_in] is
    evaluated after the token was kept and the clock read; it raises
    [TypeError] when [expires_in] is no number and [OverflowError] when it
    is an [int] beyond the range of a [float]. *)
Definition keep_tokens (E : env) (access_token refresh_token expires_in
    token_url client_id : json) : M unit :=
  set_bearer access_token ;;;
  now <- time_time E ;;
  match as_number expires_in with
  | None => raise TypeError
  | Some seconds =>
      match float_plus now seconds with
      | None => raise OverflowError
      | Some expires_at =>
          store_record (name (device_config E))
            (JObj [("access_token", access_token);
                   ("refresh_token", refresh_token);
                   ("expires_at", JFloat expires_at);
                   ("token_url", token_url);
                   ("client_id", client_id)]) ;;;
          _save_token_store E
      end
  end.

(** The password in use: a [${VAR}] reference is looked up in the process
    environment, with the empty string for an unset variable. *)
Definition resolve_password (E : env) (password : string) : string :=
  if Str.startswith "${" password && Str.endswith "}" password
  then match environ E (Str.slice_2_m1 password) with
       | Some v => v
       | None => ""
       end
  else password.

Definition refresh_request (token_url client_id refresh_token : json) : request :=
  Request "POST" token_url
    (Form [("client_id", client_id);
           ("refresh_token", refresh_token);
           ("grant_type", JStr "refresh_token")])
    None.

Definition password_request (token_url client_id username password scope : string)
    : request :=
  Request "POST" (JStr token_url)
    (Form [("client_id", JStr client_id);
           ("username", JStr username);
           ("password", JStr password);
           ("grant_type", JStr "password");
           ("scope", JStr scope)])
    None.

(** The part of [_get_openid_token] after the comment "Otherwise, get a
    new token": the password grant. *)
Definition password_grant (E : env) : M unit :=
  let api_config := api (device_config E) in
  username <- required "username" (username api_config) ;;
  password <- required "password" (password api_config) ;;
  let password := resolve_password E password in
  let client_id := with_default "webui" (openid_client_id api_config) in
  let scope := with_default "offline_access" (openid_scope api_config) in
  auth_endpoint <- required "auth_endpoint" (auth_endpoint api_config) ;;
  let token_url := Str.join_url (base_url api_config) auth_endpoint in
  response <- send E (password_request token_url client_id username password scope) ;;
  raise_for_status response ;;;
  body <- response_json response ;;
  token_data <- as_dict body ;;
  let access_token := get_default "access_token" JNull token_data in
  let refresh_token := get_default "refresh_token" JNull token_data in
  let expires_in := get_default "expires_in" (JInt 300) token_data in
  if negb (truthy access_token) then ret tt
  else keep_tokens E access_token refresh_token expires_in
         (JStr token_url) (JStr client_id).

(** The body of the [try] block of [_refresh_openid_token]. *)
Definition refresh_grant (E : env) (token_data : obj) : M unit :=
  token_url <- getitem "token_url" token_data ;;
  client_id <- getitem "client_id" token_data ;;
  refresh_token <- getitem "refresh_token" token_data ;;
  response <- send E (refresh_request token_url client_id refresh_token) ;;
  raise_for_status response ;;;
  body <- response_json response ;;
  new_token_data <- as_dict body ;;
  let access_token := get_default "access_token" JNull new_token_data in
  let new_refresh_token :=
    get_default "refresh_token" refresh_token new_token_data in
  let expires_in := get_default "expires_in" (JInt 300) new_token_data in
  if negb (truthy access_token) then ret tt
  else keep_tokens E access_token new_refresh_token expires_in
         token_url client_id.

(** [_get_openid_token] and [_refresh_openid_token] call each other.
    [depth] is the number of nested activations of the two methods the
    interpreter still admits: a call beyond it raises [RecursionError] at
    the call site, which the nearest enclosing [except Exception] catches
    like any other exception. *)
Fixpoint _get_openid_token (E : env) (depth : nat) : M unit :=
  match depth with
  | O => raise RecursionError
  | S depth' =>
      try_except
        (_load_token_store ;;;
         s <- get_state ;;
         match lookup (name (device_config E)) (token_store s) with
         | Some stored =>
             token_data <- as_dict stored ;;
             now <- time_time E ;;
             match as_number (get_default "expires_at" (JInt 0) token_data) with
             | None => raise TypeError
             | Some expires_at =>
                 if gt_float expires_at (now + 60)%float
                 then
                   access_token <- getitem "access_token" token_data ;;
                   set_bearer access_token
                 else if has_key "refresh_token" token_data
                 then _refresh_openid_token E depth' token_data
                 else password_grant E
             end
         | None => password_grant E
         end)
        (fun _ => ret tt)
  end

with _refresh_openid_token (E : env) (depth : nat) (token_data : obj) : M unit :=
  match depth with
  | O => raise RecursionError
  | S depth' =>
      try_except (refresh_grant E token_data)
        (fun _ => _get_openid_token E depth')
  end.

(** ** Discovery results *)

(** An entry of [api_structure["endpoints"]]; the four shapes of
    dictionary the code builds. *)
Inductive endpoint : Type :=
| SampledOk (path method : string) (metrics : list metric) (tags : list tag)
    (nested_json : bool) (jsonv2_config : option (list metric * list tag))
| SampledNonJson (path method : string) (content_type : string)
| SampledError (path method : string) (error : exn)
| Documented (path method : string) (description tags parameters : json)
    (response_schema : option json).

Definition endpoint_path (d : endpoint) : string :=
  match d with
  | SampledOk p _ _ _ _ _ | SampledNonJson p _ _ | SampledError p _ _
  | Documented p _ _ _ _ _ => p
  end.

Definition endpoint_method (d : endpoint) : string :=
  match d with
  | SampledOk _ m _ _ _ _ | SampledNonJson _ m _ | SampledError _ m _
  | Documented _ m _ _ _ _ => m
  end.

(** The ["status"] key, which a documented endpoint does not have. *)
Definition endpoint_status (d : endpoint) : option string :=
  match d with
  | SampledOk _ _ _ _ _ _ => Some "ok"
  | SampledNonJson _ _ _ => Some "non-json"
  | SampledError _ _ _ => Some "error"
  | Documented _ _ _ _ _ _ => None
  end.

Record summary := Summary {
  total_endpoints : nat;
  successful_endpoints : nat;
  failed_endpoints : nat
}.

(** The dictionary returned by [discover]. *)
Inductive api_structure : Type :=
| AuthFailedStructure (error : option string)
| SwaggerStructure (found : list endpoint) (data_models : json)
| SampleStructure (found : list endpoint) (samples : obj) (counts : summary).

(** [api_structure["endpoints"]] *)
Definition structure_endpoints (a : api_structure) : list endpoint :=
  match a with
  | AuthFailedStructure _ => []
  | SwaggerStructure found _ => found
  | SampleStructure found _ _ => found
  end.

(** ** Sampling-driven discovery *)

(** The local variables of [_discover_from_samples] that the loop updates.
    [response] is unbound until a request has returned, and keeps its
    value from one iteration to the next. *)
Record sampling := Sampling {
  sampled : list endpoint;
  sample_bodies : obj;
  successful : nat;
  failed : nat;
  last_response : option response
}.

(** The loop runs on its local variables and the object's state: an
    assignment made before an exception is still there in the handler. *)
Definition L (A : Type) : Type := MS (sampling * state) A.

Definition on_object {A} (c : M A) : L A :=
  fun vs =>
    let (o, s') := c (snd vs) in (o, (fst vs, s')).

Definition assign (f : sampling -> sampling) : L unit :=
  modify (fun vs => (f (fst vs), snd vs)).

(** The test that skips the auth endpoint. *)
Definition is_auth_endpoint (E : env) (path : string) : bool :=
  String.eqb (self_auth_type E) "token_from_auth"
  && match auth_endpoint (api (device_config E)) with
     | Some a => String.eqb a path
     | None => false
     end.

(** The request [self.session.get(url)] or [self.session.post(url, json={})]. *)
Definition sample_request (method url : string) (bearer : option json) : request :=
  Request method (JStr url)
    (if String.eqb method "POST" then JsonBody (JObj []) else NoBody)
    bearer.

(** The dictionary built for a response that parsed as JSON. *)
Definition endpoint_config_of (path method : string) (data : json) : endpoint :=
  let is_deeply_nested := _is_deeply_nested data default_max_depth in
  let (metrics, tags) := _analyze_json_structure data "" in
  SampledOk path method metrics tags is_deeply_nested
    (if is_deeply_nested
     then if (0 <? List.length metrics)%nat || (0 <? List.length tags)%nat
          then Some (metrics, tags)
          else None
     else None).

(** [api_structure["endpoints"].append(d)] *)
Definition append_endpoint (d : endpoint) : L unit :=
  assign (fun v =>
    Sampling (sampled v ++ [d]) (sample_bodies v) (successful v) (failed v)
      (last_response v)).

(** [successful_endpoints += 1] *)
Definition count_success : L unit :=
  assign (fun v =>
    Sampling (sampled v) (sample_bodies v) (S (successful v)) (failed v)
      (last_response v)).

(** [failed_endpoints += 1] *)
Definition count_failure : L unit :=
  assign (fun v =>
    Sampling (sampled v) (sample_bodies v) (successful v) (S (failed v))
      (last_response v)).

(** [api_structure["samples"][path] = data] *)
Definition keep_sample (path : string) (data : json) : L unit :=
  assign (fun v =>
    Sampling (sampled v) (set_item path data (sample_bodies v)) (successful v)
      (failed v) (last_response v)).

(** [response = self.session.get(url, timeout=10)], and the same with
    [post]: the assignment happens only when the call returns. *)
Definition assign_response (E : env) (method url : string) : L unit :=
  vs <- get_state ;;
  r <- on_object (send E (sample_request method url (session_bearer (snd vs)))) ;;
  assign (fun v =>
    Sampling (sampled v) (sample_bodies v) (successful v) (failed v) (Some r)).

(** Reading the local [response]. *)
Definition read_response : L response :=
  vs <- get_state ;;
  match last_response (fst vs) with
  | Some r => ret r
  | None => raise UnboundLocalError
  end.

(** One iteration of the loop over [endpoints]. *)
Definition sample_endpoint (E : env) (e : endpoint_config) : L unit :=
  let path := ep_path e in
  let method := ep_method e in
  if is_auth_endpoint E path then ret tt
  else
    let url := Str.join_url (base_url (api (device_config E))) path in
    try_except
      (try_except_only is_request_exception
         ((if String.eqb method "GET" then assign_response E method url
           else if String.eqb method "POST" then assign_response E method url
           else ret tt) ;;;
          response <- read_response ;;
          on_object (raise_for_status response) ;;;
          try_except_only is_json_decode_error
            (data <- on_object (response_json response) ;;
             count_success ;;;
             append_endpoint (endpoint_config_of path method data) ;;;
             keep_sample path data)
            (fun _ =>
               append_endpoint
                 (SampledNonJson path method
                    (with_default "unknown" (content_type response)))))
         (fun req_e =>
            count_failure ;;;
            append_endpoint (SampledError path method req_e)))
      (fun e =>
         count_failure ;;;
         append_endpoint (SampledError path method e)).

(** [for endpoint in endpoints: ...] *)
Fixpoint sample_all (E : env) (todo : list endpoint_config) : L unit :=
  match todo with
  | [] => ret tt
  | e :: rest => sample_endpoint E e ;;; sample_all E rest
  end.

(** [device_config["api"].get("endpoints", [{"path": "", "method": "GET"}])] *)
Definition configured_endpoints (E : env) : list endpoint_config :=
  match endpoints (api (device_config E)) with
  | Some l => l
  | None => [EndpointConfig "" "GET"]
  end.

Definition _discover_from_samples (E : env) : M api_structure :=
  fun s =>
    let endpoints := configured_endpoints E in
    match sample_all E endpoints (Sampling [] [] 0 0 None, s) with
    | (Returned _, (v, s')) =>
        (Returned
           (SampleStructure (sampled v) (sample_bodies v)
              (Summary (List.length endpoints) (successful v) (failed v))),
         s')
    | (Raised e, (_, s')) => (Raised e, s')
    end.

(** ** Specification-driven discovery *)

(** [if "schema" in response_spec: ... response_spec["schema"]].  The
    membership test is a key test on a dictionary, a substring test on a
    string and an element test on a list, and raises [TypeError] on
    anything else; indexing a string or a list with ["schema"] raises
    [TypeError] too. *)
Definition schema_of_response (response_spec : json) : M (option json) :=
  match response_spec with
  | JObj members => ret (lookup "schema" members)
  | JStr s => if Str.contains "schema" s then raise TypeError else ret None
  | JArr items =>
      if existsb (fun x => match x with
                           | JStr s => String.eqb s "schema"
                           | _ => false
                           end) items
      then raise TypeError
      else ret None
  | _ => raise TypeError
  end.

(** The loop over [operation.get("responses", {}).items()]; [schema] is
    [endpoint["responses"]["schema"]], if set. *)
Fixpoint response_schemas (responses : obj) (schema : option json)
    : M (option json) :=
  match responses with
  | [] => ret schema
  | (status, response_spec) :: rest =>
      if Str.startswith "2" status
      then
        found <- schema_of_response response_spec ;;
        response_schemas rest
          (match found with
           | Some v => Some v
           | None => schema
           end)
      else response_schemas rest schema
  end.

(** The loop over [path_item.items()]. *)
Fixpoint path_operations (path : string) (path_item : obj)
    (found : list endpoint) : M (list endpoint) :=
  match path_item with
  | [] => ret found
  | (method, operation) :: rest =>
      let m := Str.lower method in
      if String.eqb m "get" || String.eqb m "post"
      then
        op <- as_dict operation ;;
        let description := get_default "summary" (JStr "") op in
        let tags := get_default "tags" (JArr []) op in
        let parameters := get_default "parameters" (JArr []) op in
        responses <- as_dict (get_default "responses" (JObj []) op) ;;
        schema <- response_schemas responses None ;;
        path_operations path rest
          (found ++ [Documented path (Str.upper method) description tags
                       parameters schema])
      else path_operations path rest found
  end.

(** The loop over [swagger_spec.get("paths", {}).items()]. *)
Fixpoint documented_paths (paths : obj) (found : list endpoint)
    : M (list endpoint) :=
  match paths with
  | [] => ret found
  | (path, path_item) :: rest =>
      operations <- as_dict path_item ;;
      found' <- path_operations path operations found ;;
      documented_paths rest found'
  end.

(** The structure read off a parsed document; [validate(swagger_spec)]
    before it only logs. *)
Definition structure_of_document (swagger_spec : json) : M api_structure :=
  spec <- as_dict swagger_spec ;;
  paths <- as_dict (get_default "paths" (JObj []) spec) ;;
  found <- documented_paths paths [] ;;
  let definitions := get_default "definitions" (JObj []) spec in
  if truthy definitions
  then ret (SwaggerStructure found definitions)
  else
    components <- as_dict (get_default "components" (JObj []) spec) ;;
    ret (SwaggerStructure found (get_default "schemas" (JObj []) components)).

(** [_discover_from_swagger]; its [except] clause logs and raises again. *)
Definition _discover_from_swagger (E : env) : M api_structure :=
  swagger_url <- required "swagger_url" (swagger_url (api (device_config E))) ;;
  s <- get_state ;;
  response <- send E (Request "GET" (JStr swagger_url) NoBody (session_bearer s)) ;;
  raise_for_status response ;;;
  swagger_spec <- response_json response ;;
  structure_of_document swagger_spec.

(** ** The entry point *)

Definition discover (E : env) : M api_structure :=
  s <- get_state ;;
  if auth_failed s
  then ret (AuthFailedStructure (auth_error s))
  else
    match swagger_url (api (device_config E)) with
    | Some _ =>
        try_except (_discover_from_swagger E)
          (fun _ => _discover_from_samples E)
    | None => _discover_from_samples E
    end.

(** ** Notions used to state the properties *)

(** *** Where a value sits in a document *)

(** A document with one position singled out: the position itself, a
    member of an object, or an element of an array. *)
Inductive context : Type :=
| Here
| InMember (before : obj) (key : string) (inner : context) (after : obj)
| InElement (before : list json) (inner : context) (after : list json).

(** The document with [v] at the position. *)
Fixpoint plug (c : context) (v : json) : json :=
  match c with
  | Here => v
  | InMember before key inner after =>
      JObj (before ++ (key, plug inner v) :: after)
  | InElement before inner after => JArr (before ++ plug inner v :: after)
  end.

(** What the loop body of the analyzer adds for one member. *)
Definition member_analysis (prefix : string) (item : string * json) : analysis :=
  let (key, value) := item in
  let path := member_path prefix key in
  match value with
  | JBool _ | JInt _ => ([Metric path (Str.replace_dots path) "int"], [])
  | JFloat _ => ([Metric path (Str.replace_dots path) "float"], [])
  | JStr s =>
      if (String.length s <? 80)%nat
      then ([], [Tag path (Str.replace_dots path)])
      else ([], [])
  | JObj _ | JArr _ => _analyze_json_structure value path
  | JNull => ([], [])
  end.

Definition member_metrics (prefix : string) (item : string * json) : list metric :=
  fst (member_analysis prefix item).

Definition member_tags (prefix : string) (item : string * json) : list tag :=
  snd (member_analysis prefix item).

(** Two values the analyzer cannot tell apart, neither as the document
    nor as the value of a member. *)
Definition alike (v w : json) : Prop :=
  (forall prefix, _analyze_json_structure v prefix =
                  _analyze_json_structure w prefix)
  /\ (forall prefix key, member_analysis prefix (key, v) =
                         member_analysis prefix (key, w)).

(** The leaves the specification lists as ignored: a boolean, null, or a
    string of 80 characters or more. *)
Definition listed_as_ignored (v : json) : bool :=
  match v with
  | JBool _ | JNull => true
  | JStr s => (80 <=? String.length s)%nat
  | _ => false
  end.

(** The leaves the analyzer ignores wherever they sit: null and a string
    of 80 characters or more. *)
Definition ignored_leaf (v : json) : bool :=
  match v with
  | JNull => true
  | JStr s => (80 <=? String.length s)%nat
  | _ => false
  end.

(** *** Nesting depth *)

(** Depth as the specification words it: a scalar and an empty container
    add no level, a non-empty container is one level above its deepest
    child, and every element of an array is a child. *)
Fixpoint depth_any_branch (j : json) : nat :=
  match j with
  | JObj members =>
      fold_right (fun item d => Nat.max (S (depth_any_branch (snd item))) d)
        0 members
  | JArr items =>
      fold_right (fun x d => Nat.max (S (depth_any_branch x)) d) 0 items
  | _ => 0
  end.

(** Depth along the branches the check follows: all members of an object,
    but only the first element of an array. *)
Fixpoint depth_sampled (j : json) : nat :=
  match j with
  | JObj members =>
      fold_right (fun item d => Nat.max (S (depth_sampled (snd item))) d)
        0 members
  | JArr (first :: _) => S (depth_sampled first)
  | _ => 0
  end.

(** *** Names *)

(** The name as the specification words it: the path with the dots and
    the [[*]] suffixes of array sampling turned into underscores. *)
Fixpoint flatten_separators (path : string) : string :=
  match path with
  | EmptyString => EmptyString
  | String "["%char (String "*"%char (String "]"%char rest)) =>
      String "_"%char (flatten_separators rest)
  | String c rest =>
      String (if Ascii.eqb c "."%char then "_"%char else c)
        (flatten_separators rest)
  end.

(** *** Sampling *)

(** The path and method of an endpoint, in the configuration and in the
    result. *)
Definition config_key (e : endpoint_config) : string * string :=
  (ep_path e, ep_method e).

Definition endpoint_key (d : endpoint) : string * string :=
  (endpoint_path d, endpoint_method d).

(** The endpoints of a list that the loop does not skip. *)
Definition not_skipped (E : env) (todo : list endpoint_config)
    : list endpoint_config :=
  filter (fun e => negb (is_auth_endpoint E (ep_path e))) todo.

(** The request an endpoint is sampled with. *)
Definition request_of (E : env) (bearer : option json) (e : endpoint_config)
    : request :=
  sample_request (ep_method e)
    (Str.join_url (base_url (api (device_config E))) (ep_path e)) bearer.

(** What one iteration of the sampling loop does to the local variables
    and to the object, from [(v, s)] to [(v', s')]. *)
Definition iteration (E : env) (e : endpoint_config) (v : sampling) (s : state)
    (v' : sampling) (s' : state) : Prop :=
  session_bearer s' = session_bearer s
  /\ if is_auth_endpoint E (ep_path e)
     then v' = v /\ s' = s
     else
       (exists d, sampled v' = sampled v ++ [d] /\ endpoint_key d = config_key e)
       /\ successful v <= successful v'
       /\ failed v <= failed v'
       /\ successful v' + failed v' <= S (successful v + failed v)
       /\ (sent s' = sent s
           \/ sent s' = sent s ++ [request_of E (session_bearer s) e]).

(** The network answers a request the same way whatever was sent
    before. *)
Definition history_independent (E : env) : Prop :=
  forall (h h' : list request) (r : request), transport E h r = transport E h' r.

(** The same device without the [swagger_url] key. *)
Definition without_swagger (E : env) : env :=
  let c := device_config E in
  let a := api c in
  Env (Config (name c)
         (ApiConfig (base_url a) (auth_type a) (username a) (password a)
            (auth_endpoint a) (auth_type_extension a) (openid_client_id a)
            (openid_scope a) None (endpoints a)))
    (transport E) (clock E) (environ E) (store_writable E).

(** *** A sample device

    A device with token authentication whose endpoint list names the login
    endpoint, a JSON endpoint and a plain-text endpoint. *)

Definition sample_api : api_config :=
  ApiConfig "http://device/" (Some "token_from_auth") (Some "admin")
    (Some "${DEVICE_PW}") (Some "/login") None None None None
    (Some [EndpointConfig "/login" "POST";
           EndpointConfig "/status" "GET";
           EndpointConfig "/banner" "GET"]).

Definition sample_network (_ : list request) (r : request) : http_result :=
  match rq_url r with
  | JStr url =>
      if String.eqb url "http://device/status"
      then Answered
             (Response 200
                (Some (JObj [("cpu", JObj [("load", JFloat 0.5%float)])]))
                (Some "application/json"))
      else if String.eqb url "http://device/banner"
      then Answered (Response 200 None (Some "text/plain"))
      else Failed "connection refused"
  | _ => Failed "invalid URL"
  end.

Definition sample_env : env :=
  Env (Config "device" sample_api) sample_network
    (ticking 1000) (fun _ => None) true.

(** The object after an authentication that obtained a token. *)
Definition sample_state : state :=
  State (Some (JStr "t0")) (Some (JStr "t0")) [] false None [] 0 Missing.

(** The sample device with a specification URL that nothing answers. *)
Definition documented_api : api_config :=
  ApiConfig "http://device/" (Some "token_from_auth") (Some "admin")
    (Some "${DEVICE_PW}") (Some "/login") None None None
    (Some "http://device/swagger.json")
    (Some [EndpointConfig "/login" "POST";
           EndpointConfig "/status" "GET";
           EndpointConfig "/banner" "GET"]).


(** A statement that leaves the state as it found it. *)
Definition stateless {A} (c : M A) : Prop := forall s, snd (c s) = s.

(** The request that fetches the specification. *)
Definition specification_request (url : string) (s : state) : request :=
  Request "GET" (JStr url) NoBody (session_bearer s).

(** *** A device with a stale token record

    The token store file holds a record for the device that expired long
    ago, at 900 seconds on a clock that reads 1000 seconds, and has a
    refresh token.  The identity provider rejects every refresh grant
    with status 400 and would accept a password grant. *)

Definition stale_record : json :=
  JObj [("access_token", JStr "old");
        ("refresh_token", JStr "r1");
        ("expires_at", JFloat 900%float);
        ("token_url", JStr "http://device/token");
        ("client_id", JStr "webui")].

Definition oidc_api : api_config :=
  ApiConfig "http://device/" (Some "token_from_auth") (Some "admin")
    (Some "secret") (Some "/token") (Some "openid_connect") None None None
    None.

Definition provider (_ : list request) (r : request) : http_result :=
  match rq_payload r with
  | Form data =>
      match lookup "grant_type" data with
      | Some (JStr grant) =>
          if String.eqb grant "password"
          then Answered
                 (Response 200
                    (Some (JObj [("access_token", JStr "fresh");
                                 ("refresh_token", JStr "r2");
                                 ("expires_in", JInt 300)]))
                    (Some "application/json"))
          else Answered
                 (Response 400
                    (Some (JObj [("error", JStr "invalid_grant")]))
                    (Some "application/json"))
      | _ => Answered (Response 400 None None)
      end
  | _ => Failed "connection refused"
  end.

Definition oidc_env : env :=
  Env (Config "device" oidc_api) provider
    (fun _ => 1000%float) (fun _ => None) true.

Definition stale_state : state :=
  State None None [] false None [] 0 (Holds [("device", stale_record)]).

Definition stale_refresh_request : request :=
  refresh_request (JStr "http://device/token") (JStr "webui") (JStr "r1").

(** The identity provider's answer to a refresh grant that makes
    [refresh_grant] raise before anything is stored: no answer at all, or
    an error status. *)
Definition rejected (answer : http_result) : Prop :=
  match answer with
  | Failed _ => True
  | Answered r => ((400 <=? status_code r)%Z && (status_code r <? 600)%Z) = true
  end.

(** The state after a failed refresh attempt: the table was loaded, the
    clock read once, and the request sent. *)
Definition after_failed_refresh (table : obj) (r : request) (s : state) : state :=
  State (auth_token s) (session_bearer s) table (auth_failed s) (auth_error s)
    (sent s ++ [r]) (S (clock_reads s)) (token_file s).

(** An identity provider that renews: it answers every request with a new
    access token valid for two minutes, and no new refresh token. *)
Definition renewing_provider (_ : list request) (_ : request) : http_result :=
  Answered
    (Response 200
       (Some (JObj [("access_token", JStr "fresh"); ("expires_in", JInt 120)]))
       (Some "application/json")).

Definition renewing_env : env :=
  Env (Config "device" oidc_api) renewing_provider
    (ticking 1000) (fun _ => None) true.

(** The members of [stale_record]. *)
Definition stale_token_data : obj :=
  [("access_token", JStr "old");
   ("refresh_token", JStr "r1");
   ("expires_at", JFloat 900%float);
   ("token_url", JStr "http://device/token");
   ("client_id", JStr "webui")].

(** The object once [_get_openid_token] has loaded the stale table and
    read the clock. *)
Definition stale_loaded : state :=
  State None None [("device", stale_record)] false None [] 1
    (Holds [("device", stale_record)]).

(** * Further parts of the program *)

(** ** Values at a dotted path *)

(** [path.split(".")]: the pieces between the dots, at least one. *)
Fixpoint split_dots (path : string) : list string :=
  match path with
  | EmptyString => [EmptyString]
  | String c rest =>
      if Ascii.eqb c "."%char then EmptyString :: split_dots rest
      else
        match split_dots rest with
        | first :: others => String c first :: others
        | [] => [String c EmptyString]
        end
  end.

(** The loop of [_extract_nested_value] over the parts.  The [None] it
    returns for a step that cannot be taken is the value a JSON null
    parses to. *)
Fixpoint follow_parts (parts : list string) (current : json) : json :=
  match parts with
  | [] => current
  | part :: rest =>
      match current with
      | JObj members =>
          match lookup part members with
          | Some v => follow_parts rest v
          | None => JNull
          end
      | _ => JNull
      end
  end.

(** [_extract_nested_value(data, path)], and the same method
    [extract_nested_value] of the token exporter. *)
Definition _extract_nested_value (data : json) (path : string) : json :=
  follow_parts (split_dots path) data.

(** ** Sessions of the token flow *)

(** The table [_load_token_store] leaves in [self.token_store]. *)
Definition loaded_store (s : state) : obj :=
  match token_file s with
  | Holds table => table
  | Missing | Unreadable => token_store s
  end.

(** The token URL and the password-grant request of the configured
    device, when user name, password and auth endpoint are configured. *)
Definition login_url (E : env) (endpoint : string) : string :=
  Str.join_url (base_url (api (device_config E))) endpoint.

Definition login_request (E : env) (user pass endpoint : string) : request :=
  password_request (login_url E endpoint)
    (with_default "webui" (openid_client_id (api (device_config E))))
    user (resolve_password E pass)
    (with_default "offline_access" (openid_scope (api (device_config E)))).

(** The object of a new session in the world a previous session left:
    nothing in memory, the same requests sent, clock and token file. *)
Definition new_session (s : state) : state :=
  State None None [] false None (sent s) (clock_reads s) (token_file s).

(** An identity provider that refuses every grant. *)
Definition refusing_provider (_ : list request) (_ : request) : http_result :=
  Answered (Response 401 (Some (JObj [("error", JStr "invalid_client")])) None).

Definition refusing_env : env :=
  Env (Config "device" oidc_api) refusing_provider
    (ticking 1000) (fun _ => None) true.

(** An identity provider whose tokens last longer than a float can say:
    [expires_in] is an integer beyond the range of a float. *)
Definition eternal_provider (_ : list request) (_ : request) : http_result :=
  Answered
    (Response 200
       (Some (JObj [("access_token", JStr "fresh");
                    ("expires_in", JInt (10 ^ 400))]))
       (Some "application/json")).

Definition eternal_env : env :=
  Env (Config "device" oidc_api) eternal_provider
    (ticking 1000) (fun _ => None) true.

(** The object once [_load_token_store] has run. *)
Definition after_load (s : state) : state :=
  State (auth_token s) (session_bearer s) (loaded_store s) (auth_failed s)
    (auth_error s) (sent s) (clock_reads s) (token_file s).

(** What every step of the token flow keeps, from [s] to [s']: the
    failure marks, the requests already sent, the records of the other
    devices in [self.token_store], and a token file that is either left
    alone or replaced by [self.token_store]. *)
Definition flow_keeps (device : string) (s s' : state) : Prop :=
  auth_failed s' = auth_failed s
  /\ auth_error s' = auth_error s
  /\ (exists rest, sent s' = sent s ++ rest)
  /\ (forall other,
        other <> device ->
        lookup other (token_store s') = lookup other (token_store s))
  /\ (token_file s' = token_file s \/ token_file s' = Holds (token_store s')).

(** ** Sampling: what is requested and what is counted *)

(** The endpoints of the list a request is sent for: not skipped, and with
    method GET or POST. *)
Definition is_requested (E : env) (e : endpoint_config) : bool :=
  negb (is_auth_endpoint E (ep_path e))
  && (String.eqb (ep_method e) "GET" || String.eqb (ep_method e) "POST").

Definition has_status (status : string) (d : endpoint) : bool :=
  match endpoint_status d with
  | Some st => String.eqb st status
  | None => false
  end.

(** The number of descriptors with a given status. *)
Definition status_count (status : string) (found : list endpoint) : nat :=
  List.length (filter (has_status status) found).

(** The counters and the kept bodies agree with the descriptors. *)
Definition accounted (v : sampling) : Prop :=
  successful v = status_count "ok" (sampled v)
  /\ failed v = status_count "error" (sampled v)
  /\ forall path,
       has_key path (sample_bodies v) =
       existsb (fun d => has_status "ok" d && String.eqb (endpoint_path d) path)
         (sampled v).

(** The object with further requests sent. *)
Definition with_sent (s : state) (more : list request) : state :=
  State (auth_token s) (session_bearer s) (token_store s) (auth_failed s)
    (auth_error s) (sent s ++ more) (clock_reads s) (token_file s).

(** ** Specification-driven discovery *)

(** A descriptor read off a specification: it has no status, and its
    method is GET or POST. *)
Definition documented_get_or_post (d : endpoint) : Prop :=
  endpoint_status d = None
  /\ (endpoint_method d = "GET" \/ endpoint_method d = "POST").

(** A device that publishes a specification: one path with a GET
    operation, a DELETE operation and path-level parameters. *)
Definition sample_document : json :=
  JObj [("swagger", JStr "2.0");
        ("paths",
         JObj [("/status",
                JObj [("get",
                       JObj [("summary", JStr "Status");
                             ("responses",
                              JObj [("200",
                                     JObj [("schema",
                                            JObj [("type", JStr "object")])]);
                                    ("404", JObj [])])]);
                      ("delete", JObj []);
                      ("parameters", JArr [])])]);
        ("definitions", JObj [("Status", JObj [])])].

Definition documenting_network (h : list request) (r : request) : http_result :=
  match rq_url r with
  | JStr url =>
      if String.eqb url "http://device/swagger.json"
      then Answered (Response 200 (Some sample_document)
                       (Some "application/json"))
      else sample_network h r
  | _ => sample_network h r
  end.

Definition documenting_env : env :=
  Env (Config "device" documented_api) documenting_network
    (ticking 1000) (fun _ => None) true.

(** A device whose specification is an object without paths. *)
Definition bare_network (h : list request) (r : request) : http_result :=
  match rq_url r with
  | JStr url =>
      if String.eqb url "http://device/swagger.json"
      then Answered (Response 200 (Some (JObj [("openapi", JStr "3.0.0")]))
                       (Some "application/json"))
      else sample_network h r
  | _ => sample_network h r
  end.

Definition bare_env : env :=
  Env (Config "device" documented_api) bare_network
    (ticking 1000) (fun _ => None) true.

(** ** Authentication setup *)

(** The keys of [device_config["api"]] that only the other authentication
    types read. *)
Record login_config := LoginConfig {
  token : option string;
  auth_method : option string;
  auth_payload : option json;
  token_path : option string
}.

(** The object together with what the other authentication types touch:
    [self.session.auth] (which the requests recorded by [send] do not
    show), the variables written to [os.environ], and the [auth_payload]
    dictionary of the configuration, which [_get_auth_token] updates in
    place. *)
Record session := Session {
  object : state;
  basic_auth : option (string * string);
  exported : list (string * string);
  payload_in_config : option json
}.

Definition on_state {A} (c : M A) : MS session A :=
  fun x =>
    let (o, s') := c (object x) in
    (o, Session s' (basic_auth x) (exported x) (payload_in_config x)).

(** The replacement of the placeholders in the members of
    [auth_payload]. *)
Definition fill_placeholders (user pass : string) (members : obj) : obj :=
  map (fun item : string * json =>
         let (key, value) := item in
         match value with
         | JStr v =>
             if String.eqb v "{{username}}" then (key, JStr user)
             else if String.eqb v "{{password}}" then (key, JStr pass)
             else (key, value)
         | _ => (key, value)
         end)
    members.

(** [f"DEVICE_{name.upper()}_TOKEN"], with the ASCII letters of the name
    in upper case. *)
Definition token_env_var (E : env) : string :=
  "DEVICE_" ++ Str.upper (name (device_config E)) ++ "_TOKEN".

Fixpoint has_char (c : ascii) (s : string) : bool :=
  match s with
  | EmptyString => false
  | String d rest => Ascii.eqb c d || has_char c rest
  end.

(** Whether [os.environ[name] = value] goes through for two strings: the
    name must hold no [=], and neither of them a null character. *)
Definition environ_accepts (name value : string) : bool :=
  negb (has_char "="%char name)
  && negb (has_char "000"%char name)
  && negb (has_char "000"%char value).

(** The request of the form-based login.  A POST carries the payload as
    its JSON body; any other method sends a GET with the payload as query
    parameters, recorded as [Form]. *)
Definition form_login_request (method url : string) (payload : obj)
    (bearer : option json) : request :=
  if String.eqb (Str.upper method) "POST"
  then Request "POST" (JStr url) (JsonBody (JObj payload)) bearer
  else Request "GET" (JStr url) (Form payload) bearer.

(** What [_get_auth_token] does with a token it found: keep it, export it,
    and put it in the session header.  The assignment to [os.environ]
    raises for a token that is no string or that the environment does not
    accept; this is the last statement of the method's [try] block, and
    its [except] clause only logs: the method ends there, with the token
    kept but neither exported nor put in the header. *)
Definition keep_login_token (E : env) (found : json) : MS session unit :=
  fun x =>
    let s := object x in
    let kept :=
      State (Some found) (session_bearer s) (token_store s) (auth_failed s)
        (auth_error s) (sent s) (clock_reads s) (token_file s) in
    match found with
    | JStr t =>
        if environ_accepts (token_env_var E) t
        then
          (Returned tt,
           Session
             (State (Some found) (Some found) (token_store s) (auth_failed s)
                (auth_error s) (sent s) (clock_reads s) (token_file s))
             (basic_auth x)
             ((token_env_var E, t) :: exported x)
             (payload_in_config x))
        else
          (Returned tt,
           Session kept (basic_auth x) (exported x) (payload_in_config x))
    | _ =>
        (Returned tt,
         Session kept (basic_auth x) (exported x) (payload_in_config x))
    end.

(** The payload of the login: the default one when [auth_payload] is
    absent or empty, else the configured one with its placeholders
    replaced, in the configuration too. *)
Definition login_payload (user pass : string) : MS session obj :=
  fun x =>
    let configured :=
      match payload_in_config x with
      | Some p => p
      | None => JObj []
      end in
    if negb (truthy configured)
    then (Returned [("username", JStr user); ("password", JStr pass)], x)
    else
      match configured with
      | JObj members =>
          let filled := fill_placeholders user pass members in
          (Returned filled,
           Session (object x) (basic_auth x) (exported x) (Some (JObj filled)))
      | _ => (Raised AttributeError, x)
      end.

(** [_get_auth_token]: the form-based login. *)
Definition _get_auth_token (E : env) (C : login_config) : MS session unit :=
  try_except
    (let api_config := api (device_config E) in
     auth_endpoint <- required "auth_endpoint" (auth_endpoint api_config) ;;
     let auth_method := with_default "POST" (auth_method C) in
     username <- required "username" (username api_config) ;;
     password <- required "password" (password api_config) ;;
     let password := resolve_password E password in
     payload <- login_payload username password ;;
     let url := Str.join_url (base_url api_config) auth_endpoint in
     x <- get_state ;;
     response <- on_state
       (send E (form_login_request auth_method url payload
                  (session_bearer (object x)))) ;;
     on_state (raise_for_status response) ;;;
     data <- on_state (response_json response) ;;
     let token_path := with_default "token" (token_path C) in
     let found := _extract_nested_value data token_path in
     if truthy found then keep_login_token E found else ret tt)
    (fun _ => ret tt).

(** The exceptions that leave [_setup_auth], and their text [str(e)]. *)
Inductive setup_exn : Type :=
| MissingKey (key : string)
| ValueError (message : string).

Definition str_of (e : setup_exn) : string :=
  match e with
  | MissingKey key => "'" ++ key ++ "'"
  | ValueError message => message
  end.

(** The password of basic authentication and the token of bearer
    authentication: a [${VAR}] reference must name a variable that is set
    and not empty. *)
Definition resolve_required (E : env) (value : string) : setup_exn + string :=
  if Str.startswith "${" value && Str.endswith "}" value
  then
    let env_var := Str.slice_2_m1 value in
    match environ E env_var with
    | Some v =>
        if String.eqb v ""
        then inl (ValueError
                    ("Environment variable " ++ env_var ++ " not set or empty"))
        else inr v
    | None =>
        inl (ValueError
               ("Environment variable " ++ env_var ++ " not set or empty"))
    end
  else inr value.

(** The [except] clauses of [_setup_auth]: mark the failure, record the
    prefixed text, raise again. *)
Definition setup_failed (prefix : string) (e : setup_exn) (x : session)
    : option setup_exn * session :=
  let s := object x in
  (Some e,
   Session
     (State (auth_token s) (session_bearer s) (token_store s) true
        (Some (prefix ++ str_of e)%string) (sent s) (clock_reads s)
        (token_file s))
     (basic_auth x) (exported x) (payload_in_config x)).

(** [_setup_auth].  The result says whether an exception left the method.
    [depth] is the number of activations the interpreter admits beyond the
    one of the token method called from here. *)
Definition _setup_auth (E : env) (C : login_config) (depth : nat) (x : session)
    : option setup_exn * session :=
  let api_config := api (device_config E) in
  let s := object x in
  if String.eqb (self_auth_type E) "basic" then
    match username api_config with
    | None => setup_failed "Basic auth setup failed: " (MissingKey "username") x
    | Some user =>
        match password api_config with
        | None =>
            setup_failed "Basic auth setup failed: " (MissingKey "password") x
        | Some pass =>
            match resolve_required E pass with
            | inl e => setup_failed "Basic auth setup failed: " e x
            | inr pass' =>
                (None,
                 Session s (Some (user, pass')) (exported x)
                   (payload_in_config x))
            end
        end
    end
  else if String.eqb (self_auth_type E) "bearer" then
    match token C with
    | None => setup_failed "Bearer token setup failed: " (MissingKey "token") x
    | Some t =>
        match resolve_required E t with
        | inl e => setup_failed "Bearer token setup failed: " e x
        | inr t' =>
            (None,
             Session
               (State (auth_token s) (Some (JStr t')) (token_store s)
                  (auth_failed s) (auth_error s) (sent s) (clock_reads s)
                  (token_file s))
               (basic_auth x) (exported x) (payload_in_config x))
        end
    end
  else if String.eqb (self_auth_type E) "token_from_auth" then
    match auth_endpoint api_config with
    | None =>
        setup_failed "Token auth setup failed: "
          (ValueError "Missing auth_endpoint configuration") x
    | Some _ =>
        if match auth_type_extension api_config with
           | Some extension => String.eqb extension "openid_connect"
           | None => false
           end
        then (None, snd (on_state (_get_openid_token E (S depth)) x))
        else (None, snd (_get_auth_token E C x))
    end
  else (None, x).

(** [ApiDiscovery(device_config)]: the new object in the world [w], after
    [__init__] has run [_setup_auth] and caught what it raised. *)
Definition __init__ (E : env) (C : login_config) (depth : nat) (w : state)
    : session :=
  let x0 := Session (new_session w) None [] (auth_payload C) in
  match _setup_auth E C depth x0 with
  | (None, x) => x
  | (Some e, x) =>
      let s := object x in
      Session
        (State (auth_token s) (session_bearer s) (token_store s) true
           (Some (str_of e)) (sent s) (clock_reads s) (token_file s))
        (basic_auth x) (exported x) (payload_in_config x)
  end.

(** A device with basic authentication whose password refers to a
    variable that is not set. *)
Definition basic_api : api_config :=
  ApiConfig "http://device/" (Some "basic") (Some "admin")
    (Some "${DEVICE_PW}") None None None None None
    (Some [EndpointConfig "/status" "GET"]).

Definition basic_env : env :=
  Env (Config "device" basic_api) sample_network
    (ticking 1000) (fun _ => None) true.

Definition no_login_config : login_config := LoginConfig None None None None.

(** The sample device configured for token authentication without an
    auth endpoint. *)
Definition endpointless_api : api_config :=
  ApiConfig "http://device/" (Some "token_from_auth") (Some "admin")
    (Some "secret") None None None None None
    (Some [EndpointConfig "/status" "GET"]).

Definition endpointless_env : env :=
  Env (Config "device" endpointless_api) sample_network
    (ticking 1000) (fun _ => None) true.

(** The device with the form-based login, which [sample_network] does not
    answer. *)
Definition form_api : api_config :=
  ApiConfig "http://device/" (Some "token_from_auth") (Some "admin")
    (Some "secret") (Some "/login") None None None None
    (Some [EndpointConfig "/login" "POST"; EndpointConfig "/status" "GET"]).

Definition form_env : env :=
  Env (Config "device" form_api) sample_network
    (ticking 1000) (fun _ => None) true.

(** A device that answers the login with a JSON object holding [found] as
    its token. *)
Definition login_network (found : json) (h : list request) (r : request)
    : http_result :=
  match rq_url r with
  | JStr url =>
      if String.eqb url "http://device/login"
      then Answered (Response 200 (Some (JObj [("token", found)]))
                       (Some "application/json"))
      else sample_network h r
  | _ => sample_network h r
  end.

Definition login_env (found : json) : env :=
  Env (Config "device" form_api) (login_network found)
    (ticking 1000) (fun _ => None) true.

(** A new object of the form-login device, before [_setup_auth], without
    and with a configured payload. *)
Definition fresh_session : session :=
  Session (new_session sample_state) None [] None.

Definition templated_session : session :=
  Session (new_session sample_state) None []
    (Some (JObj [("user", JStr "{{username}}");
                 ("pass", JStr "{{password}}");
                 ("realm", JStr "local")])).

(** ** The analyzer and the depth check on arrays *)

(** Two values the depth check cannot tell apart. *)
Definition same_depth (v w : json) : Prop :=
  forall max_depth current_depth,
    check_depth max_depth v current_depth =
    check_depth max_depth w current_depth.

(** ** Generated Telegraf configuration: [TelegrafConfigGenerator] *)

Definition newline : ascii := "010"%char.

(** [config.split("\n")] *)
Fixpoint split_lines (config : string) : list string :=
  match config with
  | EmptyString => [EmptyString]
  | String c rest =>
      if Ascii.eqb c newline then EmptyString :: split_lines rest
      else
        match split_lines rest with
        | first :: others => String c first :: others
        | [] => [String c EmptyString]
        end
  end.

(** ["\n".join(lines)] *)
Fixpoint join_lines (lines : list string) : string :=
  match lines with
  | [] => EmptyString
  | [line] => line
  | line :: rest => line ++ String newline (join_lines rest)
  end.

(** The lines that open a section the main configuration already has. *)
Definition opens_conflicting_section (line : string) : bool :=
  Str.startswith "[agent]" line
  || Str.startswith "[global_tags]" line
  || Str.startswith "[[outputs." line.

(** The loop of [remove_conflicting_sections] over the lines, with
    [skip_section] as it stands before the line. *)
Fixpoint kept_lines (skip_section : bool) (lines : list string) : list string :=
  match lines with
  | [] => []
  | line :: rest =>
      let skip :=
        if Str.startswith "[agent]" line || Str.startswith "[global_tags]" line
        then true
        else if Str.startswith "[[outputs." line then true
        else if skip_section && Str.startswith "[" line then false
        else skip_section in
      if negb skip then line :: kept_lines skip rest
      else kept_lines skip rest
  end.

(** [remove_conflicting_sections(config)] *)
Definition remove_conflicting_sections (config : string) : string :=
  join_lines (kept_lines false (split_lines config)).

(** A line of a configuration: it holds no line break. *)
Definition is_line (line : string) : Prop := has_char newline line = false.

(** ** Dashboard groups: [GrafanaDashboardGenerator._group_metrics] *)

(** [endpoint.get("metrics", [])] *)
Definition endpoint_metrics (d : endpoint) : list metric :=
  match d with
  | SampledOk _ _ metrics _ _ _ => metrics
  | _ => []
  end.

(** The group of a metric: the first part of its path in title case when
    the path has a dot, and [General] otherwise.  [title] stands for
    Python's [str.title], whose case mapping of the whole of Unicode is
    not modelled; it is a parameter of what follows. *)
Definition group_name (title : string -> string) (m : metric) : string :=
  match split_dots (metric_path m) with
  | first :: _ :: _ => title first
  | _ => "General"
  end.

(** [metric_groups[group_name].append(metric)], with a new empty list for
    a group that is not there yet.  The dictionary keeps its keys in the
    order they were added. *)
Fixpoint add_to_group (group : string) (m : metric)
    (groups : list (string * list metric)) : list (string * list metric) :=
  match groups with
  | [] => [(group, [m])]
  | (key, members) :: rest =>
      if String.eqb key group then (key, members ++ [m]) :: rest
      else (key, members) :: add_to_group group m rest
  end.

(** [metric_groups.get(group)] *)
Fixpoint group_members (group : string) (groups : list (string * list metric))
    : option (list metric) :=
  match groups with
  | [] => None
  | (key, members) :: rest =>
      if String.eqb key group then Some members else group_members group rest
  end.

(** All the metrics of a structure, endpoint after endpoint. *)
Definition all_metrics (a : api_structure) : list metric :=
  flat_map endpoint_metrics (structure_endpoints a).

(** [_group_metrics()] on [self.api_structure]. *)
Definition _group_metrics (title : string -> string) (a : api_structure)
    : list (string * list metric) :=
  fold_left
    (fun groups endpoint =>
       fold_left (fun groups m => add_to_group (group_name title m) m groups)
         (endpoint_metrics endpoint) groups)
    (structure_endpoints a) [].

(** * Properties *)

(** ** Structural analyzer *)

Section Analyzer.

(** The loop over the members appends, member by member, what
    [member_analysis] gives. *)
Lemma analyze_object (members : obj) (prefix : string) :
  _analyze_json_structure (JObj members) prefix =
  (flat_map (member_metrics prefix) members,
   flat_map (member_tags prefix) members).
Proof.
  transitivity
    (fold_left
       (fun (acc : analysis) item =>
          (fst acc ++ member_metrics prefix item,
           snd acc ++ member_tags prefix item))
       members (@nil metric, @nil tag)).
  - cbn [_analyze_json_structure].
    generalize (@nil metric, @nil tag).
    induction members as [|[key value] rest IH]; intros [ms ts]; cbn [fold_left].
    + reflexivity.
    + rewrite <- IH. f_equal.
      unfold member_metrics, member_tags, member_analysis. cbn [fst snd].
      destruct value; cbn [fst snd];
        rewrite ?app_nil_r; try reflexivity.
      * destruct (String.length s <? 80)%nat; cbn [fst snd];
          rewrite ?app_nil_r; reflexivity.
      * destruct (_analyze_json_structure (JArr items) (member_path prefix key));
          reflexivity.
      * destruct (_analyze_json_structure (JObj members) (member_path prefix key));
          reflexivity.
  - assert (G : forall acc : analysis,
               fold_left
                 (fun (acc : analysis) item =>
                    (fst acc ++ member_metrics prefix item,
                     snd acc ++ member_tags prefix item))
                 members acc =
               (fst acc ++ flat_map (member_metrics prefix) members,
                snd acc ++ flat_map (member_tags prefix) members)).
    { induction members as [|item rest IH]; intros [ms ts]; cbn [fold_left flat_map fst snd].
      - now rewrite !app_nil_r.
      - rewrite IH. cbn [fst snd]. now rewrite <- !app_assoc. }
    apply G.
Qed.

Lemma analyze_array (first : json) (others : list json) (prefix : string) :
  _analyze_json_structure (JArr (first :: others)) prefix =
  _analyze_json_structure first (prefix ++ "[*]").
Proof.
  cbn [_analyze_json_structure].
  destruct (_analyze_json_structure first (prefix ++ "[*]")); reflexivity.
Qed.

Lemma analyze_object_app (before after : obj) (prefix : string) :
  _analyze_json_structure (JObj (before ++ after)) prefix =
  (fst (_analyze_json_structure (JObj before) prefix)
     ++ fst (_analyze_json_structure (JObj after) prefix),
   snd (_analyze_json_structure (JObj before) prefix)
     ++ snd (_analyze_json_structure (JObj after) prefix)).
Proof.
  rewrite !analyze_object. cbn [fst snd]. now rewrite !flat_map_app.
Qed.

Lemma analyze_object_member (before after : obj) (item : string * json)
    (prefix : string) :
  _analyze_json_structure (JObj (before ++ item :: after)) prefix =
  (fst (_analyze_json_structure (JObj before) prefix)
     ++ member_metrics prefix item
     ++ fst (_analyze_json_structure (JObj after) prefix),
   snd (_analyze_json_structure (JObj before) prefix)
     ++ member_tags prefix item
     ++ snd (_analyze_json_structure (JObj after) prefix)).
Proof.
  rewrite !analyze_object. cbn [fst snd].
  now rewrite !flat_map_app.
Qed.

Lemma alike_plug (v w : json) :
  alike v w -> forall c, alike (plug c v) (plug c w).
Proof.
  intros Hvw c. induction c as [|before key inner IH after|before inner IH after].
  - exact Hvw.
  - assert (A : forall prefix,
               _analyze_json_structure (plug (InMember before key inner after) v) prefix =
               _analyze_json_structure (plug (InMember before key inner after) w) prefix).
    { intros prefix. cbn [plug]. rewrite !analyze_object_member.
      unfold member_metrics, member_tags.
      now rewrite (proj2 IH prefix key). }
    split; [exact A|].
    intros prefix k. cbn [plug member_analysis]. apply (A (member_path prefix k)).
  - assert (A : forall prefix,
               _analyze_json_structure (plug (InElement before inner after) v) prefix =
               _analyze_json_structure (plug (InElement before inner after) w) prefix).
    { intros prefix. cbn [plug].
      destruct before as [|b0 before']; cbn [app]; rewrite !analyze_array.
      - apply (proj1 IH).
      - reflexivity. }
    split; [exact A|].
    intros prefix k. cbn [plug member_analysis].
    apply (A (member_path prefix k)).
Qed.

Lemma ignored_leaf_alike_empty (v : json) :
  ignored_leaf v = true -> alike v (JObj []).
Proof.
  intros Hv. destruct v; try discriminate Hv; split; intros; try reflexivity.
  cbn [member_analysis]. unfold ignored_leaf in Hv.
  apply Nat.leb_le in Hv.
  destruct (Nat.ltb_spec (String.length s) 80); [lia|reflexivity].
Qed.

Lemma ignored_member_adds_nothing (prefix key : string) (v : json) :
  ignored_leaf v = true -> member_analysis prefix (key, v) = ([], []).
Proof.
  intros Hv. rewrite (proj2 (ignored_leaf_alike_empty v Hv)). reflexivity.
Qed.

End Analyzer.

(** The analyzer on the documents of the specification's examples. *)
Example short_string_is_a_tag :
  _analyze_json_structure (JObj [("status", JStr "ok")]) "" =
  ([], [Tag "status" "status"]).
Proof. reflexivity. Qed.

Example first_array_element_is_sampled :
  _analyze_json_structure
    (JObj [("items", JArr [JObj [("n", JInt 1)]; JObj [("n", JInt 2)]])]) "" =
  ([Metric "items[*].n" "items[*]_n" "int"], []).
Proof. reflexivity. Qed.

Example scalar_array_elements_add_nothing :
  _analyze_json_structure (JObj [("ports", JArr [JInt 80; JInt 443])]) "" =
  ([], []).
Proof. reflexivity. Qed.

(** C2, as stated, fails on a boolean: the member ["up": true] of an
    object is listed as ignored, yet the analyzer emits a Metric of type
    int for it, because [isinstance(True, (int, float))] holds. *)
Lemma C2_boolean_leaf_is_a_metric :
  listed_as_ignored (JBool true) = true
  /\ _analyze_json_structure (JObj [("up", JBool true)]) "" =
     ([Metric "up" "up" "int"], []).
Proof. split; reflexivity. Qed.

(** C2, amended: a leaf that is null or a string of 80 characters or more
    adds neither a Metric nor a Tag, wherever it sits in the document: the
    analyzer's output is the one it gives with an empty object at that
    place, and when the leaf is the value of a member, the one it gives
    with the member removed.  A boolean that is the value of a member adds
    one Metric of type int, at its place among the metrics, and no Tag. *)
Theorem C2_null_and_long_strings_add_nothing :
  (forall (c : context) (prefix : string) (v : json),
      ignored_leaf v = true ->
      _analyze_json_structure (plug c v) prefix =
      _analyze_json_structure (plug c (JObj [])) prefix
      /\ forall before key after,
          _analyze_json_structure
            (plug c (JObj (before ++ (key, v) :: after))) prefix =
          _analyze_json_structure (plug c (JObj (before ++ after))) prefix)
  /\ (forall (prefix : string) before key (b : bool) after,
        let path := member_path prefix key in
        _analyze_json_structure (JObj (before ++ (key, JBool b) :: after)) prefix =
        (fst (_analyze_json_structure (JObj before) prefix)
           ++ [Metric path (Str.replace_dots path) "int"]
           ++ fst (_analyze_json_structure (JObj after) prefix),
         snd (_analyze_json_structure (JObj before) prefix)
           ++ snd (_analyze_json_structure (JObj after) prefix))).
Proof.
  split.
  - intros c prefix v Hv. split.
    + apply (alike_plug v (JObj []) (ignored_leaf_alike_empty v Hv) c).
    + intros before key after.
      apply alike_plug.
      assert (A : forall p,
                 _analyze_json_structure (JObj (before ++ (key, v) :: after)) p =
                 _analyze_json_structure (JObj (before ++ after)) p).
      { intros p. rewrite analyze_object_member, analyze_object_app.
        unfold member_metrics, member_tags.
        now rewrite (ignored_member_adds_nothing p key v Hv). }
      split; [exact A|].
      intros p k. cbn [member_analysis]. apply A.
  - intros prefix before key b after path.
    rewrite analyze_object_member. reflexivity.
Qed.

Lemma C2_null_and_long_strings_add_nothing_witness :
  ignored_leaf JNull = true
  /\ _analyze_json_structure
       (plug (InMember [("load", JFloat 0.5%float)] "links"
                (InElement [] Here [JInt 7]) [])
          JNull) "" =
     _analyze_json_structure
       (plug (InMember [("load", JFloat 0.5%float)] "links"
                (InElement [] Here [JInt 7]) [])
          (JObj [])) "".
Proof.
  split.
  - reflexivity.
  - apply (proj1 C2_null_and_long_strings_add_nothing
             (InMember [("load", JFloat 0.5%float)] "links"
                (InElement [] Here [JInt 7]) [])
             "" JNull eq_refl).
Defined.

(** C8, as stated, fails on a path through an array: the name keeps the
    [[*]] suffix, only the dot is turned into an underscore. *)
Lemma C8_bracket_suffix_is_kept :
  _analyze_json_structure (JObj [("items", JArr [JObj [("n", JInt 1)]])]) "" =
  ([Metric "items[*].n" "items[*]_n" "int"], [])
  /\ Str.contains "[*]" "items[*]_n" = true
  /\ "items[*]_n" <> flatten_separators "items[*].n".
Proof. repeat split; try reflexivity. discriminate. Qed.

Lemma replace_dots_app (a b : string) :
  Str.replace_dots (a ++ b) = (Str.replace_dots a ++ Str.replace_dots b)%string.
Proof.
  induction a as [|c a IH]; cbn; [reflexivity|now rewrite IH].
Qed.

Lemma names_replace_dots (data : json) :
  forall prefix,
    Forall (fun m => metric_name m = Str.replace_dots (metric_path m))
      (fst (_analyze_json_structure data prefix))
    /\ Forall (fun t => tag_name t = Str.replace_dots (tag_path t))
         (snd (_analyze_json_structure data prefix)).
Proof.
  induction data as [| | | | |items IH|members IH] using json_nested_ind;
    intros prefix; try (split; constructor).
  - destruct items as [|first others]; [split; constructor|].
    rewrite analyze_array. inversion IH; subst. auto.
  - rewrite analyze_object. cbn [fst snd].
    split; apply Forall_flat_map; rewrite Forall_forall in IH |- *;
      intros [key value] Hin; specialize (IH _ Hin); cbn [snd] in IH;
      unfold member_metrics, member_tags, member_analysis;
      destruct value; cbn [fst snd]; auto;
      try apply (IH (member_path prefix key));
      destruct (String.length s <? 80)%nat; cbn [fst snd]; auto.
Qed.

(** C8, amended: the name of every Metric and of every Tag is its path
    with each dot turned into an underscore, and nothing else changed: the
    [[*]] suffix of array sampling stays as it is.  For
    [{"cpu": {"load": 0.5}}] the single Metric has path [cpu.load], name
    [cpu_load] and type float. *)
Theorem C8_name_is_path_with_dots_replaced :
  (forall (data : json) (prefix : string),
      Forall (fun m => metric_name m = Str.replace_dots (metric_path m))
        (fst (_analyze_json_structure data prefix))
      /\ Forall (fun t => tag_name t = Str.replace_dots (tag_path t))
           (snd (_analyze_json_structure data prefix)))
  /\ (forall path,
        Str.replace_dots (path ++ "[*]") = (Str.replace_dots path ++ "[*]")%string)
  /\ _analyze_json_structure
       (JObj [("cpu", JObj [("load", JFloat 0.5%float)])]) "" =
     ([Metric "cpu.load" "cpu_load" "float"], []).
Proof.
  split; [exact names_replace_dots|].
  split; [|reflexivity].
  intros path. apply replace_dots_app.
Qed.

(** ** Deep-nesting check *)

Section Depth.

Lemma deepest_child {A} (f : A -> nat) (children : list A) (k : nat) :
  k <= fold_right (fun x d => Nat.max (S (f x)) d) 0 children <->
  k = 0 \/ exists x, In x children /\ k <= S (f x).
Proof.
  induction children as [|x rest IH]; cbn [fold_right].
  - split; [lia|]. intros [H|[x [[] _]]]; lia.
  - rewrite Nat.max_le_iff, IH. split.
    + intros [H|[H|[y [Hy H]]]]; [right|left|right].
      * exists x. split; [now left|exact H].
      * exact H.
      * exists y. split; [now right|exact H].
    + intros [H|[y [[Hy|Hy] H]]].
      * right. now left.
      * subst y. now left.
      * right. right. now exists y.
Qed.

(** [check_depth] answers whether the branches it follows reach
    [max_depth] when the walk is already at [current_depth]. *)
Lemma check_depth_reaches (max_depth : nat) (obj : json) :
  forall current_depth,
    check_depth max_depth obj current_depth = true <->
    max_depth <= current_depth + depth_sampled obj.
Proof.
  induction obj as [| | | | |items IH|members IH] using json_nested_ind;
    intros d; cbn [check_depth depth_sampled];
    destruct (Nat.leb_spec max_depth d) as [Hle|Hlt];
    try (split; [intros; lia|reflexivity]);
    try (split; [discriminate|lia]).
  - destruct items as [|first others]; [split; [discriminate|lia]|].
    inversion IH as [|? ? Hfirst _]; subst.
    rewrite (Hfirst (S d)). lia.
  - rewrite existsb_exists. split.
    + intros [item [Hin Hitem]].
      rewrite Forall_forall in IH. apply (IH item Hin) in Hitem.
      assert (S (depth_sampled (snd item)) <=
              fold_right
                (fun item d => Nat.max (S (depth_sampled (snd item))) d)
                0 members).
      { apply deepest_child. right. exists item. split; [exact Hin|lia]. }
      lia.
    + intros H.
      assert (D : max_depth - d <=
                  fold_right
                    (fun item d => Nat.max (S (depth_sampled (snd item))) d)
                    0 members) by lia.
      apply (deepest_child (fun item => depth_sampled (snd item))) in D.
      destruct D as [D|[item [Hin D]]]; [lia|].
      exists item. split; [exact Hin|].
      rewrite Forall_forall in IH. apply (IH item Hin). lia.
Qed.

Lemma is_deeply_nested_reaches (data : json) (max_depth : nat) :
  0 < max_depth ->
  (_is_deeply_nested data max_depth = true <->
   max_depth <= depth_sampled data).
Proof.
  intros Hpos.
  destruct data as [| | | | |items|members]; cbn [_is_deeply_nested];
    try (cbn [depth_sampled]; split; [discriminate|lia]).
  - destruct items as [|first others].
    + cbn [depth_sampled]. split; [discriminate|lia].
    + apply (check_depth_reaches max_depth (JArr (first :: others)) 0).
  - destruct members as [|item rest].
    + cbn [depth_sampled fold_right]. split; [discriminate|lia].
    + apply (check_depth_reaches max_depth (JObj (item :: rest)) 0).
Qed.

End Depth.

Example six_levels_are_deep :
  _is_deeply_nested
    (JObj [("a", JObj [("b", JObj [("c", JObj [("d", JObj [("e",
       JObj [("f", JInt 1)])])])])])])
    default_max_depth = true.
Proof. reflexivity. Qed.

Example three_levels_are_not_deep :
  _is_deeply_nested
    (JObj [("a", JObj [("b", JObj [("c", JInt 1)])])])
    default_max_depth = false.
Proof. reflexivity. Qed.

(** C5, as stated, fails on an array whose deep branch is not its first
    element: the second element nests six levels down to a number, the
    check looks at the first element only and answers false. *)
Lemma C5_later_array_elements_are_not_checked :
  let deep :=
    JObj [("a", JObj [("b", JObj [("c", JObj [("d", JObj [("e",
      JObj [("f", JInt 1)])])])])])] in
  5 <= depth_any_branch (JArr [JInt 1; deep])
  /\ _is_deeply_nested deep default_max_depth = true
  /\ _is_deeply_nested (JArr [JInt 1; deep]) default_max_depth = false.
Proof. cbv. repeat split; lia. Qed.

(** C5, amended: the check answers true exactly when a branch it follows
    reaches depth 5 or more, the root being at depth 0, a scalar or an
    empty container adding no level, a non-empty object being one level
    above its deepest member value, and a non-empty array one level above
    its first element: the elements after the first are never looked at.
    The Metrics and Tags of a sampled endpoint are those of the analyzer,
    whatever the check answers. *)
Theorem C5_deep_nesting_follows_first_elements :
  (forall data : json,
      _is_deeply_nested data default_max_depth = true <->
      5 <= depth_sampled data)
  /\ (forall (first : json) (others : list json),
        _is_deeply_nested (JArr (first :: others)) default_max_depth =
        _is_deeply_nested (JArr [first]) default_max_depth)
  /\ (forall (path method : string) (data : json),
        exists cfg,
          endpoint_config_of path method data =
          SampledOk path method
            (fst (_analyze_json_structure data ""))
            (snd (_analyze_json_structure data ""))
            (_is_deeply_nested data default_max_depth) cfg).
Proof.
  split; [|split].
  - intros data. apply is_deeply_nested_reaches. unfold default_max_depth. lia.
  - intros first others. reflexivity.
  - intros path method data. unfold endpoint_config_of.
    destruct (_analyze_json_structure data "") as [metrics tags].
    eexists. reflexivity.
Qed.

(** ** Sampling-driven discovery *)

(** Running the statements of one iteration down to the case at hand. *)
Ltac run_py :=
  cbv beta iota zeta delta
    [sample_endpoint try_except try_except_only bind assign_response
     read_response on_object assign modify get_state send
     raise_for_status response_json count_success count_failure
     append_endpoint keep_sample ret raise fst snd last_response
     is_request_exception is_json_decode_error
     sampled sample_bodies successful failed
     auth_token session_bearer token_store auth_failed auth_error sent
     clock_reads token_file].

Ltac run_iteration :=
  run_py;
  repeat (match goal with
          | |- context [if ?b then _ else _] => destruct b eqn:?
          | |- context [match transport ?E ?h ?r with _ => _ end] =>
              destruct (transport E h r) eqn:?
          | |- context [match ?x with Some _ => _ | None => _ end] =>
              destruct x eqn:?
          end; run_py).

Section Sampling.

Variable E : env.

Lemma endpoint_config_of_key (path method : string) (data : json) :
  endpoint_key (endpoint_config_of path method data) = (path, method).
Proof.
  unfold endpoint_config_of.
  destruct (_analyze_json_structure data ""). reflexivity.
Qed.

(** An iteration always completes, whatever the network does. *)
Lemma sample_endpoint_completes (e : endpoint_config) (v : sampling) (s : state) :
  exists v' s',
    sample_endpoint E e (v, s) = (Returned tt, (v', s'))
    /\ iteration E e v s v' s'.
Proof.
  destruct v as [found bodies ok ko last], s as [tok bearer store af ae log reads file].
  unfold iteration, request_of.
  destruct (is_auth_endpoint E (ep_path e)) eqn:Hskip.
  - exists (Sampling found bodies ok ko last),
           (State tok bearer store af ae log reads file).
    unfold sample_endpoint. rewrite Hskip. repeat split.
  - unfold sample_endpoint. rewrite Hskip.
    run_iteration;
      (do 2 eexists; split; [reflexivity|]; run_py;
       repeat split; try lia;
       try (eexists; split; [reflexivity|];
            try apply endpoint_config_of_key; reflexivity);
       try (now left); try (now right)).
Qed.

(** The loop: one result per endpoint that is not skipped, in order; at
    most one count per such endpoint; only such endpoints are
    requested. *)
Lemma sample_all_completes (todo : list endpoint_config) :
  forall (v : sampling) (s : state),
  exists v' s',
    sample_all E todo (v, s) = (Returned tt, (v', s'))
    /\ session_bearer s' = session_bearer s
    /\ map endpoint_key (sampled v') =
       map endpoint_key (sampled v) ++ map config_key (not_skipped E todo)
    /\ successful v' + failed v' <=
       successful v + failed v + List.length (not_skipped E todo)
    /\ exists new,
         sent s' = sent s ++ new
         /\ Forall (fun r => exists e, In e (not_skipped E todo)
                                      /\ r = request_of E (session_bearer s) e)
              new.
Proof.
  induction todo as [|e rest IH]; intros v s.
  - exists v, s. cbn [sample_all not_skipped filter map List.length].
    rewrite app_nil_r. repeat split; try lia.
    exists []. now rewrite app_nil_r.
  - destruct (sample_endpoint_completes e v s) as (v1 & s1 & Hrun & Hb & Hit).
    destruct (IH v1 s1) as (v2 & s2 & Hrest & Hb2 & Hkeys & Hcount & new & Hsent & Hnew).
    exists v2, s2.
    cbn [sample_all]. unfold bind at 1. rewrite Hrun, Hrest.
    split; [reflexivity|]. split; [congruence|].
    unfold not_skipped in *. cbn [filter].
    destruct (is_auth_endpoint E (ep_path e)); cbn [negb].
    + destruct Hit as [-> ->].
      repeat split; try assumption.
      exists new. split; [assumption|]. exact Hnew.
    + destruct Hit as ((d & Hd & Hkey) & Hok & Hko & Hsum & Hlog).
      split; [|split].
      * rewrite Hkeys, Hd, map_app. cbn [map]. rewrite Hkey.
        now rewrite <- app_assoc.
      * cbn [List.length]. lia.
      * assert (Hnew' :
                 Forall (fun r => exists e0,
                             In e0 (e :: filter (fun e => negb (is_auth_endpoint E (ep_path e))) rest)
                             /\ r = request_of E (session_bearer s) e0) new).
        { eapply Forall_impl; [|exact Hnew].
          intros r (e0 & Hin & ->). exists e0. split; [now right|congruence]. }
        destruct Hlog as [Hlog|Hlog]; rewrite Hlog in Hsent.
        -- exists new. split; assumption.
        -- exists (request_of E (session_bearer s) e :: new). split.
           ++ rewrite Hsent, <- app_assoc. reflexivity.
           ++ constructor; [|exact Hnew'].
              exists e. split; [now left|reflexivity].
Qed.

(** [_discover_from_samples] always returns a structure. *)
Lemma discover_from_samples_completes (s : state) :
  exists found bodies ok ko s',
    _discover_from_samples E s =
    (Returned
       (SampleStructure found bodies
          (Summary (List.length (configured_endpoints E)) ok ko)),
     s')
    /\ session_bearer s' = session_bearer s
    /\ map endpoint_key found =
       map config_key (not_skipped E (configured_endpoints E))
    /\ ok + ko <= List.length (not_skipped E (configured_endpoints E))
    /\ exists new,
         sent s' = sent s ++ new
         /\ Forall (fun r => exists e,
                       In e (not_skipped E (configured_endpoints E))
                       /\ r = request_of E (session_bearer s) e)
              new.
Proof.
  destruct (sample_all_completes (configured_endpoints E)
              (Sampling [] [] 0 0 None) s)
    as (v & s' & Hrun & Hb & Hkeys & Hcount & Hsent).
  exists (sampled v), (sample_bodies v), (successful v), (failed v), s'.
  unfold _discover_from_samples. rewrite Hrun.
  repeat split; try assumption.
Qed.

End Sampling.

(** C3, as stated, fails when the endpoint list names the auth endpoint of
    a [token_from_auth] device: of the three configured endpoints, two have
    a descriptor, the login endpoint has none. *)
Lemma C3_auth_endpoint_has_no_descriptor :
  map config_key (configured_endpoints sample_env) =
  [("/login", "POST"); ("/status", "GET"); ("/banner", "GET")]
  /\ exists st s',
      _discover_from_samples sample_env sample_state = (Returned st, s')
      /\ map endpoint_key (structure_endpoints st) =
         [("/status", "GET"); ("/banner", "GET")].
Proof.
  split; [reflexivity|].
  do 2 eexists. split; [vm_compute; reflexivity|reflexivity].
Qed.

(** C3, amended: sampling-driven discovery always returns, and its
    endpoint list holds exactly one descriptor, with the same path and
    method, for each endpoint of the input list that is not skipped as the
    auth endpoint, in the order of the input list. *)
Theorem C3_one_descriptor_per_sampled_endpoint :
  forall (E : env) (s : state),
  exists st s',
    _discover_from_samples E s = (Returned st, s')
    /\ map endpoint_key (structure_endpoints st) =
       map config_key
         (filter (fun e => negb (is_auth_endpoint E (ep_path e)))
            (configured_endpoints E)).
Proof.
  intros E s.
  destruct (discover_from_samples_completes E s)
    as (found & bodies & ok & ko & s' & Hrun & _ & Hkeys & _).
  do 2 eexists. split; [exact Hrun|exact Hkeys].
Qed.

(** C7: on a [token_from_auth] device, a configured endpoint whose path
    equals the configured [auth_endpoint] has no descriptor in the result
    of sampling-driven discovery, and every request sent while sampling
    is the request of a configured endpoint with another path. *)
Theorem C7_auth_endpoint_is_neither_listed_nor_requested :
  forall (E : env) (s : state) (a : string) (e : endpoint_config),
    self_auth_type E = "token_from_auth" ->
    auth_endpoint (api (device_config E)) = Some a ->
    In e (configured_endpoints E) ->
    ep_path e = a ->
    exists st s' new,
      _discover_from_samples E s = (Returned st, s')
      /\ ~ In (ep_path e) (map endpoint_path (structure_endpoints st))
      /\ sent s' = sent s ++ new
      /\ Forall (fun r => exists e',
                     In e' (configured_endpoints E)
                     /\ ep_path e' <> ep_path e
                     /\ r = request_of E (session_bearer s) e')
           new.
Proof.
  intros E s a e Htype Hauth _ Hpath.
  assert (Hskip : is_auth_endpoint E a = true).
  { unfold is_auth_endpoint. rewrite Htype, Hauth, !String.eqb_refl. reflexivity. }
  assert (Hkept : forall e', In e' (not_skipped E (configured_endpoints E)) ->
                             In e' (configured_endpoints E) /\ ep_path e' <> a).
  { intros e' Hin. apply filter_In in Hin. destruct Hin as [Hin Hno].
    split; [exact Hin|]. intros Heq. rewrite Heq, Hskip in Hno. discriminate Hno. }
  destruct (discover_from_samples_completes E s)
    as (found & bodies & ok & ko & s' & Hrun & _ & Hkeys & _ & new & Hsent & Hnew).
  exists (SampleStructure found bodies
            (Summary (List.length (configured_endpoints E)) ok ko)), s', new.
  rewrite Hpath.
  split; [exact Hrun|]. split; [|split; [exact Hsent|]].
  - cbn [structure_endpoints]. intros Hin.
    assert (Hfst : In a (map fst (map endpoint_key found))).
    { rewrite map_map. exact Hin. }
    rewrite Hkeys, map_map in Hfst. apply in_map_iff in Hfst.
    destruct Hfst as (e' & He' & Hin').
    apply Hkept in Hin'. now destruct Hin'.
  - eapply Forall_impl; [|exact Hnew].
    intros r (e' & Hin' & ->). exists e'.
    destruct (Hkept e' Hin'). repeat split; assumption.
Qed.

Lemma C7_auth_endpoint_is_neither_listed_nor_requested_witness :
  exists st s' new,
    _discover_from_samples sample_env sample_state = (Returned st, s')
    /\ ~ In "/login" (map endpoint_path (structure_endpoints st))
    /\ sent s' = sent sample_state ++ new
    /\ Forall (fun r => exists e',
                   In e' (configured_endpoints sample_env)
                   /\ ep_path e' <> "/login"
                   /\ r = request_of sample_env (session_bearer sample_state) e')
         new.
Proof.
  apply (C7_auth_endpoint_is_neither_listed_nor_requested
           sample_env sample_state "/login" (EndpointConfig "/login" "POST")).
  - reflexivity.
  - reflexivity.
  - simpl. left. reflexivity.
  - reflexivity.
Defined.

(** C10: an iteration of the sampling loop whose response is not JSON
    appends a non-json descriptor and leaves both counters as they were;
    the summary's [total_endpoints] is the length of the configured
    endpoint list, skipped endpoints included, and the two counters add up
    to at most that, and to strictly less on the sample device, which has
    one skipped endpoint and one plain-text endpoint. *)
Theorem C10_counters_can_fall_short_of_total :
  (forall (E : env) (e : endpoint_config) (v : sampling) (s : state)
          (r : response),
      is_auth_endpoint E (ep_path e) = false ->
      ep_method e = "GET" \/ ep_method e = "POST" ->
      transport E (sent s) (request_of E (session_bearer s) e) = Answered r ->
      ((400 <=? status_code r)%Z && (status_code r <? 600)%Z) = false ->
      json_body r = None ->
      exists v' s',
        sample_endpoint E e (v, s) = (Returned tt, (v', s'))
        /\ successful v' = successful v
        /\ failed v' = failed v
        /\ sampled v' =
           sampled v ++
           [SampledNonJson (ep_path e) (ep_method e)
              (with_default "unknown" (content_type r))])
  /\ (forall (E : env) (s : state),
        exists found bodies counts s',
          _discover_from_samples E s =
          (Returned (SampleStructure found bodies counts), s')
          /\ total_endpoints counts = List.length (configured_endpoints E)
          /\ successful_endpoints counts + failed_endpoints counts <=
             total_endpoints counts)
  /\ (exists found bodies s',
        _discover_from_samples sample_env sample_state =
        (Returned (SampleStructure found bodies (Summary 3 1 0)), s')).
Proof.
  split; [|split].
  - intros E e v s r Hskip Hmethod Hreply Hstatus Hbody.
    destruct v as [found bodies ok ko last],
             s as [tok bearer store af ae log reads file].
    unfold request_of in Hreply. cbn [sent session_bearer] in Hreply.
    unfold sample_endpoint. rewrite Hskip.
    destruct Hmethod as [Hm|Hm]; rewrite Hm in *; run_py;
      cbn [String.eqb Ascii.eqb Bool.eqb]; run_py;
      rewrite Hreply; run_py; rewrite Hstatus; run_py;
      rewrite Hbody; run_py;
      do 2 eexists; repeat split.
  - intros E s.
    destruct (discover_from_samples_completes E s)
      as (found & bodies & ok & ko & s' & Hrun & _ & _ & Hcount & _).
    exists found, bodies,
      (Summary (List.length (configured_endpoints E)) ok ko), s'.
    split; [exact Hrun|]. split; [reflexivity|].
    cbn [successful_endpoints failed_endpoints total_endpoints].
    assert (List.length (not_skipped E (configured_endpoints E)) <=
            List.length (configured_endpoints E)) by apply filter_length_le.
    lia.
  - do 3 eexists. vm_compute. reflexivity.
Qed.

Lemma C10_counters_can_fall_short_of_total_witness :
  exists v' s',
    sample_endpoint sample_env (EndpointConfig "/banner" "GET")
      (Sampling [] [] 0 0 None, sample_state) = (Returned tt, (v', s'))
    /\ successful v' = 0
    /\ failed v' = 0
    /\ sampled v' = [SampledNonJson "/banner" "GET" "text/plain"].
Proof.
  apply (proj1 C10_counters_can_fall_short_of_total
           sample_env (EndpointConfig "/banner" "GET")
           (Sampling [] [] 0 0 None) sample_state
           (Response 200 None (Some "text/plain"))).
  - reflexivity.
  - left. reflexivity.
  - reflexivity.
  - reflexivity.
  - reflexivity.
Defined.

(** ** The entry point *)

(** C4: when authentication setup has failed, [discover] returns at once
    the structure with an empty endpoint list, the [auth_failed] marker and
    the recorded error, and leaves the object and the world as they were:
    no request is sent, neither for a specification nor for a sample. *)
Theorem C4_auth_failure_skips_discovery :
  forall (E : env) (s : state),
    auth_failed s = true ->
    discover E s = (Returned (AuthFailedStructure (auth_error s)), s)
    /\ structure_endpoints (AuthFailedStructure (auth_error s)) = []
    /\ sent (snd (discover E s)) = sent s.
Proof.
  intros E s Hfailed.
  assert (Hrun : discover E s = (Returned (AuthFailedStructure (auth_error s)), s)).
  { unfold discover, bind, get_state. rewrite Hfailed. reflexivity. }
  rewrite Hrun. repeat split.
Qed.

Lemma C4_auth_failure_skips_discovery_witness :
  discover sample_env
    (State None None [] true (Some "Token auth setup failed: 'username'")
       [] 0 Missing) =
  (Returned (AuthFailedStructure (Some "Token auth setup failed: 'username'")),
   State None None [] true (Some "Token auth setup failed: 'username'")
     [] 0 Missing).
Proof.
  apply (C4_auth_failure_skips_discovery sample_env
           (State None None [] true (Some "Token auth setup failed: 'username'")
              [] 0 Missing)).
  reflexivity.
Defined.

Section Fallback.

Variable E : env.







End Fallback.

Section Specification.



Lemma stateless_raise {A} (e : exn) : stateless (@raise state A e).
Proof. intros s. reflexivity. Qed.








End Specification.







(** C6, where the claim as worded fails: a specification that parses as
    an object without [paths] is not a failure.  The device answers every
    request the same way whatever was requested before, [discover]
    returns the empty endpoint list of the document, and the same device
    without the [swagger_url] key has the two descriptors of its sampled
    endpoints. *)
Theorem C6_document_without_paths_is_no_failure :
  history_independent bare_env
  /\ fst (discover bare_env sample_state) =
     Returned (SwaggerStructure [] (JObj []))
  /\ (exists found samples counts,
        fst (discover (without_swagger bare_env) sample_state) =
        Returned (SampleStructure found samples counts)
        /\ map endpoint_key found = [("/status", "GET"); ("/banner", "GET")])
  /\ fst (discover bare_env sample_state) <>
     fst (discover (without_swagger bare_env) sample_state).
Proof.
  split; [|split; [|split]].
  - intros h h' r. reflexivity.
  - vm_compute. reflexivity.
  - vm_compute. do 3 eexists. split; reflexivity.
  - vm_compute. discriminate.
Qed.

(** ** OpenID-Connect token flow *)

Lemma lookup_set_item (key : string) (v : json) (d : obj) :
  lookup key (set_item key v d) = Some v.
Proof.
  induction d as [|[k w] rest IH]; cbn [set_item lookup].
  - now rewrite String.eqb_refl.
  - destruct (String.eqb k key) eqn:Hk; cbn [lookup]; rewrite Hk; auto.
Qed.

(** C9: when the identity provider answers the refresh grant with a
    status that is no error and a JSON object holding a non-empty access
    token, and [time.time() + expires_in] has a value, the response's
    [expires_in] or else 300 being a number a float can be added to,
    [_refresh_openid_token] returns after that one request with the
    device's record in the token store overwritten: the new access token,
    the refresh token of the response or else the old one, [expires_at]
    the binary64 sum of the clock reading and [expires_in], and the old
    token URL and client id; and the table with that record is what the
    token store file holds afterwards, the file being writable. *)
Theorem C9_successful_refresh_overwrites_and_persists :
  forall (E : env) (depth : nat) (token_data : obj) (s : state)
         (token_url client_id refresh_token : json) (r : response)
         (new_token_data : obj) (seconds : number) (expires_at : float),
    lookup "token_url" token_data = Some token_url ->
    lookup "client_id" token_data = Some client_id ->
    lookup "refresh_token" token_data = Some refresh_token ->
    transport E (sent s) (refresh_request token_url client_id refresh_token) =
      Answered r ->
    ((400 <=? status_code r)%Z && (status_code r <? 600)%Z) = false ->
    json_body r = Some (JObj new_token_data) ->
    truthy (get_default "access_token" JNull new_token_data) = true ->
    as_number (get_default "expires_in" (JInt 300) new_token_data) = Some seconds ->
    float_plus (clock E (clock_reads s)) seconds = Some expires_at ->
    store_writable E = true ->
    let access_token := get_default "access_token" JNull new_token_data in
    let record :=
      JObj [("access_token", access_token);
            ("refresh_token",
             match lookup "refresh_token" new_token_data with
             | Some fresh => fresh
             | None => refresh_token
             end);
            ("expires_at", JFloat expires_at);
            ("token_url", token_url);
            ("client_id", client_id)] in
    exists s',
      _refresh_openid_token E (S depth) token_data s = (Returned tt, s')
      /\ token_store s' = set_item (name (device_config E)) record (token_store s)
      /\ lookup (name (device_config E)) (token_store s') = Some record
      /\ token_file s' = Holds (token_store s')
      /\ auth_token s' = Some access_token
      /\ session_bearer s' = Some access_token
      /\ sent s' = sent s ++ [refresh_request token_url client_id refresh_token]
      /\ (lookup "expires_in" new_token_data = None -> seconds = NInt 300).
Proof.
  intros E depth token_data s token_url client_id refresh_token r
    new_token_data seconds expires_at Hurl Hcid Hrt Hnet Hstatus Hbody Htoken
    Hsecs Hsum Hw access_token record.
  destruct s as [tok bearer store af ae log reads file].
  cbn [sent clock_reads token_store] in *.
  eexists. split.
  - cbn [_refresh_openid_token].
    cbv beta iota zeta delta
      [try_except refresh_grant bind getitem ret send raise_for_status
       response_json as_dict keep_tokens set_bearer modify time_time
       store_record _save_token_store raise
       auth_token session_bearer token_store auth_failed auth_error sent
       clock_reads token_file].
    rewrite Hurl, Hcid, Hrt. cbv beta iota. rewrite Hnet. cbv beta iota.
    rewrite Hstatus. cbv beta iota. rewrite Hbody. cbv beta iota.
    rewrite Htoken. cbv beta iota delta [negb]. rewrite Hsecs. cbv beta iota.
    rewrite Hsum. cbv beta iota. rewrite Hw. reflexivity.
  - cbn [token_store token_file auth_token session_bearer sent].
    unfold get_default at 2.
    repeat split.
    + apply lookup_set_item.
    + intros Habsent. unfold get_default in Hsecs. rewrite Habsent in Hsecs.
      cbn [as_number] in Hsecs. congruence.
Qed.

Lemma C9_successful_refresh_overwrites_and_persists_witness :
  exists s',
    _refresh_openid_token renewing_env 1 stale_token_data stale_loaded =
    (Returned tt, s')
    /\ token_store s' =
       [("device",
         JObj [("access_token", JStr "fresh");
               ("refresh_token", JStr "r1");
               ("expires_at", JFloat 1121%float);
               ("token_url", JStr "http://device/token");
               ("client_id", JStr "webui")])]
    /\ token_file s' = Holds (token_store s')
    /\ auth_token s' = Some (JStr "fresh").
Proof.
  destruct (C9_successful_refresh_overwrites_and_persists
              renewing_env 0 stale_token_data stale_loaded
              (JStr "http://device/token") (JStr "webui") (JStr "r1")
              (Response 200
                 (Some (JObj [("access_token", JStr "fresh");
                              ("expires_in", JInt 120)]))
                 (Some "application/json"))
              [("access_token", JStr "fresh"); ("expires_in", JInt 120)]
              (NInt 120) 1121%float
              eq_refl eq_refl eq_refl eq_refl eq_refl eq_refl eq_refl eq_refl
              eq_refl eq_refl)
    as (s' & Hrun & Hstore & _ & Hfile & Htoken & _).
  exists s'. repeat split; assumption.
Defined.

(** The refresh inside the flow: entered with the stale record on file,
    [_get_openid_token] sends one refresh grant and saves the renewed
    record. *)
Example stale_token_is_refreshed_in_flow :
  let s' := snd (_get_openid_token renewing_env 2 stale_state) in
  sent s' = [stale_refresh_request]
  /\ token_file s' =
     Holds [("device",
             JObj [("access_token", JStr "fresh");
                   ("refresh_token", JStr "r1");
                   ("expires_at", JFloat 1121%float);
                   ("token_url", JStr "http://device/token");
                   ("client_id", JStr "webui")])]
  /\ session_bearer s' = Some (JStr "fresh").
Proof. vm_compute. repeat split. Qed.

(** The sum is the binary64 one: a clock reading of 1000.1 seconds and an
    [expires_in] of 0.2 give 1000.3000000000001, and an [expires_in]
    beyond the range of a float has no sum. *)
Example expiry_is_a_rounded_sum :
  float_plus 0x1.f40cccccccccdp+9 (NFloat 0x1.999999999999ap-3) =
    Some 0x1.f426666666667p+9%float
  /\ float_plus 1000 (NInt (10 ^ 400)) = None
  /\ float_plus 1000 (NInt (2 ^ 53 + 1)) = Some 0x1.00000000001f4p+53%float.
Proof. vm_compute. repeat split. Qed.

Section Retry.

Variable E : env.
Variable table token_data : obj.
Variables token_url client_id refresh_token : json.
Variable expires_at : number.

Hypothesis stored :
  lookup (name (device_config E)) table = Some (JObj token_data).
Hypothesis has_expiry :
  as_number (get_default "expires_at" (JInt 0) token_data) = Some expires_at.
Hypothesis expired :
  forall n, gt_float expires_at (clock E n + 60)%float = false.
Hypothesis has_url : lookup "token_url" token_data = Some token_url.
Hypothesis has_client : lookup "client_id" token_data = Some client_id.
Hypothesis has_refresh : lookup "refresh_token" token_data = Some refresh_token.
Hypothesis always_rejected :
  forall h, rejected (transport E h (refresh_request token_url client_id refresh_token)).

(** The refresh grant raises, having sent its request and nothing
    else. *)
Lemma refresh_grant_raises (s : state) :
  exists e,
    refresh_grant E token_data s =
    (Raised e,
     State (auth_token s) (session_bearer s) (token_store s) (auth_failed s)
       (auth_error s) (sent s ++ [refresh_request token_url client_id refresh_token]) (clock_reads s) (token_file s)).
Proof.
  destruct s as [tok bearer store af ae log reads file].
  cbv beta iota zeta delta
    [refresh_grant bind getitem ret send raise_for_status raise].
  rewrite has_url, has_client, has_refresh. cbv beta iota.
  pose proof (always_rejected log) as Hno. unfold rejected in Hno.
  cbn [sent].
  destruct (transport E log (refresh_request token_url client_id refresh_token))
    as [detail|r].
  - eexists. reflexivity.
  - cbv beta iota. rewrite Hno. eexists. reflexivity.
Qed.

(** With room for two more activations, [_get_openid_token] loads the
    table, attempts the refresh, and on its failure is entered again
    through the handler of [_refresh_openid_token]: it ends where the
    nested activation ends. *)
Lemma failed_refresh_reenters (depth : nat) (s : state) :
  token_file s = Holds table ->
  _get_openid_token E (S (S depth)) s =
  (Returned tt,
   snd (_get_openid_token E depth (after_failed_refresh table
            (refresh_request token_url client_id refresh_token) s))).
Proof.
  intros Hfile.
  destruct s as [tok bearer store af ae log reads file].
  cbn [token_file] in Hfile. subst file.
  cbn [_get_openid_token].
  unfold try_except at 1.
  cbv beta iota zeta delta
    [bind _load_token_store modify get_state as_dict ret time_time
     auth_token session_bearer token_store auth_failed auth_error sent
     clock_reads token_file].
  rewrite stored. cbv beta iota. rewrite has_expiry. cbv beta iota.
  rewrite expired.
  unfold has_key. rewrite has_refresh.
  cbn [_refresh_openid_token]. unfold try_except at 1.
  destruct (refresh_grant_raises
              (State tok bearer table af ae log (S reads) (Holds table)))
    as [e Hraise].
  rewrite Hraise. unfold after_failed_refresh.
  cbn [auth_token session_bearer token_store auth_failed auth_error sent
       clock_reads token_file].
  destruct (_get_openid_token E depth _) as [[[]|e'] s']; reflexivity.
Qed.

(** With room for one activation only, the refresh cannot even be
    entered. *)
Lemma no_room_for_refresh (s : state) :
  token_file s = Holds table ->
  _get_openid_token E 1 s =
  (Returned tt,
   State (auth_token s) (session_bearer s) table (auth_failed s)
     (auth_error s) (sent s) (S (clock_reads s)) (token_file s)).
Proof.
  intros Hfile.
  destruct s as [tok bearer store af ae log reads file].
  cbn [token_file] in Hfile. subst file.
  cbn [_get_openid_token].
  cbv beta iota zeta delta
    [try_except bind _load_token_store modify get_state as_dict ret
     time_time raise
     auth_token session_bearer token_store auth_failed auth_error sent
     clock_reads token_file].
  rewrite stored. cbv beta iota. rewrite has_expiry. cbv beta iota.
  rewrite expired.
  unfold has_key. rewrite has_refresh. reflexivity.
Qed.

(** However many nested activations are admitted, they are all spent on
    refresh attempts: one for every two levels, and no other request. *)
Lemma refresh_attempts_fill_the_stack (depth : nat) :
  forall s,
    token_file s = Holds table ->
    let s' := snd (_get_openid_token E depth s) in
    sent s' = sent s ++ repeat (refresh_request token_url client_id refresh_token)
                      (Nat.div2 depth)
    /\ auth_token s' = auth_token s
    /\ session_bearer s' = session_bearer s
    /\ token_file s' = Holds table.
Proof.
  induction depth as [depth IH] using lt_wf_ind. intros s Hfile.
  destruct depth as [|[|depth]].
  - cbn. rewrite app_nil_r. auto.
  - rewrite (no_room_for_refresh s Hfile). cbn. rewrite app_nil_r. auto.
  - rewrite (failed_refresh_reenters depth s Hfile). cbn [snd].
    assert (Hfile' : token_file (after_failed_refresh table
            (refresh_request token_url client_id refresh_token) s) = Holds table)
      by exact Hfile.
    destruct (IH depth ltac:(lia) _ Hfile') as (Hsent & Htok & Hbearer & Hkeep).
    cbn zeta in *.
    rewrite Hsent, Htok, Hbearer, Hkeep.
    cbn [after_failed_refresh sent auth_token session_bearer Nat.div2 repeat].
    rewrite <- app_assoc. auto.
Qed.

End Retry.

(** C1, on the code: with a stale record that has a refresh token in the
    token store file and an identity provider that rejects the refresh
    grant, [_get_openid_token] never attempts a full re-authentication.
    The handler of the failed refresh enters [_get_openid_token] again,
    which finds the same record and attempts the refresh again, and so on
    until the interpreter admits no further activation: with room for
    [depth] nested activations the requests sent are [depth / 2] refresh
    grants and nothing else, and no token is obtained.  The same provider
    grants a token to the password grant that is sent when no record is
    stored. *)
Theorem C1_failed_refresh_is_retried_not_replaced :
  (forall depth : nat,
      let s' := snd (_get_openid_token oidc_env depth stale_state) in
      sent s' = repeat stale_refresh_request (Nat.div2 depth)
      /\ auth_token s' = None)
  /\ (let s' := snd (_get_openid_token oidc_env 1
                       (State None None [] false None [] 0 Missing)) in
      sent s' =
        [password_request "http://device/token" "webui" "admin" "secret"
           "offline_access"]
      /\ auth_token s' = Some (JStr "fresh")).
Proof.
  split.
  - intros depth.
    destruct (refresh_attempts_fill_the_stack oidc_env
                [("device", stale_record)] stale_token_data
                (JStr "http://device/token") (JStr "webui") (JStr "r1")
                (NFloat 900)
                eq_refl eq_refl (fun n => eq_refl) eq_refl eq_refl eq_refl
                (fun h => eq_refl) depth stale_state eq_refl)
      as (Hsent & Htoken & _).
    split; [exact Hsent|exact Htoken].
  - vm_compute. split; reflexivity.
Qed.

(** * Further properties *)

(** ** Values at a dotted path *)

Lemma split_dots_not_nil (path : string) : split_dots path <> [].
Proof.
  destruct path as [|c rest]; cbn [split_dots]; [discriminate|].
  destruct (Ascii.eqb c "."%char); [discriminate|].
  destruct (split_dots rest); discriminate.
Qed.

Lemma split_dots_app (p q : string) :
  split_dots (p ++ "." ++ q) = split_dots p ++ split_dots q.
Proof.
  induction p as [|c p IH]; cbn [String.append split_dots].
  - reflexivity.
  - change (p ++ String "."%char q)%string with (p ++ "." ++ q)%string.
    rewrite IH. destruct (Ascii.eqb c "."%char); [reflexivity|].
    pose proof (split_dots_not_nil p) as Hp.
    destruct (split_dots p) as [|first others]; [congruence|reflexivity].
Qed.

Lemma split_dots_plain (key : string) :
  Str.contains "." key = false -> split_dots key = [key].
Proof.
  induction key as [|c key IH]; cbn [Str.contains split_dots String.prefix].
  - reflexivity.
  - destruct (ascii_dec "."%char c) as [<-|Hc].
    + destruct key; discriminate.
    + destruct (Ascii.eqb_spec c "."%char) as [->|_]; [congruence|].
      intros H. now rewrite (IH H).
Qed.

Lemma follow_parts_null (parts : list string) (current : json) :
  (forall members, current <> JObj members) ->
  parts <> [] ->
  follow_parts parts current = JNull.
Proof.
  intros Hno Hparts. destruct parts as [|part rest]; [congruence|].
  destruct current; try reflexivity. now elim (Hno members).
Qed.

Lemma follow_parts_app (a b : list string) :
  b <> [] ->
  forall current,
    follow_parts (a ++ b) current = follow_parts b (follow_parts a current).
Proof.
  intros Hb. induction a as [|part rest IH]; intros current; cbn [app follow_parts].
  - reflexivity.
  - destruct current; try (symmetry; apply follow_parts_null; [discriminate|exact Hb]).
    destruct (lookup part members) as [v|].
    + apply IH.
    + symmetry. apply follow_parts_null; [discriminate|exact Hb].
Qed.

(** X1: [_extract_nested_value] composes along the dots: the value at
    [p.q] is the value at [q] inside the value at [p]; a document that is
    no object has no value at any path, the empty path included; and a
    path without a dot is a plain key lookup. *)
Theorem extract_nested_value_composes :
  (forall (data : json) (p q : string),
      _extract_nested_value data (p ++ "." ++ q) =
      _extract_nested_value (_extract_nested_value data p) q)
  /\ (forall (data : json) (path : string),
        (forall members, data <> JObj members) ->
        _extract_nested_value data path = JNull)
  /\ (forall (members : obj) (key : string),
        Str.contains "." key = false ->
        _extract_nested_value (JObj members) key =
        get_default key JNull members).
Proof.
  split; [|split].
  - intros data p q. unfold _extract_nested_value.
    rewrite split_dots_app. apply follow_parts_app. apply split_dots_not_nil.
  - intros data path Hno. unfold _extract_nested_value.
    apply follow_parts_null; [exact Hno|apply split_dots_not_nil].
  - intros members key Hplain. unfold _extract_nested_value, get_default.
    rewrite (split_dots_plain key Hplain). cbn [follow_parts].
    destruct (lookup key members); reflexivity.
Qed.

Lemma extract_nested_value_composes_witness :
  _extract_nested_value (JInt 7) "token" = JNull
  /\ _extract_nested_value (JObj [("token", JStr "t0")]) "token" =
     get_default "token" JNull [("token", JStr "t0")].
Proof.
  split.
  - apply (proj1 (proj2 extract_nested_value_composes) (JInt 7) "token").
    intros members. discriminate.
  - apply (proj2 (proj2 extract_nested_value_composes)
             [("token", JStr "t0")] "token").
    reflexivity.
Defined.

(** ** OpenID-Connect token flow: the other paths *)

(** Running the statements of the token flow down to the case at hand. *)
Ltac run_flow :=
  cbv beta iota zeta delta
    [try_except password_grant refresh_grant bind getitem required ret send
     raise_for_status response_json as_dict keep_tokens set_bearer modify
     time_time store_record _save_token_store _load_token_store get_state
     raise has_key
     auth_token session_bearer token_store auth_failed auth_error sent
     clock_reads token_file].

(** The validity test is the one on floats: a stored expiry of 60.1 is
    not beyond the sum of a clock reading of 0.1 and 60, which rounds to
    60.1; an [int] expiry is compared by its exact value, here one more
    than the float it would convert to; and NaN is beyond nothing. *)
Example validity_test_is_on_floats :
  gt_float (NFloat 0x1.e0ccccccccccdp+5) (0x1.999999999999ap-4 + 60)%float
    = false
  /\ gt_float (NInt (2 ^ 53 + 1)) 0x1p+53%float = true
  /\ gt_float (NInt (2 ^ 53)) 0x1p+53%float = false
  /\ gt_float (NFloat nan) 0%float = false
  /\ gt_float (NInt 0) nan = false.
Proof. vm_compute. repeat split. Qed.

(** The run of the flow on a stored record that is still valid. *)
Lemma valid_token_run :
  forall (E : env) (depth : nat) (s : state) (token_data : obj)
         (expires_at : number) (access_token : json),
    lookup (name (device_config E)) (loaded_store s) = Some (JObj token_data) ->
    as_number (get_default "expires_at" (JInt 0) token_data) = Some expires_at ->
    gt_float expires_at (clock E (clock_reads s) + 60)%float = true ->
    lookup "access_token" token_data = Some access_token ->
    _get_openid_token E (S depth) s =
    (Returned tt,
     State (Some access_token) (Some access_token) (loaded_store s)
       (auth_failed s) (auth_error s) (sent s) (S (clock_reads s))
       (token_file s)).
Proof.
  intros E depth s token_data expires_at access_token Hrec Hexp Hvalid Htok.
  destruct s as [tok bearer store af ae log reads file].
  unfold loaded_store in *. cbn [token_file token_store clock_reads] in *.
  cbn [_get_openid_token].
  destruct file as [| |table]; run_flow;
    rewrite Hrec; cbv beta iota; rewrite Hexp; cbv beta iota;
    rewrite Hvalid, Htok; reflexivity.
Qed.

(** X2: a stored record is used as it is when the test
    [expires_at > time.time() + 60] holds, the sum being the binary64
    one and an [int] expiry compared by its exact value: the access token
    becomes the session's bearer token, and nothing is requested and
    nothing written. *)
Theorem stored_valid_token_is_reused :
  forall (E : env) (depth : nat) (s : state) (token_data : obj)
         (expires_at : number) (access_token : json),
    lookup (name (device_config E)) (loaded_store s) = Some (JObj token_data) ->
    as_number (get_default "expires_at" (JInt 0) token_data) = Some expires_at ->
    gt_float expires_at (clock E (clock_reads s) + 60)%float = true ->
    lookup "access_token" token_data = Some access_token ->
    _get_openid_token E (S depth) s =
    (Returned tt,
     State (Some access_token) (Some access_token) (loaded_store s)
       (auth_failed s) (auth_error s) (sent s) (S (clock_reads s))
       (token_file s)).
Proof. exact valid_token_run. Qed.

Lemma stored_valid_token_is_reused_witness :
  _get_openid_token renewing_env 1
    (State None None [] false None [] 0
       (Holds [("device",
                JObj [("access_token", JStr "t1");
                      ("expires_at", JInt 2000)])])) =
  (Returned tt,
   State (Some (JStr "t1")) (Some (JStr "t1"))
     [("device",
       JObj [("access_token", JStr "t1"); ("expires_at", JInt 2000)])]
     false None [] 1
     (Holds [("device",
              JObj [("access_token", JStr "t1");
                    ("expires_at", JInt 2000)])])).
Proof.
  apply (stored_valid_token_is_reused renewing_env 0
           (State None None [] false None [] 0
              (Holds [("device",
                       JObj [("access_token", JStr "t1");
                             ("expires_at", JInt 2000)])]))
           [("access_token", JStr "t1"); ("expires_at", JInt 2000)]
           (NInt 2000) (JStr "t1")); reflexivity.
Defined.

(** The run of the flow when nothing is stored and the password grant succeeds. *)
Lemma first_login_run :
  forall (E : env) (depth : nat) (s : state) (user pass endpoint : string)
         (r : response) (token_data : obj) (seconds : number)
         (expires_at : float),
    lookup (name (device_config E)) (loaded_store s) = None ->
    username (api (device_config E)) = Some user ->
    password (api (device_config E)) = Some pass ->
    auth_endpoint (api (device_config E)) = Some endpoint ->
    transport E (sent s) (login_request E user pass endpoint) = Answered r ->
    ((400 <=? status_code r)%Z && (status_code r <? 600)%Z) = false ->
    json_body r = Some (JObj token_data) ->
    truthy (get_default "access_token" JNull token_data) = true ->
    as_number (get_default "expires_in" (JInt 300) token_data) = Some seconds ->
    float_plus (clock E (clock_reads s)) seconds = Some expires_at ->
    store_writable E = true ->
    let table :=
      set_item (name (device_config E))
        (JObj [("access_token", get_default "access_token" JNull token_data);
               ("refresh_token", get_default "refresh_token" JNull token_data);
               ("expires_at", JFloat expires_at);
               ("token_url", JStr (login_url E endpoint));
               ("client_id",
                JStr (with_default "webui"
                        (openid_client_id (api (device_config E)))))])
        (loaded_store s) in
    _get_openid_token E (S depth) s =
    (Returned tt,
     State (Some (get_default "access_token" JNull token_data))
       (Some (get_default "access_token" JNull token_data))
       table (auth_failed s) (auth_error s)
       (sent s ++ [login_request E user pass endpoint])
       (S (clock_reads s)) (Holds table)).
Proof.
  intros E depth s user pass endpoint r token_data seconds expires_at
    Hnone Huser Hpass Hend Hnet Hstatus Hbody Htoken Hsecs Hsum Hw table.
  subst table.
  destruct s as [tok bearer store af ae log reads file].
  unfold loaded_store, login_request, login_url in *.
  cbn [token_file token_store clock_reads sent] in *.
  cbn [_get_openid_token].
  destruct file as [| |table]; run_flow;
    rewrite Hnone; cbv beta iota; rewrite Huser, Hpass, Hend; cbv beta iota;
    rewrite Hnet; cbv beta iota; rewrite Hstatus; cbv beta iota;
    rewrite Hbody; cbv beta iota; rewrite Htoken; cbv beta iota delta [negb];
    rewrite Hsecs; cbv beta iota; rewrite Hsum; cbv beta iota; rewrite Hw;
    reflexivity.
Qed.

(** X3: with no record for the device in the store, the flow sends one
    password grant; when it is answered with a status that is no error and
    a JSON object holding a non-empty access token, the token becomes the
    session's bearer token, and the record (access token, refresh token or
    null, the binary64 sum of the clock reading and [expires_in] or else
    300, the token URL and the client id) is added to the loaded table
    and, the file being writable, saved.  The sum has a value unless
    [expires_in] is an [int] beyond the range of a float. *)
Theorem first_login_stores_the_record :
  forall (E : env) (depth : nat) (s : state) (user pass endpoint : string)
         (r : response) (token_data : obj) (seconds : number)
         (expires_at : float),
    lookup (name (device_config E)) (loaded_store s) = None ->
    username (api (device_config E)) = Some user ->
    password (api (device_config E)) = Some pass ->
    auth_endpoint (api (device_config E)) = Some endpoint ->
    transport E (sent s) (login_request E user pass endpoint) = Answered r ->
    ((400 <=? status_code r)%Z && (status_code r <? 600)%Z) = false ->
    json_body r = Some (JObj token_data) ->
    truthy (get_default "access_token" JNull token_data) = true ->
    as_number (get_default "expires_in" (JInt 300) token_data) = Some seconds ->
    float_plus (clock E (clock_reads s)) seconds = Some expires_at ->
    store_writable E = true ->
    let table :=
      set_item (name (device_config E))
        (JObj [("access_token", get_default "access_token" JNull token_data);
               ("refresh_token", get_default "refresh_token" JNull token_data);
               ("expires_at", JFloat expires_at);
               ("token_url", JStr (login_url E endpoint));
               ("client_id",
                JStr (with_default "webui"
                        (openid_client_id (api (device_config E)))))])
        (loaded_store s) in
    _get_openid_token E (S depth) s =
    (Returned tt,
     State (Some (get_default "access_token" JNull token_data))
       (Some (get_default "access_token" JNull token_data))
       table (auth_failed s) (auth_error s)
       (sent s ++ [login_request E user pass endpoint])
       (S (clock_reads s)) (Holds table)).
Proof. exact first_login_run. Qed.

Lemma first_login_stores_the_record_witness :
  _get_openid_token oidc_env 1 (new_session sample_state) =
  (Returned tt,
   State (Some (JStr "fresh")) (Some (JStr "fresh"))
     [("device",
       JObj [("access_token", JStr "fresh");
             ("refresh_token", JStr "r2");
             ("expires_at", JFloat 1300%float);
             ("token_url", JStr "http://device/token");
             ("client_id", JStr "webui")])]
     false None
     [password_request "http://device/token" "webui" "admin" "secret"
        "offline_access"]
     1
     (Holds [("device",
              JObj [("access_token", JStr "fresh");
                    ("refresh_token", JStr "r2");
                    ("expires_at", JFloat 1300%float);
                    ("token_url", JStr "http://device/token");
                    ("client_id", JStr "webui")])])).
Proof.
  apply (first_login_stores_the_record oidc_env 0 (new_session sample_state)
           "admin" "secret" "/token"
           (Response 200
              (Some (JObj [("access_token", JStr "fresh");
                           ("refresh_token", JStr "r2");
                           ("expires_in", JInt 300)]))
              (Some "application/json"))
           [("access_token", JStr "fresh"); ("refresh_token", JStr "r2");
            ("expires_in", JInt 300)]
           (NInt 300) 1300%float); reflexivity.
Defined.

(** X4: a login that the identity provider refuses, by not answering or
    by an error status, is swallowed: [_get_openid_token] returns, the
    session has no token, nothing is stored or written, and [auth_failed]
    is left as it was. *)
Theorem refused_login_is_swallowed :
  forall (E : env) (depth : nat) (s : state) (user pass endpoint : string),
    lookup (name (device_config E)) (loaded_store s) = None ->
    username (api (device_config E)) = Some user ->
    password (api (device_config E)) = Some pass ->
    auth_endpoint (api (device_config E)) = Some endpoint ->
    rejected (transport E (sent s) (login_request E user pass endpoint)) ->
    _get_openid_token E (S depth) s =
    (Returned tt,
     State (auth_token s) (session_bearer s) (loaded_store s)
       (auth_failed s) (auth_error s)
       (sent s ++ [login_request E user pass endpoint])
       (clock_reads s) (token_file s)).
Proof.
  intros E depth s user pass endpoint Hnone Huser Hpass Hend Hno.
  destruct s as [tok bearer store af ae log reads file].
  unfold loaded_store, login_request, login_url, rejected in *.
  cbn [token_file token_store clock_reads sent] in *.
  cbn [_get_openid_token].
  destruct file as [| |table]; run_flow;
    rewrite Hnone; cbv beta iota; rewrite Huser, Hpass, Hend; cbv beta iota;
    (destruct (transport E log _) as [detail|r];
     [reflexivity|cbv beta iota; rewrite Hno; reflexivity]).
Qed.

Lemma refused_login_is_swallowed_witness :
  _get_openid_token refusing_env 1 (new_session sample_state) =
  (Returned tt,
   State None None [] false None
     [password_request "http://device/token" "webui" "admin" "secret"
        "offline_access"]
     0 Missing).
Proof.
  apply (refused_login_is_swallowed refusing_env 0 (new_session sample_state)
           "admin" "secret" "/token"); reflexivity.
Defined.

(** X28: a token response whose [expires_in] cannot be added to the
    clock reading, being no number or an [int] beyond the range of a
    float, still authenticates the session: the access token is kept and
    put in the session header before the sum is evaluated, the exception
    is swallowed, and nothing is stored or written. *)
Theorem unusable_expiry_keeps_the_token_but_stores_nothing :
  forall (E : env) (depth : nat) (s : state) (user pass endpoint : string)
         (r : response) (token_data : obj),
    lookup (name (device_config E)) (loaded_store s) = None ->
    username (api (device_config E)) = Some user ->
    password (api (device_config E)) = Some pass ->
    auth_endpoint (api (device_config E)) = Some endpoint ->
    transport E (sent s) (login_request E user pass endpoint) = Answered r ->
    ((400 <=? status_code r)%Z && (status_code r <? 600)%Z) = false ->
    json_body r = Some (JObj token_data) ->
    truthy (get_default "access_token" JNull token_data) = true ->
    (as_number (get_default "expires_in" (JInt 300) token_data) = None
     \/ exists seconds,
          as_number (get_default "expires_in" (JInt 300) token_data) =
            Some seconds
          /\ float_plus (clock E (clock_reads s)) seconds = None) ->
    _get_openid_token E (S depth) s =
    (Returned tt,
     State (Some (get_default "access_token" JNull token_data))
       (Some (get_default "access_token" JNull token_data))
       (loaded_store s) (auth_failed s) (auth_error s)
       (sent s ++ [login_request E user pass endpoint])
       (S (clock_reads s)) (token_file s)).
Proof.
  intros E depth s user pass endpoint r token_data
    Hnone Huser Hpass Hend Hnet Hstatus Hbody Htoken Hbad.
  destruct s as [tok bearer store af ae log reads file].
  unfold loaded_store, login_request, login_url in *.
  cbn [token_file token_store clock_reads sent] in *.
  cbn [_get_openid_token].
  destruct Hbad as [Hnum|(seconds & Hnum & Hsum)];
    destruct file as [| |table]; run_flow;
    rewrite Hnone; cbv beta iota; rewrite Huser, Hpass, Hend; cbv beta iota;
    rewrite Hnet; cbv beta iota; rewrite Hstatus; cbv beta iota;
    rewrite Hbody; cbv beta iota; rewrite Htoken; cbv beta iota delta [negb];
    rewrite Hnum; cbv beta iota; try rewrite Hsum; reflexivity.
Qed.

Lemma unusable_expiry_keeps_the_token_but_stores_nothing_witness :
  _get_openid_token eternal_env 1 (new_session sample_state) =
  (Returned tt,
   State (Some (JStr "fresh")) (Some (JStr "fresh")) [] false None
     [password_request "http://device/token" "webui" "admin" "secret"
        "offline_access"]
     1 Missing).
Proof.
  apply (unusable_expiry_keeps_the_token_but_stores_nothing eternal_env 0
           (new_session sample_state) "admin" "secret" "/token"
           (Response 200
              (Some (JObj [("access_token", JStr "fresh");
                           ("expires_in", JInt (10 ^ 400))]))
              (Some "application/json"))
           [("access_token", JStr "fresh"); ("expires_in", JInt (10 ^ 400))]);
    try reflexivity.
  right. exists (NInt (10 ^ 400)). split; [reflexivity|].
  vm_compute. reflexivity.
Defined.

Lemma lookup_set_item_other (key other : string) (v : json) (d : obj) :
  other <> key -> lookup other (set_item key v d) = lookup other d.
Proof.
  intros Hne. induction d as [|[k w] rest IH]; cbn [set_item lookup].
  - destruct (String.eqb_spec key other); [congruence|reflexivity].
  - destruct (String.eqb_spec k key) as [->|Hk]; cbn [lookup].
    + destruct (String.eqb_spec key other); [congruence|reflexivity].
    + now rewrite IH.
Qed.

(** Taking the cases of a grant one after the other. *)
Ltac grant_cases :=
  run_flow;
  repeat (match goal with
          | |- context [match lookup ?k ?d with _ => _ end] =>
              destruct (lookup k d) eqn:?
          | |- context [match transport ?F ?h ?r with _ => _ end] =>
              destruct (transport F h r) eqn:?
          | |- context [if ?b then _ else _] => destruct b eqn:?
          | |- context [match json_body ?r with _ => _ end] =>
              destruct (json_body r) as [[]|] eqn:?
          | |- context [match as_number ?j with _ => _ end] =>
              destruct (as_number j) eqn:?
          | |- context [match ?x with Some _ => _ | None => _ end] =>
              destruct x eqn:?
          end; run_flow).

Ltac keeps_case :=
  unfold flow_keeps;
  cbn [fst snd auth_token session_bearer token_store auth_failed auth_error
       sent clock_reads token_file];
  repeat split;
  try (intros; discriminate);
  try (exists (@nil request); now rewrite app_nil_r);
  try (eexists; reflexivity);
  try (intros other Hother; apply lookup_set_item_other; exact Hother);
  try (now left); try (now right).

Section Keeps.

Variable E : env.

Lemma flow_keeps_refl (s : state) : flow_keeps (name (device_config E)) s s.
Proof.
  unfold flow_keeps. repeat split; auto.
  exists []. now rewrite app_nil_r.
Qed.

Lemma flow_keeps_trans (s1 s2 s3 : state) :
  flow_keeps (name (device_config E)) s1 s2 ->
  flow_keeps (name (device_config E)) s2 s3 ->
  token_file s2 = token_file s1 ->
  flow_keeps (name (device_config E)) s1 s3.
Proof.
  intros (Hf & He & [r1 Hs] & Hl & _) (Hf' & He' & [r2 Hs'] & Hl' & Hfile) Hsame.
  unfold flow_keeps.
  split; [congruence|]. split; [congruence|]. split; [|split].
  - exists (r1 ++ r2). now rewrite Hs', Hs, app_assoc.
  - intros other Hne. now rewrite (Hl' other Hne), (Hl other Hne).
  - destruct Hfile as [Hfile|Hfile]; [left; congruence|now right].
Qed.

Lemma refresh_grant_keeps (token_data : obj) (s : state) :
  flow_keeps (name (device_config E)) s (snd (refresh_grant E token_data s)).
Proof.
  destruct s as [tok bearer store af ae log reads file].
  grant_cases; keeps_case.
Qed.

(** A refresh grant that raises has stored nothing. *)
Lemma refresh_grant_raised (token_data : obj) (s : state) :
  forall e s',
    refresh_grant E token_data s = (Raised e, s') ->
    token_file s' = token_file s /\ token_store s' = token_store s.
Proof.
  destruct s as [tok bearer store af ae log reads file].
  grant_cases; intros e s' Heq; try discriminate Heq;
    inversion Heq; subst; cbv beta iota; split; reflexivity.
Qed.

Lemma password_grant_keeps (s : state) :
  flow_keeps (name (device_config E)) s (snd (password_grant E s)).
Proof.
  destruct s as [tok bearer store af ae log reads file].
  unfold password_grant.
  destruct (username (api (device_config E)));
    destruct (password (api (device_config E)));
    destruct (auth_endpoint (api (device_config E)));
    grant_cases; keeps_case.
Qed.

Lemma flow_keeps_step (s1 s2 s3 : state) :
  auth_failed s2 = auth_failed s1 ->
  auth_error s2 = auth_error s1 ->
  (exists rest, sent s2 = sent s1 ++ rest) ->
  token_store s2 = token_store s1 ->
  token_file s2 = token_file s1 ->
  flow_keeps (name (device_config E)) s2 s3 ->
  flow_keeps (name (device_config E)) s1 s3.
Proof.
  intros Hf He Hs Hstore Hfile Hkeeps.
  apply (flow_keeps_trans s1 s2 s3); [|exact Hkeeps|exact Hfile].
  unfold flow_keeps. repeat split; auto.
  intros other _. now rewrite Hstore.
Qed.

(** Whatever the network answers and however deep the flow nests, it
    keeps what [flow_keeps] says, from the loaded table on. *)
Lemma get_openid_token_keeps (depth : nat) :
  forall s,
    snd (_get_openid_token E depth s) = s
    \/ flow_keeps (name (device_config E)) (after_load s)
         (snd (_get_openid_token E depth s)).
Proof.
  induction depth as [depth IH] using lt_wf_ind. intros s.
  destruct depth as [|depth]; [now left|right].
  destruct s as [tok bearer store af ae log reads file].
  cbn [_get_openid_token].
  unfold try_except at 1, bind at 1, _load_token_store at 1, modify at 1.
  cbn [token_file after_load loaded_store auth_token session_bearer
       token_store auth_failed auth_error sent clock_reads].
  set (table := match file with Holds t => t | _ => store end).
  assert (Hload :
            match file with
            | Holds t => State tok bearer t af ae log reads file
            | _ => State tok bearer store af ae log reads file
            end = State tok bearer table af ae log reads file)
    by (subst table; destruct file; reflexivity).
  rewrite Hload. clear Hload.
  set (L := State tok bearer table af ae log reads file).
  assert (Hbody :
            forall c : M unit,
              flow_keeps (name (device_config E)) L (snd (c L)) ->
              flow_keeps (name (device_config E)) L
                (snd (let (o, s') := c L in
                      match o with
                      | Returned a => (Returned a, s')
                      | Raised _ => ret tt s'
                      end))).
  { intros c Hc. destruct (c L) as [[[]|e] s']; exact Hc. }
  apply Hbody. clear Hbody.
  unfold bind at 1, get_state at 1. cbn [token_store L].
  fold L.
  destruct (lookup (name (device_config E)) table) as [stored|];
    [|apply password_grant_keeps].
  destruct stored as [| | | | | |token_data];
    try (cbn; apply flow_keeps_refl).
  unfold as_dict, bind at 1, ret at 1, bind at 1, time_time at 1.
  cbn [auth_token session_bearer token_store auth_failed auth_error sent
       clock_reads token_file L].
  set (L1 := State tok bearer table af ae log (S reads) file).
  assert (Hstep : forall s3,
             flow_keeps (name (device_config E)) L1 s3 ->
             flow_keeps (name (device_config E)) L s3).
  { intros s3. apply flow_keeps_step; try reflexivity.
    exists []. now rewrite app_nil_r. }
  destruct (as_number _) as [expires_at|]; [|apply Hstep, flow_keeps_refl].
  destruct (gt_float _ _).
  - apply Hstep. unfold bind, getitem.
    destruct (lookup "access_token" token_data); subst L1; keeps_case.
  - destruct (has_key "refresh_token" token_data);
      [|apply Hstep, password_grant_keeps].
    destruct depth as [|depth]; [apply Hstep, flow_keeps_refl|].
    cbn [_refresh_openid_token]. unfold try_except.
    pose proof (refresh_grant_keeps token_data L1) as Hgrant.
    pose proof (refresh_grant_raised token_data L1) as Hraised.
    destruct (refresh_grant E token_data L1) as [[[]|e] s3]; cbn [snd] in *.
    + apply Hstep, Hgrant.
    + destruct (Hraised e s3 eq_refl) as [Hfile Hstore].
      destruct Hgrant as (Hf & He & Hs & _ & _).
      destruct (IH depth ltac:(lia) s3) as [Hsame|Hnested].
      * rewrite Hsame. apply Hstep.
        unfold flow_keeps. repeat split; auto.
        intros other _. now rewrite Hstore.
      * apply Hstep.
        apply (flow_keeps_step L1 (after_load s3)); try assumption.
        subst L1. unfold after_load, loaded_store.
        cbn [token_store token_file] in *. rewrite Hfile, Hstore.
        subst table. destruct file; reflexivity.
Qed.

End Keeps.

(** X5: whatever the identity provider answers and however deep the
    flow nests, [_get_openid_token] leaves [auth_failed] and [auth_error]
    as they were, only adds to the requests sent, and leaves the token
    store file holding for every other device the record it held
    before. *)
Theorem token_flow_keeps_other_devices :
  forall (E : env) (depth : nat) (s : state) (table : obj),
    token_file s = Holds table ->
    let s' := snd (_get_openid_token E depth s) in
    auth_failed s' = auth_failed s
    /\ auth_error s' = auth_error s
    /\ (exists rest, sent s' = sent s ++ rest)
    /\ exists table',
         token_file s' = Holds table'
         /\ forall other,
              other <> name (device_config E) ->
              lookup other table' = lookup other table.
Proof.
  intros E depth s table Hfile s'. subst s'.
  destruct (get_openid_token_keeps E depth s) as [Hsame|Hkeeps].
  - rewrite Hsame. repeat split; auto.
    + exists []. now rewrite app_nil_r.
    + exists table. split; [exact Hfile|reflexivity].
  - destruct Hkeeps as (Hf & He & Hs & Hl & Hfile').
    unfold after_load, loaded_store in *.
    cbn [auth_failed auth_error sent token_store token_file] in *.
    rewrite Hfile in *.
    repeat split; auto.
    destruct Hfile' as [Hfile'|Hfile'].
    + exists table. split; [exact Hfile'|reflexivity].
    + exists (token_store (snd (_get_openid_token E depth s))).
      split; [exact Hfile'|exact Hl].
Qed.

Lemma token_flow_keeps_other_devices_witness :
  exists table',
    token_file
      (snd (_get_openid_token renewing_env 2
              (State None None [] false None [] 0
                 (Holds [("other", JObj [("access_token", JStr "o1")]);
                         ("device", stale_record)]))))
    = Holds table'
    /\ lookup "other" table' = Some (JObj [("access_token", JStr "o1")]).
Proof.
  destruct (token_flow_keeps_other_devices renewing_env 2
              (State None None [] false None [] 0
                 (Holds [("other", JObj [("access_token", JStr "o1")]);
                         ("device", stale_record)]))
              [("other", JObj [("access_token", JStr "o1")]);
               ("device", stale_record)]
              eq_refl)
    as (_ & _ & _ & table' & Hfile & Hother).
  exists table'. split; [exact Hfile|].
  apply (Hother "other"). discriminate.
Defined.

(** X6: the token a login has stored is what a later session uses: once
    a password grant has succeeded and its expiry was computed, a session
    that finds the token file as that login left it, at a clock reading
    for which the test [expires_at > time.time() + 60] holds on the stored
    binary64 expiry, takes the access token from the file and sends
    nothing. *)
Theorem stored_token_serves_the_next_session :
  forall (E : env) (depth depth' : nat) (s later : state)
         (user pass endpoint : string) (r : response) (token_data : obj)
         (seconds : number) (expires_at : float),
    lookup (name (device_config E)) (loaded_store s) = None ->
    username (api (device_config E)) = Some user ->
    password (api (device_config E)) = Some pass ->
    auth_endpoint (api (device_config E)) = Some endpoint ->
    transport E (sent s) (login_request E user pass endpoint) = Answered r ->
    ((400 <=? status_code r)%Z && (status_code r <? 600)%Z) = false ->
    json_body r = Some (JObj token_data) ->
    truthy (get_default "access_token" JNull token_data) = true ->
    as_number (get_default "expires_in" (JInt 300) token_data) = Some seconds ->
    float_plus (clock E (clock_reads s)) seconds = Some expires_at ->
    store_writable E = true ->
    token_file later = token_file (snd (_get_openid_token E (S depth) s)) ->
    gt_float (NFloat expires_at) (clock E (clock_reads later) + 60)%float = true ->
    let s' := snd (_get_openid_token E (S depth') later) in
    session_bearer s' = Some (get_default "access_token" JNull token_data)
    /\ auth_token s' = Some (get_default "access_token" JNull token_data)
    /\ sent s' = sent later
    /\ token_file s' = token_file later.
Proof.
  intros E depth depth' s later user pass endpoint r token_data seconds
    expires_at Hnone Huser Hpass Hend Hnet Hstatus Hbody Htoken Hsecs Hsum Hw
    Hfile Hvalid s'.
  subst s'.
  rewrite (first_login_run E depth s user pass endpoint r
             token_data seconds expires_at Hnone Huser Hpass Hend Hnet Hstatus
             Hbody Htoken Hsecs Hsum Hw) in Hfile.
  cbn [snd token_file] in Hfile.
  rewrite (valid_token_run E depth' later
             [("access_token", get_default "access_token" JNull token_data);
              ("refresh_token", get_default "refresh_token" JNull token_data);
              ("expires_at", JFloat expires_at);
              ("token_url", JStr (login_url E endpoint));
              ("client_id",
               JStr (with_default "webui"
                       (openid_client_id (api (device_config E)))))]
             (NFloat expires_at)
             (get_default "access_token" JNull token_data)).
  - repeat split.
  - unfold loaded_store. rewrite Hfile. apply lookup_set_item.
  - reflexivity.
  - exact Hvalid.
  - reflexivity.
Qed.

Lemma stored_token_serves_the_next_session_witness :
  let first :=
    snd (_get_openid_token renewing_env 1 (new_session sample_state)) in
  let s' := snd (_get_openid_token renewing_env 1 (new_session first)) in
  session_bearer s' = Some (JStr "fresh")
  /\ auth_token s' = Some (JStr "fresh")
  /\ sent s' = sent (new_session first)
  /\ token_file s' = token_file (new_session first).
Proof.
  apply (stored_token_serves_the_next_session renewing_env 0 0
           (new_session sample_state)
           (new_session
              (snd (_get_openid_token renewing_env 1
                      (new_session sample_state))))
           "admin" "secret" "/token"
           (Response 200
              (Some (JObj [("access_token", JStr "fresh");
                           ("expires_in", JInt 120)]))
              (Some "application/json"))
           [("access_token", JStr "fresh"); ("expires_in", JInt 120)]
           (NInt 120) 1120%float); reflexivity.
Defined.

(** A refresh grant whose record has the three keys sends its request and
    no other. *)
Lemma refresh_grant_sends (E : env) (token_data : obj) (s : state)
    (token_url client_id refresh_token : json) :
  lookup "token_url" token_data = Some token_url ->
  lookup "client_id" token_data = Some client_id ->
  lookup "refresh_token" token_data = Some refresh_token ->
  sent (snd (refresh_grant E token_data s)) =
  sent s ++ [refresh_request token_url client_id refresh_token].
Proof.
  intros Hurl Hcid Hrt.
  destruct s as [tok bearer store af ae log reads file].
  run_flow. rewrite Hurl, Hcid, Hrt. grant_cases; reflexivity.
Qed.

(** X7: a record stored from a token response without a refresh token
    still has the [refresh_token] key, bound to null.  Once it has
    expired, the flow does not start with a password grant: the first
    request it sends is a refresh grant whose refresh token is null. *)
Theorem expired_record_without_refresh_token_is_refreshed_with_null :
  forall (E : env) (depth : nat) (later : state) (table token_data : obj)
         (endpoint : string) (expires_at : float),
    token_file later = Holds table ->
    lookup (name (device_config E)) table =
      Some (JObj [("access_token", get_default "access_token" JNull token_data);
                  ("refresh_token",
                   get_default "refresh_token" JNull token_data);
                  ("expires_at", JFloat expires_at);
                  ("token_url", JStr (login_url E endpoint));
                  ("client_id",
                   JStr (with_default "webui"
                           (openid_client_id (api (device_config E)))))]) ->
    lookup "refresh_token" token_data = None ->
    gt_float (NFloat expires_at) (clock E (clock_reads later) + 60)%float
      = false ->
    exists rest,
      sent (snd (_get_openid_token E (S (S depth)) later)) =
      sent later
        ++ refresh_request (JStr (login_url E endpoint))
             (JStr (with_default "webui"
                      (openid_client_id (api (device_config E)))))
             JNull
        :: rest.
Proof.
  intros E depth later table token_data endpoint expires_at
    Hfile Hrec Hnone Hexpired.
  destruct later as [tok bearer store af ae log reads file].
  cbn [token_file clock_reads sent] in *. subst file.
  unfold get_default in Hrec.
  rewrite Hnone in Hrec.
  cbn [_get_openid_token].
  unfold try_except at 1.
  cbv beta iota zeta delta
    [bind _load_token_store modify get_state as_dict ret time_time
     auth_token session_bearer token_store auth_failed auth_error sent
     clock_reads token_file].
  rewrite Hrec. cbv beta iota.
  cbn [get_default lookup String.eqb Ascii.eqb Bool.eqb as_number].
  rewrite Hexpired. cbn [has_key lookup String.eqb Ascii.eqb Bool.eqb].
  cbn [_refresh_openid_token]. unfold try_except at 1.
  match goal with
  | |- context [refresh_grant E ?td ?s0] =>
      pose proof (refresh_grant_sends E td s0
                    (JStr (login_url E endpoint))
                    (JStr (with_default "webui"
                             (openid_client_id (api (device_config E)))))
                    JNull eq_refl eq_refl eq_refl) as Hsent;
      destruct (refresh_grant E td s0) as [[[]|e] s3]
  end; cbn [snd sent] in Hsent.
  - exists []. exact Hsent.
  - destruct (get_openid_token_keeps E depth s3) as [Hsame|Hkeeps].
    + exists []. destruct (_get_openid_token E depth s3) as [[[]|e'] s4];
        cbv beta iota zeta delta [snd ret] in *; subst s4; exact Hsent.
    + destruct Hkeeps as (_ & _ & [rest Hrest] & _).
      exists rest. cbn [after_load sent] in Hrest.
      destruct (_get_openid_token E depth s3) as [[[]|e'] s4];
        cbv beta iota zeta delta [snd ret] in *;
        (transitivity (sent s3 ++ rest); [exact Hrest|]);
        rewrite Hsent, <- app_assoc; reflexivity.
Qed.

Lemma expired_record_without_refresh_token_is_refreshed_with_null_witness :
  exists rest,
    sent (snd (_get_openid_token oidc_env 2
                 (State None None [] false None [] 0
                    (Holds [("device",
                             JObj [("access_token", JStr "t1");
                                   ("refresh_token", JNull);
                                   ("expires_at", JFloat 300%float);
                                   ("token_url", JStr "http://device/token");
                                   ("client_id", JStr "webui")])])))) =
    [] ++ refresh_request (JStr "http://device/token") (JStr "webui") JNull
       :: rest.
Proof.
  apply (expired_record_without_refresh_token_is_refreshed_with_null
           oidc_env 0
           (State None None [] false None [] 0
              (Holds [("device",
                       JObj [("access_token", JStr "t1");
                             ("refresh_token", JNull);
                             ("expires_at", JFloat 300%float);
                             ("token_url", JStr "http://device/token");
                             ("client_id", JStr "webui")])]))
           [("device",
             JObj [("access_token", JStr "t1");
                   ("refresh_token", JNull);
                   ("expires_at", JFloat 300%float);
                   ("token_url", JStr "http://device/token");
                   ("client_id", JStr "webui")])]
           [("access_token", JStr "t1")] "/token" 300%float);
    reflexivity.
Defined.

(** ** Sampling-driven discovery: requests, counters and kept bodies *)

Lemma has_key_set_item (key path : string) (v : json) (d : obj) :
  has_key path (set_item key v d) = String.eqb key path || has_key path d.
Proof.
  unfold has_key.
  induction d as [|[k w] rest IH]; cbn [set_item lookup].
  - destruct (String.eqb key path); reflexivity.
  - destruct (String.eqb_spec k key) as [->|Hk]; cbn [lookup].
    + destruct (String.eqb key path); reflexivity.
    + destruct (String.eqb_spec k path) as [->|Hp].
      * now rewrite orb_true_r.
      * exact IH.
Qed.

Lemma status_count_app (status : string) (a b : list endpoint) :
  status_count status (a ++ b) = status_count status a + status_count status b.
Proof. unfold status_count. now rewrite filter_app, length_app. Qed.

Lemma endpoint_config_of_shape (path method : string) (data : json) :
  exists metrics tags nested cfg,
    endpoint_config_of path method data =
    SampledOk path method metrics tags nested cfg.
Proof.
  unfold endpoint_config_of.
  destruct (_analyze_json_structure data ""). do 4 eexists. reflexivity.
Qed.

Lemma accounted_add (found : list endpoint) (bodies bodies' : obj)
    (ok ko ok' ko' : nat) (last last' : option response) (d : endpoint) :
  accounted (Sampling found bodies ok ko last) ->
  ok' = ok + (if has_status "ok" d then 1 else 0) ->
  ko' = ko + (if has_status "error" d then 1 else 0) ->
  (forall path,
      has_key path bodies' =
      has_key path bodies
      || (has_status "ok" d && String.eqb (endpoint_path d) path)) ->
  accounted (Sampling (found ++ [d]) bodies' ok' ko' last').
Proof.
  intros (Hok & Hko & Hkeys) -> -> Hbodies.
  cbn [successful failed sampled sample_bodies] in *.
  unfold accounted. cbn [successful failed sampled sample_bodies].
  rewrite !status_count_app. unfold status_count at 2 4. cbn [filter].
  split; [|split].
  - rewrite Hok. destruct (has_status "ok" d); reflexivity.
  - rewrite Hko. destruct (has_status "error" d); reflexivity.
  - intros path. rewrite Hbodies, existsb_app, Hkeys. cbn [existsb].
    now rewrite orb_false_r.
Qed.

Section Accounting.

Variable E : env.

(** One iteration: it completes, sends the endpoint's request if the
    endpoint is one that is requested and nothing otherwise, touches
    nothing else of the object, and keeps counters and bodies in step with
    the descriptors. *)
Lemma sample_endpoint_accounts (e : endpoint_config) (v : sampling) (s : state) :
  accounted v ->
  exists v',
    sample_endpoint E e (v, s) =
    (Returned tt,
     (v', with_sent s (if is_requested E e
                       then [request_of E (session_bearer s) e]
                       else [])))
    /\ accounted v'.
Proof.
  intros Hv.
  destruct v as [found bodies ok ko last],
           s as [tok bearer store af ae log reads file].
  unfold is_requested, request_of, with_sent.
  cbn [auth_token session_bearer token_store auth_failed auth_error sent
       clock_reads token_file].
  destruct (is_auth_endpoint E (ep_path e)) eqn:Hskip; cbn [negb andb].
  - eexists. unfold sample_endpoint. rewrite Hskip, app_nil_r.
    split; [reflexivity|exact Hv].
  - unfold sample_endpoint. rewrite Hskip.
    destruct (String.eqb (ep_method e) "GET") eqn:Hget;
      [|destruct (String.eqb (ep_method e) "POST") eqn:Hpost];
      cbn [orb];
      run_iteration;
      rewrite ?app_nil_r;
      (eexists; split; [reflexivity|]);
      try match goal with
          | |- context [endpoint_config_of ?p ?m ?j] =>
              destruct (endpoint_config_of_shape p m j)
                as (ms & ts & nested & cfg & ->)
          end;
      (eapply accounted_add; [exact Hv| | |]);
      cbn [has_status endpoint_status endpoint_path String.eqb Ascii.eqb
           Bool.eqb andb];
      try lia;
      intros path; rewrite ?has_key_set_item, ?orb_false_r;
      try reflexivity; apply orb_comm.
Qed.

(** The loop. *)
Lemma sample_all_accounts (todo : list endpoint_config) :
  forall (v : sampling) (s : state),
    accounted v ->
    exists v',
      sample_all E todo (v, s) =
      (Returned tt,
       (v', with_sent s (map (request_of E (session_bearer s))
                           (filter (is_requested E) todo))))
      /\ accounted v'.
Proof.
  induction todo as [|e rest IH]; intros v s Hv.
  - exists v. cbn [sample_all filter map]. unfold with_sent.
    rewrite app_nil_r. destruct s. split; [reflexivity|exact Hv].
  - destruct (sample_endpoint_accounts e v s Hv) as (v1 & Hrun & Hv1).
    destruct (IH v1 (with_sent s (if is_requested E e
                                  then [request_of E (session_bearer s) e]
                                  else [])) Hv1)
      as (v2 & Hrest & Hv2).
    exists v2. cbn [sample_all]. unfold bind at 1. rewrite Hrun, Hrest.
    split; [|exact Hv2].
    cbn [filter]. unfold with_sent.
    cbn [auth_token session_bearer token_store auth_failed auth_error sent
         clock_reads token_file].
    destruct (is_requested E e); cbn [map]; rewrite <- app_assoc; reflexivity.
Qed.

End Accounting.

Lemma accounted_initially : accounted (Sampling [] [] 0 0 None).
Proof. repeat split. Qed.

Lemma discover_from_samples_accounts (E : env) (s : state) :
  exists v,
    _discover_from_samples E s =
    (Returned
       (SampleStructure (sampled v) (sample_bodies v)
          (Summary (List.length (configured_endpoints E))
             (successful v) (failed v))),
     with_sent s (map (request_of E (session_bearer s))
                    (filter (is_requested E) (configured_endpoints E))))
    /\ accounted v.
Proof.
  destruct (sample_all_accounts E (configured_endpoints E)
              (Sampling [] [] 0 0 None) s accounted_initially)
    as (v & Hrun & Hv).
  exists v. unfold _discover_from_samples. rewrite Hrun.
  split; [reflexivity|exact Hv].
Qed.

(** X8: sampling-driven discovery sends exactly the requests of the
    configured endpoints that are not skipped and whose method is GET or
    POST, in the order of the list and each with the session's bearer
    token, and changes nothing else: the token, the token store and its
    file, the failure marks and the clock reads stay as they were. *)
Theorem sampling_sends_exactly_the_configured_requests :
  forall (E : env) (s : state),
  exists st,
    _discover_from_samples E s =
    (Returned st,
     State (auth_token s) (session_bearer s) (token_store s) (auth_failed s)
       (auth_error s)
       (sent s
          ++ map (request_of E (session_bearer s))
               (filter
                  (fun e =>
                     negb (is_auth_endpoint E (ep_path e))
                     && (String.eqb (ep_method e) "GET"
                         || String.eqb (ep_method e) "POST"))
                  (configured_endpoints E)))
       (clock_reads s) (token_file s)).
Proof.
  intros E s.
  destruct (discover_from_samples_accounts E s) as (v & Hrun & _).
  eexists. exact Hrun.
Qed.

(** X9: in the summary of sampling-driven discovery, the count of
    successful endpoints is the number of descriptors with status ok and
    the count of failed endpoints the number of descriptors with status
    error. *)
Theorem summary_counts_the_descriptors :
  forall (E : env) (s : state),
  exists found bodies counts s',
    _discover_from_samples E s =
    (Returned (SampleStructure found bodies counts), s')
    /\ successful_endpoints counts =
       List.length
         (filter (fun d => match endpoint_status d with
                           | Some st => String.eqb st "ok"
                           | None => false
                           end) found)
    /\ failed_endpoints counts =
       List.length
         (filter (fun d => match endpoint_status d with
                           | Some st => String.eqb st "error"
                           | None => false
                           end) found).
Proof.
  intros E s.
  destruct (discover_from_samples_accounts E s) as (v & Hrun & Hok & Hko & _).
  do 4 eexists. split; [exact Hrun|].
  split; [exact Hok|exact Hko].
Qed.

(** X10: the samples kept by sampling-driven discovery have a body
    exactly for the paths of the descriptors with status ok. *)
Theorem samples_are_kept_for_ok_endpoints :
  forall (E : env) (s : state),
  exists found bodies counts s',
    _discover_from_samples E s =
    (Returned (SampleStructure found bodies counts), s')
    /\ forall path,
         has_key path bodies = true <->
         exists d, In d found
                   /\ endpoint_status d = Some "ok"
                   /\ endpoint_path d = path.
Proof.
  intros E s.
  destruct (discover_from_samples_accounts E s) as (v & Hrun & _ & _ & Hkeys).
  do 4 eexists. split; [exact Hrun|].
  intros path. rewrite Hkeys, existsb_exists. split.
  - intros (d & Hin & Hd). apply andb_true_iff in Hd. destruct Hd as [Hst Hp].
    exists d. split; [exact Hin|]. split.
    + unfold has_status in Hst.
      destruct d; cbn in Hst |- *; try discriminate; reflexivity.
    + now apply String.eqb_eq.
  - intros (d & Hin & Hst & Hp). exists d. split; [exact Hin|].
    unfold has_status. rewrite Hst, Hp, !String.eqb_refl. reflexivity.
Qed.

(** X11: an endpoint whose method is neither GET nor POST is never
    requested.  As long as no request of the loop has returned, it gets a
    descriptor with status error, for the unbound local [response], and
    counts as failed; once a request has returned, the response of that
    earlier request is read again: if it is no error and parses, the
    endpoint gets a descriptor with status ok built from the earlier body,
    which is kept as the endpoint's sample, and counts as successful. *)
Theorem other_methods_reuse_the_last_response :
  forall (E : env) (e : endpoint_config) (v : sampling) (s : state),
    is_auth_endpoint E (ep_path e) = false ->
    String.eqb (ep_method e) "GET" = false ->
    String.eqb (ep_method e) "POST" = false ->
    (last_response v = None ->
     sample_endpoint E e (v, s) =
     (Returned tt,
      (Sampling
         (sampled v ++ [SampledError (ep_path e) (ep_method e) UnboundLocalError])
         (sample_bodies v) (successful v) (S (failed v)) None,
       s)))
    /\ (forall (r : response) (data : json),
          last_response v = Some r ->
          ((400 <=? status_code r)%Z && (status_code r <? 600)%Z) = false ->
          json_body r = Some data ->
          sample_endpoint E e (v, s) =
          (Returned tt,
           (Sampling
              (sampled v ++ [endpoint_config_of (ep_path e) (ep_method e) data])
              (set_item (ep_path e) data (sample_bodies v))
              (S (successful v)) (failed v) (Some r),
            s))).
Proof.
  intros E e v s Hskip Hget Hpost.
  destruct v as [found bodies ok ko last],
           s as [tok bearer store af ae log reads file].
  cbn [last_response sampled sample_bodies successful failed].
  unfold sample_endpoint. rewrite Hskip.
  split.
  - intros ->. run_py. rewrite Hget, Hpost. run_py. reflexivity.
  - intros r data -> Hstatus Hbody. run_py. rewrite Hget, Hpost. run_py.
    rewrite Hstatus. run_py. rewrite Hbody. run_py. reflexivity.
Qed.

Lemma other_methods_reuse_the_last_response_witness :
  sample_endpoint sample_env (EndpointConfig "/reboot" "PUT")
    (Sampling [] [] 0 0 None, sample_state) =
  (Returned tt,
   (Sampling [SampledError "/reboot" "PUT" UnboundLocalError] [] 0 1 None,
    sample_state)).
Proof.
  apply (proj1 (other_methods_reuse_the_last_response sample_env
                  (EndpointConfig "/reboot" "PUT")
                  (Sampling [] [] 0 0 None) sample_state
                  eq_refl eq_refl eq_refl)).
  reflexivity.
Defined.

(** ** Specification-driven discovery *)

Lemma lowered_letter (c : ascii) :
  (Str.lower_char c = "g"%char -> Str.upper_char c = "G"%char)
  /\ (Str.lower_char c = "e"%char -> Str.upper_char c = "E"%char)
  /\ (Str.lower_char c = "t"%char -> Str.upper_char c = "T"%char)
  /\ (Str.lower_char c = "p"%char -> Str.upper_char c = "P"%char)
  /\ (Str.lower_char c = "o"%char -> Str.upper_char c = "O"%char)
  /\ (Str.lower_char c = "s"%char -> Str.upper_char c = "S"%char).
Proof.
  destruct c as [[] [] [] [] [] [] [] []];
    repeat split; vm_compute; intros H; try reflexivity; discriminate H.
Qed.

(** A method name that lowers to [get] or [post] raises to [GET] or
    [POST]. *)
Lemma accepted_method (method : string) :
  String.eqb (Str.lower method) "get" || String.eqb (Str.lower method) "post"
    = true ->
  Str.upper method = "GET" \/ Str.upper method = "POST".
Proof.
  intros H. apply orb_true_iff in H.
  destruct H as [H|H]; apply String.eqb_eq in H; [left|right].
  - destruct method as [|a [|b [|c [|d rest]]]]; try discriminate H.
    cbn in H |- *. injection H as Ha Hb Hc.
    now rewrite (proj1 (lowered_letter a) Ha),
      (proj1 (proj2 (lowered_letter b)) Hb),
      (proj1 (proj2 (proj2 (lowered_letter c))) Hc).
  - destruct method as [|a [|b [|c [|d [|x rest]]]]]; try discriminate H.
    cbn in H |- *. injection H as Ha Hb Hc Hd.
    now rewrite (proj1 (proj2 (proj2 (proj2 (lowered_letter a)))) Ha),
      (proj1 (proj2 (proj2 (proj2 (proj2 (lowered_letter b))))) Hb),
      (proj2 (proj2 (proj2 (proj2 (proj2 (lowered_letter c))))) Hc),
      (proj1 (proj2 (proj2 (lowered_letter d))) Hd).
Qed.

Lemma path_operations_methods (path : string) (path_item : obj) :
  forall (found found' : list endpoint) (s s' : state),
    Forall documented_get_or_post found ->
    path_operations path path_item found s = (Returned found', s') ->
    Forall documented_get_or_post found'.
Proof.
  induction path_item as [|[method operation] rest IH];
    intros found found' s s' Hfound Hrun; cbn [path_operations] in Hrun.
  - inversion Hrun; subst. exact Hfound.
  - destruct (String.eqb (Str.lower method) "get"
              || String.eqb (Str.lower method) "post") eqn:Hmethod;
      [|exact (IH _ _ _ _ Hfound Hrun)].
    unfold bind at 1 in Hrun.
    destruct (as_dict operation s) as [[op|e] s1]; [|discriminate Hrun].
    unfold bind at 1 in Hrun.
    destruct (as_dict (get_default "responses" (JObj []) op) s1)
      as [[responses|e] s2]; [|discriminate Hrun].
    unfold bind at 1 in Hrun.
    destruct (response_schemas responses None s2) as [[schema|e] s3];
      [|discriminate Hrun].
    refine (IH _ _ _ _ _ Hrun).
    apply Forall_app. split; [exact Hfound|].
    constructor; [|constructor].
    split; [reflexivity|]. cbn [endpoint_method].
    exact (accepted_method method Hmethod).
Qed.

Lemma documented_paths_methods (paths : obj) :
  forall (found found' : list endpoint) (s s' : state),
    Forall documented_get_or_post found ->
    documented_paths paths found s = (Returned found', s') ->
    Forall documented_get_or_post found'.
Proof.
  induction paths as [|[path item] rest IH];
    intros found found' s s' Hfound Hrun; cbn [documented_paths] in Hrun.
  - inversion Hrun; subst. exact Hfound.
  - unfold bind at 1 in Hrun.
    destruct (as_dict item s) as [[operations|e] s1]; [|discriminate Hrun].
    unfold bind at 1 in Hrun.
    destruct (path_operations path operations found s1) as [[found1|e] s2] eqn:Hops;
      [|discriminate Hrun].
    apply (IH _ _ _ _ (path_operations_methods _ _ _ _ _ _ Hfound Hops) Hrun).
Qed.

(** X12: every descriptor that specification-driven discovery returns
    has method GET or POST, in upper case, and no status: the operations
    of a path with any other method name are left out. *)
Theorem documented_endpoints_are_get_or_post :
  forall (E : env) (s s' : state) (st : api_structure),
    _discover_from_swagger E s = (Returned st, s') ->
    Forall
      (fun d => endpoint_status d = None
                /\ (endpoint_method d = "GET" \/ endpoint_method d = "POST"))
      (structure_endpoints st).
Proof.
  intros E s s' st Hrun.
  unfold _discover_from_swagger in Hrun.
  unfold bind at 1 in Hrun.
  destruct (required "swagger_url" _ s) as [[url|e] s1]; [|discriminate Hrun].
  unfold bind at 1, get_state at 1 in Hrun.
  unfold bind at 1 in Hrun.
  destruct (send E _ s1) as [[r|e] s2]; [|discriminate Hrun].
  unfold bind at 1 in Hrun.
  destruct (raise_for_status r s2) as [[[]|e] s3]; [|discriminate Hrun].
  unfold bind at 1 in Hrun.
  destruct (response_json r s3) as [[doc|e] s4]; [|discriminate Hrun].
  unfold structure_of_document in Hrun.
  unfold bind at 1 in Hrun.
  destruct (as_dict doc s4) as [[spec|e] s5]; [|discriminate Hrun].
  unfold bind at 1 in Hrun.
  destruct (as_dict (get_default "paths" (JObj []) spec) s5)
    as [[paths|e] s6]; [|discriminate Hrun].
  unfold bind at 1 in Hrun.
  destruct (documented_paths paths [] s6) as [[found|e] s7] eqn:Hpaths;
    [|discriminate Hrun].
  assert (Hfound : Forall documented_get_or_post found)
    by exact (documented_paths_methods _ _ _ _ _ (Forall_nil _) Hpaths).
  destruct (truthy (get_default "definitions" (JObj []) spec)).
  - inversion Hrun; subst. exact Hfound.
  - unfold bind at 1 in Hrun.
    destruct (as_dict (get_default "components" (JObj []) spec) s7)
      as [[components|e] s8]; [|discriminate Hrun].
    inversion Hrun; subst. exact Hfound.
Qed.

Lemma documented_endpoints_are_get_or_post_witness :
  Forall
    (fun d => endpoint_status d = None
              /\ (endpoint_method d = "GET" \/ endpoint_method d = "POST"))
    [Documented "/status" "GET" (JStr "Status") (JArr []) (JArr [])
       (Some (JObj [("type", JStr "object")]))].
Proof.
  apply (documented_endpoints_are_get_or_post documenting_env sample_state
           (with_sent sample_state
              [specification_request "http://device/swagger.json" sample_state])
           (SwaggerStructure
              [Documented "/status" "GET" (JStr "Status") (JArr []) (JArr [])
                 (Some (JObj [("type", JStr "object")]))]
              (JObj [("Status", JObj [])]))).
  reflexivity.
Defined.

(** X13: a specification that parses as an object with no paths, or with
    an empty [paths] object, and without [components] is no failure:
    [discover] returns a structure with an empty endpoint list, having sent
    the one request for the specification, and does not fall back to
    sampling. *)
Theorem specification_without_paths_yields_no_endpoints :
  forall (E : env) (s : state) (url : string) (r : response) (spec : obj),
    auth_failed s = false ->
    swagger_url (api (device_config E)) = Some url ->
    transport E (sent s) (specification_request url s) = Answered r ->
    ((400 <=? status_code r)%Z && (status_code r <? 600)%Z) = false ->
    json_body r = Some (JObj spec) ->
    get_default "paths" (JObj []) spec = JObj [] ->
    lookup "components" spec = None ->
    discover E s =
    (Returned
       (SwaggerStructure []
          (if truthy (get_default "definitions" (JObj []) spec)
           then get_default "definitions" (JObj []) spec
           else JObj [])),
     with_sent s [specification_request url s]).
Proof.
  intros E s url r spec Hauth Hurl Hnet Hstatus Hbody Hpaths Hcomp.
  destruct s as [tok bearer store af ae log reads file].
  unfold specification_request, with_sent in *.
  cbn [auth_failed sent session_bearer auth_token token_store auth_error
       clock_reads token_file] in *.
  subst af.
  unfold discover, _discover_from_swagger, required, structure_of_document.
  rewrite Hurl.
  cbv beta iota zeta delta
    [bind get_state ret try_except send raise_for_status response_json
     as_dict auth_failed session_bearer sent auth_token token_store
     auth_error clock_reads token_file].
  rewrite Hnet. cbv beta iota. rewrite Hstatus. cbv beta iota.
  rewrite Hbody. cbv beta iota. rewrite Hpaths. cbv beta iota.
  cbn [documented_paths]. cbv beta iota delta [ret].
  destruct (truthy (get_default "definitions" (JObj []) spec)); [reflexivity|].
  unfold get_default at 1. rewrite Hcomp. reflexivity.
Qed.

Lemma specification_without_paths_yields_no_endpoints_witness :
  discover bare_env sample_state =
  (Returned (SwaggerStructure [] (JObj [])),
   with_sent sample_state
     [specification_request "http://device/swagger.json" sample_state]).
Proof.
  apply (specification_without_paths_yields_no_endpoints bare_env sample_state
           "http://device/swagger.json"
           (Response 200 (Some (JObj [("openapi", JStr "3.0.0")]))
              (Some "application/json"))
           [("openapi", JStr "3.0.0")]); reflexivity.
Defined.

Lemma response_schemas_app (before after : obj) :
  forall (schema : option json) (s : state),
    response_schemas (before ++ after) schema s =
    bind (response_schemas before schema)
      (fun kept => response_schemas after kept) s.
Proof.
  induction before as [|[status spec] rest IH]; intros schema s;
    cbn [app response_schemas].
  - reflexivity.
  - destruct (Str.startswith "2" status); [|apply IH].
    unfold bind in *.
    destruct (schema_of_response spec s) as [[found|e] s1]; [|reflexivity].
    apply IH.
Qed.

(** X14: of the responses of an operation, a later one wins: when a
    response whose status starts with 2 has a schema, the schema kept after
    it is that one, whatever schema the responses before it had. *)
Theorem later_success_schema_replaces_earlier :
  forall (before after : obj) (status : string) (response_spec : obj)
         (schema : json) (initial kept : option json) (s : state),
    response_schemas before initial s = (Returned kept, s) ->
    Str.startswith "2" status = true ->
    lookup "schema" response_spec = Some schema ->
    response_schemas (before ++ (status, JObj response_spec) :: after)
      initial s =
    response_schemas after (Some schema) s.
Proof.
  intros before after status response_spec schema initial kept s
    Hbefore Hstatus Hschema.
  rewrite response_schemas_app. unfold bind at 1. rewrite Hbefore.
  cbn [response_schemas]. rewrite Hstatus.
  unfold bind, schema_of_response, ret. rewrite Hschema. reflexivity.
Qed.

Lemma later_success_schema_replaces_earlier_witness :
  response_schemas
    ([("200", JObj [("schema", JStr "first")])]
       ++ ("201", JObj [("schema", JStr "second")]) :: [("404", JObj [])])
    None sample_state =
  response_schemas [("404", JObj [])] (Some (JStr "second")) sample_state.
Proof.
  apply (later_success_schema_replaces_earlier
           [("200", JObj [("schema", JStr "first")])] [("404", JObj [])]
           "201" [("schema", JStr "second")] (JStr "second")
           None (Some (JStr "first")) sample_state); reflexivity.
Defined.

(** ** Authentication setup *)

(** Running the statements of the form-based login. *)
Ltac run_login :=
  cbv beta iota zeta delta
    [_get_auth_token try_except bind required ret raise get_state on_state
     send raise_for_status response_json login_payload keep_login_token
     object basic_auth exported payload_in_config
     auth_token session_bearer token_store auth_failed auth_error sent
     clock_reads token_file].

Ltac login_cases :=
  run_login;
  repeat (match goal with
          | |- context [match username ?a with _ => _ end] =>
              destruct (username a) eqn:?
          | |- context [match password ?a with _ => _ end] =>
              destruct (password a) eqn:?
          | |- context [match auth_endpoint ?a with _ => _ end] =>
              destruct (auth_endpoint a) eqn:?
          | |- context [match transport ?F ?h ?r with _ => _ end] =>
              destruct (transport F h r) eqn:?
          | |- context [match json_body ?r with _ => _ end] =>
              destruct (json_body r) eqn:?
          | |- context [if ?b then _ else _] => destruct b eqn:?
          | |- context [match ?p with Some _ => _ | None => _ end] =>
              destruct p eqn:?
          | |- context [match ?j with JNull => _ | _ => _ end] =>
              destruct j eqn:?
          end; run_login).

(** The form-based login touches neither the failure marks nor the token
    store, sets no basic credentials, and sends one request at most. *)
Lemma get_auth_token_keeps (E : env) (C : login_config) (x : session) :
  let x' := snd (_get_auth_token E C x) in
  fst (_get_auth_token E C x) = Returned tt
  /\ auth_failed (object x') = auth_failed (object x)
  /\ auth_error (object x') = auth_error (object x)
  /\ token_store (object x') = token_store (object x)
  /\ token_file (object x') = token_file (object x)
  /\ clock_reads (object x') = clock_reads (object x)
  /\ basic_auth x' = basic_auth x
  /\ (sent (object x') = sent (object x)
      \/ exists r, sent (object x') = sent (object x) ++ [r]).
Proof.
  destruct x as [[tok bearer store af ae log reads file] basic vars payload].
  login_cases; cbn [fst snd]; repeat split;
    try (now left); try (right; eexists; reflexivity).
Qed.

Lemma endswith_app (a b : string) : Str.endswith b (a ++ b) = true.
Proof.
  induction a as [|c a IH]; cbn [String.append].
  - destruct b; cbn [Str.endswith]; now rewrite String.eqb_refl.
  - cbn [Str.endswith]. rewrite IH.
    now destruct (String.eqb b (String c (a ++ b))).
Qed.

Lemma length_app_string (a b : string) :
  String.length (a ++ b) = String.length a + String.length b.
Proof.
  induction a as [|c a IH]; cbn [String.append String.length];
    [reflexivity|now rewrite IH].
Qed.

Lemma substring_app (a b : string) :
  String.substring 0 (String.length a) (a ++ b) = a.
Proof.
  induction a as [|c a IH]; cbn [String.append String.length String.substring].
  - destruct b; reflexivity.
  - now rewrite IH.
Qed.

(** A reference [${var}] names the variable [var]. *)
Lemma reference_names_variable (var : string) :
  Str.startswith "${" ("${" ++ var ++ "}") = true
  /\ Str.endswith "}" ("${" ++ var ++ "}") = true
  /\ Str.slice_2_m1 ("${" ++ var ++ "}") = var.
Proof.
  split; [|split].
  - unfold Str.startswith. cbn. destruct (var ++ "}")%string; reflexivity.
  - apply (endswith_app ("${" ++ var) "}").
  - unfold Str.slice_2_m1. cbn [String.append String.length].
    rewrite length_app_string. cbn [String.length].
    replace (S (S (String.length var + 1)) - 3) with (String.length var) by lia.
    cbn [String.substring]. apply substring_app.
Qed.

Lemma resolve_required_unset (E : env) (var : string) :
  environ E var = None \/ environ E var = Some "" ->
  resolve_required E ("${" ++ var ++ "}") =
  inl (ValueError ("Environment variable " ++ var ++ " not set or empty")).
Proof.
  intros Hvar. unfold resolve_required.
  destruct (reference_names_variable var) as (-> & -> & ->). cbn [andb].
  destruct Hvar as [->| ->]; reflexivity.
Qed.

(** What construction records when an exception leaves [_setup_auth]. *)
Lemma setup_failure_recorded :
  forall (E : env) (C : login_config) (depth : nat) (w : state)
         (e : setup_exn) (x : session),
    _setup_auth E C depth (Session (new_session w) None [] (auth_payload C)) =
      (Some e, x) ->
    (exists prefix,
        auth_error (object x) = Some (prefix ++ str_of e)%string
        /\ Str.endswith " setup failed: " prefix = true)
    /\ auth_failed (object (__init__ E C depth w)) = true
    /\ auth_error (object (__init__ E C depth w)) = Some (str_of e)
    /\ sent (object (__init__ E C depth w)) = sent w.
Proof.
  intros E C depth w e x Hsetup.
  unfold __init__. rewrite Hsetup.
  cbn [object auth_failed auth_error sent].
  unfold _setup_auth, setup_failed in Hsetup.
  cbn [object new_session auth_token session_bearer token_store auth_failed
       auth_error sent clock_reads token_file basic_auth exported
       payload_in_config] in Hsetup.
  repeat match type of Hsetup with
         | (if ?b then _ else _) = _ => destruct b
         | match ?o with _ => _ end = _ => destruct o
         end;
    inversion Hsetup; subst; cbn [object auth_error sent];
    (split;
     [first [exists "Basic auth setup failed: "; split; reflexivity
            |exists "Bearer token setup failed: "; split; reflexivity
            |exists "Token auth setup failed: "; split; reflexivity]|]);
    repeat split.
Qed.

(** X15: whenever an exception leaves [_setup_auth], the object is
    marked [auth_failed], and the error it ends up with is the text of the
    exception alone: the text with the prefix "... setup failed: " that
    [_setup_auth] records before raising again is replaced by
    [__init__]. *)
Theorem construction_records_the_bare_exception_text :
  forall (E : env) (C : login_config) (depth : nat) (w : state)
         (e : setup_exn) (x : session),
    _setup_auth E C depth (Session (new_session w) None [] (auth_payload C)) =
      (Some e, x) ->
    (exists prefix,
        auth_error (object x) = Some (prefix ++ str_of e)%string
        /\ Str.endswith " setup failed: " prefix = true)
    /\ auth_failed (object (__init__ E C depth w)) = true
    /\ auth_error (object (__init__ E C depth w)) = Some (str_of e)
    /\ sent (object (__init__ E C depth w)) = sent w.
Proof. exact setup_failure_recorded. Qed.

Lemma construction_records_the_bare_exception_text_witness :
  auth_failed (object (__init__ basic_env no_login_config 0 sample_state)) = true
  /\ auth_error (object (__init__ basic_env no_login_config 0 sample_state)) =
     Some "Environment variable DEVICE_PW not set or empty".
Proof.
  destruct (construction_records_the_bare_exception_text
              basic_env no_login_config 0 sample_state
              (ValueError "Environment variable DEVICE_PW not set or empty")
              (Session
                 (State None None [] true
                    (Some "Basic auth setup failed: Environment variable DEVICE_PW not set or empty")
                    [] 0 Missing)
                 None [] None)
              eq_refl)
    as (_ & Hfailed & Herror & _).
  split; [exact Hfailed|exact Herror].
Defined.

(** X16: with basic authentication whose password, or bearer
    authentication whose token, is a [${VAR}] reference to a variable that
    is unset or empty, the object is marked [auth_failed] without any
    request, and [discover] returns the structure with no endpoints and
    the error "Environment variable VAR not set or empty", again without
    any request. *)
Theorem unset_variable_fails_authentication :
  forall (E : env) (C : login_config) (depth : nat) (w : state)
         (var : string),
    (self_auth_type E = "basic"
     /\ username (api (device_config E)) <> None
     /\ password (api (device_config E)) = Some ("${" ++ var ++ "}")%string)
    \/ (self_auth_type E = "bearer"
        /\ token C = Some ("${" ++ var ++ "}")%string) ->
    environ E var = None \/ environ E var = Some "" ->
    let x := __init__ E C depth w in
    auth_failed (object x) = true
    /\ sent (object x) = sent w
    /\ discover E (object x) =
       (Returned
          (AuthFailedStructure
             (Some ("Environment variable " ++ var ++ " not set or empty")%string)),
        object x).
Proof.
  intros E C depth w var Hconfig Hvar x.
  assert (Hsetup :
            exists x1,
              _setup_auth E C depth
                (Session (new_session w) None [] (auth_payload C)) =
              (Some (ValueError
                       ("Environment variable " ++ var ++ " not set or empty")),
               x1)).
  { unfold _setup_auth.
    destruct Hconfig as [(Htype & Huser & Hpass)|(Htype & Htoken)];
      rewrite Htype; cbn [String.eqb Ascii.eqb Bool.eqb].
    - destruct (username (api (device_config E))); [|congruence].
      rewrite Hpass, (resolve_required_unset E var Hvar).
      eexists. reflexivity.
    - rewrite Htoken, (resolve_required_unset E var Hvar).
      eexists. reflexivity. }
  destruct Hsetup as [x1 Hsetup].
  destruct (setup_failure_recorded E C depth w _ x1 Hsetup)
    as (_ & Hfailed & Herror & Hsent).
  fold x in Hfailed, Herror, Hsent.
  split; [exact Hfailed|]. split; [exact Hsent|].
  unfold discover, bind, get_state. rewrite Hfailed, Herror. reflexivity.
Qed.

Lemma unset_variable_fails_authentication_witness :
  discover basic_env
    (object (__init__ basic_env no_login_config 0 sample_state)) =
  (Returned
     (AuthFailedStructure
        (Some "Environment variable DEVICE_PW not set or empty")),
   object (__init__ basic_env no_login_config 0 sample_state)).
Proof.
  apply (unset_variable_fails_authentication basic_env no_login_config 0
           sample_state "DEVICE_PW").
  - left. repeat split. discriminate.
  - left. reflexivity.
Defined.

(** X17: token authentication without an [auth_endpoint] marks the
    object [auth_failed] with the error "Missing auth_endpoint
    configuration", and neither the construction nor [discover] sends a
    request. *)
Theorem missing_auth_endpoint_fails_authentication :
  forall (E : env) (C : login_config) (depth : nat) (w : state),
    self_auth_type E = "token_from_auth" ->
    auth_endpoint (api (device_config E)) = None ->
    let x := __init__ E C depth w in
    auth_error (object x) = Some "Missing auth_endpoint configuration"
    /\ discover E (object x) =
       (Returned
          (AuthFailedStructure (Some "Missing auth_endpoint configuration")),
        object x)
    /\ sent (object x) = sent w.
Proof.
  intros E C depth w Htype Hnone x. subst x.
  unfold __init__, _setup_auth, setup_failed.
  rewrite Htype, Hnone. cbn [String.eqb Ascii.eqb Bool.eqb].
  cbn [object new_session auth_error sent].
  repeat split.
Qed.

Lemma missing_auth_endpoint_fails_authentication_witness :
  discover endpointless_env
    (object (__init__ endpointless_env no_login_config 0 sample_state)) =
  (Returned
     (AuthFailedStructure (Some "Missing auth_endpoint configuration")),
   object (__init__ endpointless_env no_login_config 0 sample_state)).
Proof.
  apply (missing_auth_endpoint_fails_authentication endpointless_env
           no_login_config 0 sample_state); reflexivity.
Defined.

Lemma discover_from_swagger_shape (E : env) (s s' : state) (st : api_structure) :
  _discover_from_swagger E s = (Returned st, s') ->
  exists found models, st = SwaggerStructure found models.
Proof.
  intros Hrun.
  unfold _discover_from_swagger in Hrun.
  unfold bind at 1 in Hrun.
  destruct (required "swagger_url" _ s) as [[url|e] s1]; [|discriminate Hrun].
  unfold bind at 1, get_state at 1 in Hrun.
  unfold bind at 1 in Hrun.
  destruct (send E _ s1) as [[r|e] s2]; [|discriminate Hrun].
  unfold bind at 1 in Hrun.
  destruct (raise_for_status r s2) as [[[]|e] s3]; [|discriminate Hrun].
  unfold bind at 1 in Hrun.
  destruct (response_json r s3) as [[doc|e] s4]; [|discriminate Hrun].
  unfold structure_of_document in Hrun.
  unfold bind at 1 in Hrun.
  destruct (as_dict doc s4) as [[spec|e] s5]; [|discriminate Hrun].
  unfold bind at 1 in Hrun.
  destruct (as_dict (get_default "paths" (JObj []) spec) s5)
    as [[paths|e] s6]; [|discriminate Hrun].
  unfold bind at 1 in Hrun.
  destruct (documented_paths paths [] s6) as [[found|e] s7];
    [|discriminate Hrun].
  destruct (truthy (get_default "definitions" (JObj []) spec)).
  - inversion Hrun; subst. do 2 eexists. reflexivity.
  - unfold bind at 1 in Hrun.
    destruct (as_dict (get_default "components" (JObj []) spec) s7)
      as [[components|e] s8]; [|discriminate Hrun].
    inversion Hrun; subst. do 2 eexists. reflexivity.
Qed.

(** [discover] on an object that is not marked never returns the
    auth-failure structure. *)
Lemma unmarked_object_is_discovered (E : env) (s : state) :
  auth_failed s = false ->
  forall error, fst (discover E s) <> Returned (AuthFailedStructure error).
Proof.
  intros Hauth error. unfold discover, bind, get_state. rewrite Hauth.
  assert (Hsamples : forall s0,
             fst (_discover_from_samples E s0) <>
             Returned (AuthFailedStructure error)).
  { intros s0.
    destruct (discover_from_samples_completes E s0)
      as (found & bodies & ok & ko & s' & Hrun & _).
    rewrite Hrun. discriminate. }
  destruct (swagger_url (api (device_config E))) as [url|]; [|apply Hsamples].
  unfold try_except.
  destruct (_discover_from_swagger E s) as [[st|e] s1] eqn:Hrun;
    [|apply Hsamples].
  destruct (discover_from_swagger_shape E s s1 st Hrun) as (found & models & ->).
  discriminate.
Qed.

(** X18: with token authentication and an [auth_endpoint] configured, no
    failure of the login marks the object, whether the login is the
    OpenID-Connect flow or the form-based one and whatever the device
    answers: after construction [auth_failed] is false and there is no
    error, and [discover] never returns the auth-failure structure. *)
Theorem token_login_never_marks_the_device :
  forall (E : env) (C : login_config) (depth : nat) (w : state),
    self_auth_type E = "token_from_auth" ->
    auth_endpoint (api (device_config E)) <> None ->
    let x := __init__ E C depth w in
    auth_failed (object x) = false
    /\ auth_error (object x) = None
    /\ forall error,
         fst (discover E (object x)) <> Returned (AuthFailedStructure error).
Proof.
  intros E C depth w Htype Hendpoint x.
  assert (Hmarks : auth_failed (object x) = false /\ auth_error (object x) = None).
  { subst x. unfold __init__, _setup_auth. rewrite Htype.
    cbn [String.eqb Ascii.eqb Bool.eqb].
    destruct (auth_endpoint (api (device_config E))); [|congruence].
    destruct (match auth_type_extension (api (device_config E)) with
              | Some extension => String.eqb extension "openid_connect"
              | None => false
              end).
    - unfold on_state. cbn [object].
      destruct (get_openid_token_keeps E (S depth) (new_session w))
        as [Hsame|(Hf & He & _)].
      + destruct (_get_openid_token E (S depth) (new_session w)) as [o s'].
        cbn [snd object] in *. subst s'. split; reflexivity.
      + destruct (_get_openid_token E (S depth) (new_session w)) as [o s'].
        cbn [snd object] in *. split; [exact Hf|exact He].
    - destruct (get_auth_token_keeps E C
                  (Session (new_session w) None [] (auth_payload C)))
        as (_ & Hf & He & _).
      split; [exact Hf|exact He]. }
  destruct Hmarks as [Hf He].
  split; [exact Hf|]. split; [exact He|].
  apply unmarked_object_is_discovered. exact Hf.
Qed.

Lemma token_login_never_marks_the_device_witness :
  auth_failed (object (__init__ form_env no_login_config 0 sample_state)) = false
  /\ sent (object (__init__ form_env no_login_config 0 sample_state)) =
     [Request "POST" (JStr "http://device/login")
        (JsonBody (JObj [("username", JStr "admin");
                         ("password", JStr "secret")]))
        None].
Proof.
  split.
  - apply (token_login_never_marks_the_device form_env no_login_config 0
             sample_state); [reflexivity|discriminate].
  - reflexivity.
Defined.

(** X19: the form-based login with the default payload, answered with a
    status that is no error and a JSON body that has a non-empty string at
    the token path which the environment accepts: the string becomes the
    object's token and the session's bearer token and is exported as
    [DEVICE_<NAME>_TOKEN]; nothing else changes but the request sent. *)
Theorem form_login_keeps_and_exports_the_token :
  forall (E : env) (C : login_config) (x : session)
         (user pass endpoint : string) (r : response) (data : json)
         (t : string),
    username (api (device_config E)) = Some user ->
    password (api (device_config E)) = Some pass ->
    auth_endpoint (api (device_config E)) = Some endpoint ->
    payload_in_config x = None ->
    let request :=
      form_login_request (with_default "POST" (auth_method C))
        (Str.join_url (base_url (api (device_config E))) endpoint)
        [("username", JStr user); ("password", JStr (resolve_password E pass))]
        (session_bearer (object x)) in
    transport E (sent (object x)) request = Answered r ->
    ((400 <=? status_code r)%Z && (status_code r <? 600)%Z) = false ->
    json_body r = Some data ->
    _extract_nested_value data (with_default "token" (token_path C)) = JStr t ->
    t <> "" ->
    environ_accepts (token_env_var E) t = true ->
    _get_auth_token E C x =
    (Returned tt,
     Session
       (State (Some (JStr t)) (Some (JStr t)) (token_store (object x))
          (auth_failed (object x)) (auth_error (object x))
          (sent (object x) ++ [request]) (clock_reads (object x))
          (token_file (object x)))
       (basic_auth x) ((token_env_var E, t) :: exported x) None).
Proof.
  intros E C x user pass endpoint r data t Huser Hpass Hend Hpayload request
    Hnet Hstatus Hbody Htoken Hnonempty Haccepts.
  subst request.
  destruct x as [[tok bearer store af ae log reads file] basic vars payload].
  cbn [object payload_in_config session_bearer sent token_store auth_failed
       auth_error clock_reads token_file basic_auth exported] in *.
  subst payload.
  run_login. rewrite Huser, Hpass, Hend. run_login.
  cbn [truthy negb]. run_login.
  rewrite Hnet. run_login. rewrite Hstatus. run_login.
  rewrite Hbody. run_login. rewrite Htoken.
  cbn [truthy].
  destruct (String.eqb_spec t ""); [congruence|]. cbn [negb].
  rewrite Haccepts. reflexivity.
Qed.

(** X20: when the value at the token path is not a string but counts as
    true, a number for one, the form-based login keeps it as the object's
    token, yet the session gets no bearer token and nothing is
    exported. *)
Theorem form_login_with_a_token_that_is_no_string :
  forall (E : env) (C : login_config) (x : session)
         (user pass endpoint : string) (r : response) (data found : json),
    username (api (device_config E)) = Some user ->
    password (api (device_config E)) = Some pass ->
    auth_endpoint (api (device_config E)) = Some endpoint ->
    payload_in_config x = None ->
    let request :=
      form_login_request (with_default "POST" (auth_method C))
        (Str.join_url (base_url (api (device_config E))) endpoint)
        [("username", JStr user); ("password", JStr (resolve_password E pass))]
        (session_bearer (object x)) in
    transport E (sent (object x)) request = Answered r ->
    ((400 <=? status_code r)%Z && (status_code r <? 600)%Z) = false ->
    json_body r = Some data ->
    _extract_nested_value data (with_default "token" (token_path C)) = found ->
    truthy found = true ->
    (forall t, found <> JStr t) ->
    _get_auth_token E C x =
    (Returned tt,
     Session
       (State (Some found) (session_bearer (object x)) (token_store (object x))
          (auth_failed (object x)) (auth_error (object x))
          (sent (object x) ++ [request]) (clock_reads (object x))
          (token_file (object x)))
       (basic_auth x) (exported x) None).
Proof.
  intros E C x user pass endpoint r data found Huser Hpass Hend Hpayload
    request Hnet Hstatus Hbody Htoken Htrue Hshape.
  subst request.
  destruct x as [[tok bearer store af ae log reads file] basic vars payload].
  cbn [object payload_in_config session_bearer sent token_store auth_failed
       auth_error clock_reads token_file basic_auth exported] in *.
  subst payload.
  run_login. rewrite Huser, Hpass, Hend. run_login.
  cbn [truthy negb]. run_login.
  rewrite Hnet. run_login. rewrite Hstatus. run_login.
  rewrite Hbody. run_login. rewrite Htoken, Htrue.
  destruct found; try reflexivity. now elim (Hshape s).
Qed.

(** X21: with a configured [auth_payload] that is a non-empty
    dictionary, the form-based login sends the payload with every value
    [{{username}}] or [{{password}}] replaced by the credentials, the
    other members as they are, and leaves the configuration holding the
    payload with the credentials filled in, whatever the device
    answers. *)
Theorem form_login_fills_the_configured_payload :
  forall (E : env) (C : login_config) (x : session)
         (user pass endpoint : string) (members : obj),
    username (api (device_config E)) = Some user ->
    password (api (device_config E)) = Some pass ->
    auth_endpoint (api (device_config E)) = Some endpoint ->
    payload_in_config x = Some (JObj members) ->
    members <> [] ->
    let filled := fill_placeholders user (resolve_password E pass) members in
    let x' := snd (_get_auth_token E C x) in
    sent (object x') =
      sent (object x)
        ++ [form_login_request (with_default "POST" (auth_method C))
              (Str.join_url (base_url (api (device_config E))) endpoint)
              filled (session_bearer (object x))]
    /\ payload_in_config x' = Some (JObj filled)
    /\ List.length filled = List.length members
    /\ map fst filled = map fst members.
Proof.
  intros E C x user pass endpoint members Huser Hpass Hend Hpayload Hmembers
    filled x'.
  subst filled x'.
  destruct x as [[tok bearer store af ae log reads file] basic vars payload].
  cbn [object payload_in_config session_bearer sent] in *.
  subst payload.
  split; [|split; [|split]].
  - run_login. rewrite Huser, Hpass, Hend. run_login.
    destruct members as [|m rest]; [congruence|]. cbn [truthy negb].
    login_cases; reflexivity.
  - run_login. rewrite Huser, Hpass, Hend. run_login.
    destruct members as [|m rest]; [congruence|]. cbn [truthy negb].
    login_cases; reflexivity.
  - unfold fill_placeholders. apply length_map.
  - unfold fill_placeholders. rewrite map_map. apply map_ext.
    intros [key value]. destruct value; try reflexivity.
    destruct (String.eqb s "{{username}}"); [reflexivity|].
    destruct (String.eqb s "{{password}}"); reflexivity.
Qed.

Lemma form_login_keeps_and_exports_the_token_witness :
  _get_auth_token (login_env (JStr "abc")) no_login_config fresh_session =
  (Returned tt,
   Session
     (State (Some (JStr "abc")) (Some (JStr "abc")) [] false None
        [Request "POST" (JStr "http://device/login")
           (JsonBody (JObj [("username", JStr "admin");
                            ("password", JStr "secret")]))
           None]
        0 Missing)
     None [("DEVICE_DEVICE_TOKEN", "abc")] None).
Proof.
  apply (form_login_keeps_and_exports_the_token (login_env (JStr "abc"))
           no_login_config fresh_session "admin" "secret" "/login"
           (Response 200 (Some (JObj [("token", JStr "abc")]))
              (Some "application/json"))
           (JObj [("token", JStr "abc")]) "abc");
    try reflexivity.
  discriminate.
Defined.

Lemma form_login_with_a_token_that_is_no_string_witness :
  _get_auth_token (login_env (JInt 42)) no_login_config fresh_session =
  (Returned tt,
   Session
     (State (Some (JInt 42)) None [] false None
        [Request "POST" (JStr "http://device/login")
           (JsonBody (JObj [("username", JStr "admin");
                            ("password", JStr "secret")]))
           None]
        0 Missing)
     None [] None).
Proof.
  apply (form_login_with_a_token_that_is_no_string (login_env (JInt 42))
           no_login_config fresh_session "admin" "secret" "/login"
           (Response 200 (Some (JObj [("token", JInt 42)]))
              (Some "application/json"))
           (JObj [("token", JInt 42)]) (JInt 42));
    try reflexivity.
  intros t. discriminate.
Defined.

Lemma form_login_fills_the_configured_payload_witness :
  payload_in_config
    (snd (_get_auth_token form_env no_login_config templated_session)) =
  Some (JObj [("user", JStr "admin"); ("pass", JStr "secret");
              ("realm", JStr "local")]).
Proof.
  apply (form_login_fills_the_configured_payload form_env no_login_config
           templated_session "admin" "secret" "/login"
           [("user", JStr "{{username}}"); ("pass", JStr "{{password}}");
            ("realm", JStr "local")]);
    try reflexivity.
  discriminate.
Defined.

(** ** The analyzer and the depth check: arrays, types and prefixes *)

Lemma same_depth_plug (v w : json) :
  same_depth v w -> forall c, same_depth (plug c v) (plug c w).
Proof.
  intros Hvw c.
  induction c as [|before key inner IH after|before inner IH after];
    intros max_depth d; cbn [plug].
  - apply Hvw.
  - cbn [check_depth]. destruct (max_depth <=? d)%nat; [reflexivity|].
    rewrite !existsb_app. cbn [existsb snd]. now rewrite IH.
  - destruct before as [|b0 before']; cbn [app check_depth];
      destruct (max_depth <=? d)%nat; try reflexivity.
    apply IH.
Qed.

Lemma later_elements_alike (first : json) (others others' : list json) :
  alike (JArr (first :: others)) (JArr (first :: others'))
  /\ same_depth (JArr (first :: others)) (JArr (first :: others')).
Proof.
  split; [split|].
  - intros prefix. now rewrite !analyze_array.
  - intros prefix key. cbn [member_analysis]. now rewrite !analyze_array.
  - intros max_depth d. reflexivity.
Qed.

(** X22: the elements of an array after the first never matter, at
    whatever depth the array sits: changing them changes neither the
    Metrics and Tags of the analyzer nor the answer of the deep-nesting
    check. *)
Theorem later_array_elements_never_matter :
  forall (c : context) (prefix : string) (first : json)
         (others others' : list json) (max_depth : nat),
    _analyze_json_structure (plug c (JArr (first :: others))) prefix =
    _analyze_json_structure (plug c (JArr (first :: others'))) prefix
    /\ _is_deeply_nested (plug c (JArr (first :: others))) max_depth =
       _is_deeply_nested (plug c (JArr (first :: others'))) max_depth.
Proof.
  intros c prefix first others others' max_depth.
  destruct (later_elements_alike first others others') as [Halike Hdepth].
  split.
  - apply (alike_plug _ _ Halike c).
  - pose proof (same_depth_plug _ _ Hdepth c max_depth 0) as Hcheck.
    destruct c as [|before key inner after|before inner after]; cbn [plug] in *.
    + reflexivity.
    + unfold _is_deeply_nested.
      destruct before as [|b0 before']; cbn [app]; exact Hcheck.
    + unfold _is_deeply_nested.
      destruct before as [|b0 before']; cbn [app]; exact Hcheck.
Qed.

Lemma prefix_app (p x : string) : String.prefix p (p ++ x) = true.
Proof.
  induction p as [|c p IH]; cbn [String.append String.prefix].
  - destruct x; reflexivity.
  - destruct (ascii_dec c c); [exact IH|congruence].
Qed.

Lemma prefix_trans (a : string) :
  forall b c,
    String.prefix a b = true -> String.prefix b c = true ->
    String.prefix a c = true.
Proof.
  induction a as [|x a IH]; intros b c Hab Hbc.
  - destruct c; reflexivity.
  - destruct b as [|y b]; [discriminate Hab|].
    destruct c as [|z c]; [discriminate Hbc|].
    cbn [String.prefix] in *.
    destruct (ascii_dec x y) as [->|]; [|discriminate Hab].
    destruct (ascii_dec y z) as [->|]; [|discriminate Hbc].
    apply (IH b c Hab Hbc).
Qed.

Lemma member_path_prefix (prefix key : string) :
  String.prefix prefix (member_path prefix key) = true.
Proof.
  unfold member_path. destruct (String.eqb_spec prefix "") as [->|_].
  - destruct key; reflexivity.
  - apply prefix_app.
Qed.

(** X23: every Metric the analyzer reports has type int or float, and
    the path of every Metric and of every Tag begins with the prefix the
    analysis was started with. *)
Theorem reported_types_and_paths :
  forall (data : json) (prefix : string),
    Forall (fun m => (metric_type m = "int" \/ metric_type m = "float")
                     /\ String.prefix prefix (metric_path m) = true)
      (fst (_analyze_json_structure data prefix))
    /\ Forall (fun t => String.prefix prefix (tag_path t) = true)
         (snd (_analyze_json_structure data prefix)).
Proof.
  induction data as [| | | | |items IH|members IH] using json_nested_ind;
    intros prefix; try (split; constructor).
  - destruct items as [|first others]; [split; constructor|].
    rewrite analyze_array. inversion IH as [|? ? Hfirst _]; subst.
    destruct (Hfirst (prefix ++ "[*]")%string) as [Hm Ht].
    split; (eapply Forall_impl; [|eassumption]); cbn beta.
    + intros m [Hty Hp]. split; [exact Hty|].
      apply (prefix_trans _ _ _ (prefix_app prefix "[*]") Hp).
    + intros t Hp. apply (prefix_trans _ _ _ (prefix_app prefix "[*]") Hp).
  - rewrite analyze_object. cbn [fst snd].
    split; apply Forall_flat_map; rewrite Forall_forall in IH |- *;
      intros [key value] Hin; specialize (IH _ Hin); cbn [snd] in IH;
      unfold member_metrics, member_tags, member_analysis;
      pose proof (member_path_prefix prefix key) as Hpath;
      destruct value; cbn [fst snd];
      try (constructor; [|constructor]); cbn [metric_type metric_path tag_path];
      auto;
      try (destruct (IH (member_path prefix key)) as [Hm Ht];
           (eapply Forall_impl; [|eassumption]); cbn beta;
           first [intros m [Hty Hp]; split; [exact Hty|];
                  apply (prefix_trans _ _ _ Hpath Hp)
                 |intros t Hp; apply (prefix_trans _ _ _ Hpath Hp)]);
      try (destruct (String.length s <? 80)%nat; cbn [fst snd];
           constructor; auto).
Qed.

(** ** Generated Telegraf configuration *)

Example agent_section_is_removed :
  remove_conflicting_sections
    (join_lines ["# device"; "[agent]"; "  round_interval = true"; "[[inputs.http]]";
                 "  urls = []"; "[[outputs.file]]"; "  files = []"]) =
  join_lines ["# device"; "[[inputs.http]]"; "  urls = []"].
Proof. reflexivity. Qed.

Lemma split_lines_not_nil (config : string) : split_lines config <> [].
Proof.
  destruct config as [|c rest]; cbn [split_lines]; [discriminate|].
  destruct (Ascii.eqb c newline); [discriminate|].
  destruct (split_lines rest); discriminate.
Qed.

Lemma split_lines_are_lines (config : string) :
  Forall is_line (split_lines config).
Proof.
  induction config as [|c rest IH]; cbn [split_lines].
  - constructor; [reflexivity|constructor].
  - destruct (Ascii.eqb c newline) eqn:Hc.
    + constructor; [reflexivity|exact IH].
    + pose proof (split_lines_not_nil rest) as Hne.
      destruct (split_lines rest) as [|first others]; [congruence|].
      inversion IH as [|? ? Hfirst Hothers]; subst.
      constructor; [|exact Hothers].
      unfold is_line in *. cbn [has_char].
      rewrite Ascii.eqb_sym in Hc. now rewrite Hc.
Qed.

Lemma join_split_lines (config : string) :
  join_lines (split_lines config) = config.
Proof.
  induction config as [|c rest IH]; cbn [split_lines].
  - reflexivity.
  - pose proof (split_lines_not_nil rest) as Hne.
    destruct (Ascii.eqb_spec c newline) as [->|Hc].
    + destruct (split_lines rest) as [|first others]; [congruence|].
      cbn [join_lines String.append] in *. now rewrite IH.
    + destruct (split_lines rest) as [|first others]; [congruence|].
      destruct others as [|second others]; cbn [join_lines String.append] in *;
        now rewrite IH.
Qed.

Lemma split_line_then (line : string) (rest : string) :
  is_line line ->
  split_lines (line ++ String newline rest) = line :: split_lines rest.
Proof.
  unfold is_line. induction line as [|c line IH]; cbn [String.append has_char].
  - intros _. cbn [split_lines]. now rewrite Ascii.eqb_refl.
  - intros H. apply orb_false_iff in H. destruct H as [Hc Hline].
    cbn [split_lines]. rewrite Ascii.eqb_sym in Hc. rewrite Hc.
    now rewrite (IH Hline).
Qed.

Lemma split_single_line (line : string) :
  is_line line -> split_lines line = [line].
Proof.
  unfold is_line. induction line as [|c line IH]; cbn [has_char split_lines].
  - reflexivity.
  - intros H. apply orb_false_iff in H. destruct H as [Hc Hline].
    rewrite Ascii.eqb_sym in Hc. rewrite Hc. now rewrite (IH Hline).
Qed.

Lemma split_join_lines (lines : list string) :
  lines <> [] -> Forall is_line lines -> split_lines (join_lines lines) = lines.
Proof.
  induction lines as [|line rest IH]; [congruence|]. intros _ Hlines.
  inversion Hlines as [|? ? Hline Hrest]; subst.
  destruct rest as [|next rest].
  - cbn [join_lines]. now apply split_single_line.
  - change (join_lines (line :: next :: rest))
      with (line ++ String newline (join_lines (next :: rest)))%string.
    rewrite (split_line_then line _ Hline).
    now rewrite IH.
Qed.

Lemma kept_lines_sublist (lines : list string) :
  forall skip, Forall is_line lines -> Forall is_line (kept_lines skip lines).
Proof.
  induction lines as [|line rest IH]; intros skip Hlines; cbn [kept_lines].
  - constructor.
  - inversion Hlines; subst.
    destruct (negb _); [constructor|]; auto.
Qed.

(** No kept line opens a conflicting section. *)
Lemma kept_lines_open_nothing (lines : list string) :
  forall skip,
    Forall (fun line => opens_conflicting_section line = false)
      (kept_lines skip lines).
Proof.
  induction lines as [|line rest IH]; intros skip; cbn [kept_lines].
  - constructor.
  - unfold opens_conflicting_section in *.
    destruct (Str.startswith "[agent]" line || Str.startswith "[global_tags]" line)
      eqn:Hfirst; cbn [negb]; [apply IH|].
    destruct (Str.startswith "[[outputs." line) eqn:Hout; cbn [negb];
      [apply IH|].
    destruct (skip && Str.startswith "[" line); cbn [negb].
    + constructor; [|apply IH]. now rewrite Hfirst.
    + destruct skip; cbn [negb]; [apply IH|].
      constructor; [|apply IH]. now rewrite Hfirst.
Qed.

(** Lines none of which opens a conflicting section are all kept. *)
Lemma kept_lines_all (lines : list string) :
  Forall (fun line => opens_conflicting_section line = false) lines ->
  kept_lines false lines = lines.
Proof.
  induction lines as [|line rest IH]; intros Hlines; cbn [kept_lines].
  - reflexivity.
  - inversion Hlines as [|? ? Hline Hrest]; subst.
    unfold opens_conflicting_section in Hline.
    apply orb_false_iff in Hline. destruct Hline as [Hfirst Hout].
    rewrite Hfirst, Hout. cbn [andb negb]. now rewrite (IH Hrest).
Qed.

(** The lines of the result. *)
Lemma lines_of_result (config : string) :
  split_lines (remove_conflicting_sections config) =
  match kept_lines false (split_lines config) with
  | [] => [EmptyString]
  | kept => kept
  end.
Proof.
  unfold remove_conflicting_sections.
  pose proof (kept_lines_sublist (split_lines config) false
                (split_lines_are_lines config)) as Hlines.
  destruct (kept_lines false (split_lines config)) as [|line rest] eqn:Hkept.
  - reflexivity.
  - apply split_join_lines; [discriminate|exact Hlines].
Qed.

(** X24: in the configuration that [remove_conflicting_sections]
    returns, no line begins with [[agent]], [[global_tags]] or
    [[[outputs.]. *)
Theorem no_conflicting_section_is_left :
  forall config : string,
    Forall (fun line =>
              Str.startswith "[agent]" line = false
              /\ Str.startswith "[global_tags]" line = false
              /\ Str.startswith "[[outputs." line = false)
      (split_lines (remove_conflicting_sections config)).
Proof.
  intros config. rewrite lines_of_result.
  pose proof (kept_lines_open_nothing (split_lines config) false) as Hkept.
  destruct (kept_lines false (split_lines config)) as [|line rest].
  - constructor; [repeat split|constructor].
  - eapply Forall_impl; [|exact Hkept]. cbn beta.
    intros l Hl. unfold opens_conflicting_section in Hl.
    apply orb_false_iff in Hl. destruct Hl as [Hl Hout].
    apply orb_false_iff in Hl. destruct Hl as [Hagent Htags].
    repeat split; assumption.
Qed.

(** X25: [remove_conflicting_sections] is idempotent: applied to its own
    result it changes nothing. *)
Theorem removing_sections_twice_is_removing_once :
  forall config : string,
    remove_conflicting_sections (remove_conflicting_sections config) =
    remove_conflicting_sections config.
Proof.
  intros config.
  unfold remove_conflicting_sections at 1. rewrite lines_of_result.
  pose proof (kept_lines_open_nothing (split_lines config) false) as Hkept.
  unfold remove_conflicting_sections.
  destruct (kept_lines false (split_lines config)) as [|line rest].
  - reflexivity.
  - now rewrite (kept_lines_all _ Hkept).
Qed.

(** X26: a configuration none of whose lines opens a conflicting section
    is returned as it is. *)
Theorem configuration_without_conflicts_is_unchanged :
  forall config : string,
    Forall (fun line => opens_conflicting_section line = false)
      (split_lines config) ->
    remove_conflicting_sections config = config.
Proof.
  intros config Hlines. unfold remove_conflicting_sections.
  rewrite (kept_lines_all _ Hlines). apply join_split_lines.
Qed.

Lemma configuration_without_conflicts_is_unchanged_witness :
  remove_conflicting_sections
    (join_lines ["[[inputs.http]]"; "  urls = []"; ""]) =
  join_lines ["[[inputs.http]]"; "  urls = []"; ""].
Proof.
  apply configuration_without_conflicts_is_unchanged.
  repeat constructor.
Defined.

(** ** Dashboard groups *)

Section Groups.

Variable title : string -> string.

Lemma group_members_add_same (group : string) (m : metric)
    (groups : list (string * list metric)) :
  group_members group (add_to_group group m groups) =
  Some (match group_members group groups with
        | Some members => members ++ [m]
        | None => [m]
        end).
Proof.
  induction groups as [|[key members] rest IH]; cbn [add_to_group group_members].
  - now rewrite String.eqb_refl.
  - destruct (String.eqb key group) eqn:Hkey; cbn [group_members]; rewrite Hkey;
      [reflexivity|exact IH].
Qed.

Lemma group_members_add_other (group other : string) (m : metric)
    (groups : list (string * list metric)) :
  other <> group ->
  group_members other (add_to_group group m groups) = group_members other groups.
Proof.
  intros Hne.
  induction groups as [|[key members] rest IH]; cbn [add_to_group group_members].
  - destruct (String.eqb_spec group other); [congruence|reflexivity].
  - destruct (String.eqb_spec key group) as [->|Hkey]; cbn [group_members].
    + destruct (String.eqb_spec group other); [congruence|reflexivity].
    + destruct (String.eqb key other); [reflexivity|exact IH].
Qed.

Lemma add_to_group_keys (group : string) (m : metric)
    (groups : list (string * list metric)) :
  NoDup (map fst groups) -> NoDup (map fst (add_to_group group m groups))
  /\ forall key, In key (map fst (add_to_group group m groups)) <->
                 key = group \/ In key (map fst groups).
Proof.
  induction groups as [|[key members] rest IH]; intros Hnodup;
    cbn [add_to_group map fst].
  - split; [repeat constructor; intros []|].
    intros k. cbn. intuition.
  - inversion Hnodup as [|? ? Hnotin Hrest]; subst.
    destruct (String.eqb_spec key group) as [->|Hkey]; cbn [map fst].
    + split; [exact Hnodup|]. intros k. cbn. intuition.
    + destruct (IH Hrest) as [Hnd Hin]. split.
      * constructor; [|exact Hnd]. rewrite Hin. intros [Heq|Hold]; auto.
      * intros k. cbn [In]. rewrite Hin. intuition.
Qed.

(** Grouping a list of metrics into groups that are there already. *)
Lemma grouped (metrics : list metric) :
  forall groups,
    NoDup (map fst groups) ->
    let result :=
      fold_left (fun groups m => add_to_group (group_name title m) m groups)
        metrics groups in
    NoDup (map fst result)
    /\ forall group,
         group_members group result =
         match group_members group groups,
               filter (fun m => String.eqb (group_name title m) group) metrics
         with
         | Some members, more => Some (members ++ more)
         | None, [] => None
         | None, more => Some more
         end.
Proof.
  induction metrics as [|m rest IH]; intros groups Hnodup; cbn [fold_left filter].
  - split; [exact Hnodup|]. intros group.
    destruct (group_members group groups); [now rewrite app_nil_r|reflexivity].
  - destruct (add_to_group_keys (group_name title m) m groups Hnodup) as [Hnd _].
    destruct (IH _ Hnd) as [Hresult Hmembers].
    split; [exact Hresult|]. intros group. rewrite Hmembers.
    destruct (String.eqb_spec (group_name title m) group) as [<-|Hne].
    + rewrite group_members_add_same.
      destruct (group_members (group_name title m) groups);
        [now rewrite <- app_assoc|reflexivity].
    + rewrite group_members_add_other by congruence. reflexivity.
Qed.

Lemma grouped_endpoints (found : list endpoint) :
  forall groups,
    NoDup (map fst groups) ->
    let result :=
      fold_left
        (fun groups endpoint =>
           fold_left (fun groups m => add_to_group (group_name title m) m groups)
             (endpoint_metrics endpoint) groups)
        found groups in
    result =
    fold_left (fun groups m => add_to_group (group_name title m) m groups)
      (flat_map endpoint_metrics found) groups.
Proof.
  induction found as [|d rest IH]; intros groups Hnodup; cbn [fold_left flat_map].
  - reflexivity.
  - rewrite fold_left_app. apply IH.
    apply (grouped (endpoint_metrics d) groups Hnodup).
Qed.

(** X27: [_group_metrics] sorts every metric of every endpoint into one
    group: the members of a group are exactly the metrics whose group name
    it is, in the order the endpoints report them; a group exists only if
    it has a member; and no group name occurs twice. *)
Theorem metrics_are_grouped_by_first_path_part :
  forall (a : api_structure),
    NoDup (map fst (_group_metrics title a))
    /\ forall group,
         group_members group (_group_metrics title a) =
         match filter (fun m => String.eqb (group_name title m) group)
                 (all_metrics a)
         with
         | [] => None
         | members => Some members
         end.
Proof.
  intros a. unfold _group_metrics, all_metrics.
  rewrite (grouped_endpoints (structure_endpoints a) [] (NoDup_nil _)).
  destruct (grouped (flat_map endpoint_metrics (structure_endpoints a)) []
              (NoDup_nil _)) as [Hnd Hmembers].
  split; [exact Hnd|]. intros group. rewrite Hmembers. reflexivity.
Qed.

End Groups.
